(** * Paper-trading strategy engine: streaming pipeline and paper broker

    Shallow embedding of [live_nifty_fourbar_adx_jugaad.py] (the Wilder ADX
    tracker, the four-bar breakout detector, the 15-minute aggregation and
    the evaluation block of [run]) and of the [PaperBroker] class of
    [option_chain.py].

    Numbers.  The source computes with Python [float]s (and a few [int]s).
    They are embedded as rationals [Q]; equality of numbers is [Qeq]
    (written [==]).  Comparisons, [max], [min] and [abs] are the Python
    ones, and true division raises [ZeroDivisionError] on a zero divisor
    and is therefore partial.  In the main embedding [+ - * /] are the
    exact field operations.  The arithmetic of the paper broker is embedded
    a second time with every operation rounded to IEEE 754 binary64
    ([Binary64], [PaperBroker64]); the statements about the amounts the
    broker returns and records are proved there.  Infinities and NaN are
    outside both. *)

From Stdlib Require Import QArith Qabs Qround Qpower Lqa ZArith Lia String Ascii Bool List Sorted Permutation.
Import ListNotations.
Local Open Scope Q_scope.

(** ** Python built-ins used by the source *)

Module Py.

(** [a < b] on numbers. *)
Definition lt (a b : Q) : bool := negb (Qle_bool b a).

(** [a > b] is [b < a]. *)
Definition gt (a b : Q) : bool := lt b a.

(** [a >= b] on numbers. *)
Definition ge (a b : Q) : bool := Qle_bool b a.

(** Truth value of a number: zero is false, anything else is true. *)
Definition truthy (x : Q) : bool := negb (Qeq_bool x 0).

(** [max(a, b)] keeps the first argument unless the second is strictly
    greater; [min(a, b)] keeps it unless the second is strictly smaller. *)
Definition max2 (a b : Q) : Q := if gt b a then b else a.
Definition min2 (a b : Q) : Q := if lt b a then b else a.

(** [max(a, b, c)] scans left to right. *)
Definition max3 (a b c : Q) : Q := max2 (max2 a b) c.

(** [max(xs)] / [min(xs)] over a non-empty sequence; [None] stands for the
    [ValueError] raised on an empty one. *)
Definition max_seq (xs : list Q) : option Q :=
  match xs with
  | [] => None
  | x :: rest => Some (fold_left max2 rest x)
  end.
Definition min_seq (xs : list Q) : option Q :=
  match xs with
  | [] => None
  | x :: rest => Some (fold_left min2 rest x)
  end.

(** [a / b]: [None] stands for [ZeroDivisionError]. *)
Definition div (a b : Q) : option Q :=
  if Qeq_bool b 0 then None else Some (a / b).

(** [all(...)] over a list of already evaluated tests. *)
Definition all (bs : list bool) : bool := forallb (fun b => b) bs.

(** [sum(...)] of numbers, starting from 0 and adding left to right. *)
Definition sum (xs : list Q) : Q := fold_left Qplus xs 0.

(** ASCII part of [str.upper]. *)
Definition upper_ascii (c : ascii) : ascii :=
  let n := nat_of_ascii c in
  if (andb (Nat.leb 97 n) (Nat.leb n 122)) then ascii_of_nat (n - 32) else c.
Fixpoint upper (s : string) : string :=
  match s with
  | EmptyString => EmptyString
  | String c rest => String (upper_ascii c) (upper rest)
  end.

End Py.

(** Sequencing of computations that may raise. *)
Definition bind {A B : Type} (m : option A) (k : A -> option B) : option B :=
  match m with
  | Some a => k a
  | None => None
  end.
Notation "x <- m ;; k" := (bind m (fun x => k))
  (at level 61, m at next level, right associativity).
Notation "'ret' x" := (Some x) (at level 60).

(** ** Configuration constants of the strategy module *)

Definition STRIKE_STEP : Z := 50.
Definition ADX_PERIOD : Z := 14.
Definition ADX_THRESHOLD : Q := 20.

(** ** [class ADXTracker]: incremental Wilder ADX *)

Module ADXTracker.

(** The dictionary [self.prev]; the keys ["+dm_s"] and ["-dm_s"] are
    spelled [pdm_s] and [mdm_s]. *)
Record Prev : Type := mkPrev {
  close : Q;
  high : Q;
  low : Q;
  tr_s : Q;
  pdm_s : Q;
  mdm_s : Q;
  adx : Q
}.

Record t : Type := mk {
  p : Z;
  ready : bool;
  prev : option Prev
}.

(** [__init__(self, period=14)] *)
Definition init (period : Z) : t :=
  {| p := period; ready := false; prev := None |}.

(** The seed value of the smoothed true range, [1e-9]. *)
Definition eps : Q := 1 # 1000000000.

(** [seed(self, close)] *)
Definition seed (self : t) (c : Q) : t :=
  {| p := p self;
     ready := true;
     prev := Some {| close := c; high := c; low := c;
                     tr_s := eps; pdm_s := 0; mdm_s := 0; adx := 0 |} |}.

(** Lines 94-95: [if plus_dm < minus_dm: plus_dm = 0.0] / [else: minus_dm = 0.0]. *)
Definition select_dm (plus_dm minus_dm : Q) : Q * Q :=
  if Py.lt plus_dm minus_dm then (0, minus_dm) else (plus_dm, 0).

(** [update(self, high, low, close)]: the new tracker and the returned
    [adx].  [None] stands for an exception ([ZeroDivisionError] from a
    division, [TypeError] from subscripting [self.prev] when it is
    [None]). *)
Definition update (self : t) (h l c : Q) : option (t * Q) :=
  let self := if ready self then self else seed self c in
  pv <- prev self ;;
  let p := inject_Z (p self) in
  let tr := Py.max3 (h - l) (Qabs (h - close pv)) (Qabs (l - close pv)) in
  let plus_dm := Py.max2 (h - high pv) 0 in
  let minus_dm := Py.max2 (low pv - l) 0 in
  let '(plus_dm, minus_dm) := select_dm plus_dm minus_dm in
  q_tr <- Py.div (tr_s pv) p ;;
  let tr_s' := tr_s pv - q_tr + tr in
  q_pdm <- Py.div (pdm_s pv) p ;;
  let pdm_s' := pdm_s pv - q_pdm + plus_dm in
  q_mdm <- Py.div (mdm_s pv) p ;;
  let mdm_s' := mdm_s pv - q_mdm + minus_dm in
  plus_di <- (if Py.truthy tr_s'
              then (r <- Py.div pdm_s' tr_s' ;; ret (100 * r))
              else ret 0) ;;
  minus_di <- (if Py.truthy tr_s'
               then (r <- Py.div mdm_s' tr_s' ;; ret (100 * r))
               else ret 0) ;;
  dx <- (if Py.truthy (plus_di + minus_di)
         then (r <- Py.div (Qabs (plus_di - minus_di)) (plus_di + minus_di) ;;
               ret (100 * r))
         else ret 0) ;;
  adx' <- (if Py.truthy (adx pv)
           then Py.div (adx pv * (p - 1) + dx) p
           else ret dx) ;;
  ret ({| p := ADXTracker.p self;
          ready := ready self;
          prev := Some {| close := c; high := h; low := l;
                          tr_s := tr_s'; pdm_s := pdm_s'; mdm_s := mdm_s';
                          adx := adx' |} |},
       adx').

(** The tracker [update] goes on with after [if not self.ready:
    self.seed(close)]. *)
Definition seeded (self : t) (c : Q) : t :=
  if ready self then self else seed self c.

(** The values [update] computes from [self.prev] when no division
    raises: the same assignments, with the divisions read as field
    divisions.  [update_step] below shows that [update] returns exactly
    these whenever the period is not zero. *)
Definition step (pv : Prev) (p h l c : Q) : Prev :=
  let tr := Py.max3 (h - l) (Qabs (h - close pv)) (Qabs (l - close pv)) in
  let dm := select_dm (Py.max2 (h - high pv) 0) (Py.max2 (low pv - l) 0) in
  let tr_s' := tr_s pv - tr_s pv / p + tr in
  let pdm_s' := pdm_s pv - pdm_s pv / p + fst dm in
  let mdm_s' := mdm_s pv - mdm_s pv / p + snd dm in
  let plus_di := if Py.truthy tr_s' then 100 * (pdm_s' / tr_s') else 0 in
  let minus_di := if Py.truthy tr_s' then 100 * (mdm_s' / tr_s') else 0 in
  let dx := if Py.truthy (plus_di + minus_di)
            then 100 * (Qabs (plus_di - minus_di) / (plus_di + minus_di))
            else 0 in
  let adx' := if Py.truthy (adx pv) then (adx pv * (p - 1) + dx) / p else dx in
  {| close := c; high := h; low := l;
     tr_s := tr_s'; pdm_s := pdm_s'; mdm_s := mdm_s'; adx := adx' |}.

(** The bounds the smoothed state keeps: a strictly positive smoothed
    true range, non-negative smoothed directional moves, and a trend
    strength within [0, 100]. *)
Definition bounded (pv : Prev) : Prop :=
  0 < tr_s pv /\ 0 <= pdm_s pv /\ 0 <= mdm_s pv /\
  0 <= adx pv /\ adx pv <= 100.

(** The trackers a program can hold: a fresh one, a seeded one, and
    whatever a successful [update] leaves. *)
Inductive reachable (period : Z) : t -> Prop :=
| reach_init : reachable period (init period)
| reach_seed : forall self c,
    reachable period self -> reachable period (seed self c)
| reach_update : forall self h l c self' v,
    reachable period self ->
    update self h l c = Some (self', v) ->
    reachable period self'.

(** What holds of every reachable tracker: the period is the one given
    at construction, and [self.prev] is set exactly when the tracker is
    ready, within the bounds. *)
Definition consistent (period : Z) (self : t) : Prop :=
  p self = period /\
  match prev self with
  | Some pv => ready self = true /\ bounded pv
  | None => ready self = false
  end.

(** Feeding a sequence of [(high, low, close)] triples, collecting the
    returned values. *)
Fixpoint updates (self : t) (bars : list (Q * Q * Q)) : option (t * list Q) :=
  match bars with
  | [] => ret (self, [])
  | (h, l, c) :: rest =>
      r <- update self h l c ;;
      r' <- updates (fst r) rest ;;
      ret (fst r', snd r :: snd r')
  end.

End ADXTracker.

(** ** Bars and the four-bar breakout detector *)

(** Wall-clock timestamps (all in the IST zone): the proleptic day number
    and the time-of-day fields of a [datetime]. *)
Module DT.

Record t : Type := mk {
  day : Z;
  hour : Z;
  minute : Z;
  second : Z;
  microsecond : Z
}.

(** Microseconds since the start of day 0. *)
Definition to_us (ts : t) : Z :=
  ((((day ts * 24 + hour ts) * 60 + minute ts) * 60 + second ts) * 1000000
   + microsecond ts)%Z.

Definition of_us (us : Z) : t :=
  {| day := (us / 86400000000)%Z;
     hour := ((us / 3600000000) mod 24)%Z;
     minute := ((us / 60000000) mod 60)%Z;
     second := ((us / 1000000) mod 60)%Z;
     microsecond := (us mod 1000000)%Z |}.

(** [a < b], [a <= b], [a > b] on timestamps of one zone. *)
Definition lt (a b : t) : bool := (to_us a <? to_us b)%Z.
Definition le (a b : t) : bool := (to_us a <=? to_us b)%Z.
Definition gt (a b : t) : bool := lt b a.

(** [ts - timedelta(minutes=m)] *)
Definition sub_minutes (ts : t) (m : Z) : t :=
  of_us (to_us ts - m * 60000000)%Z.

(** [ts.weekday()]: Monday is 0. *)
Definition weekday (ts : t) : Z := ((day ts + 6) mod 7)%Z.

End DT.

Definition SESSION_START : Z * Z := (9, 15)%Z.
Definition SESSION_END : Z * Z := (15, 30)%Z.

(** Tuple comparison [(a1, a2) >= (b1, b2)]. *)
Definition pair_ge (a b : Z * Z) : bool :=
  ((fst b <? fst a) || ((fst a =? fst b) && (snd b <=? snd a)))%Z.

(** [in_session(ts)] *)
Definition in_session (ts : DT.t) : bool :=
  (DT.weekday ts <? 5)%Z
  && pair_ge (DT.hour ts, DT.minute ts) SESSION_START
  && pair_ge SESSION_END (DT.hour ts, DT.minute ts).

(** [floor_15m(ts)] *)
Definition floor_15m (ts : DT.t) : DT.t :=
  let mins := (DT.minute ts - (DT.minute ts mod 15))%Z in
  {| DT.day := DT.day ts; DT.hour := DT.hour ts;
     DT.minute := mins; DT.second := 0; DT.microsecond := 0 |}.

(** One row of the [bars] data frame. *)
Module Bar.

Record t : Type := mk {
  datetime : DT.t;
  open : Q;
  high : Q;
  low : Q;
  close : Q
}.

(** The bar invariant of the data model: [low <= open, close <= high]. *)
Definition ohlc_ok (b : t) : Prop :=
  low b <= open b /\ open b <= high b /\ low b <= close b /\ close b <= high b.

End Bar.

(** The dictionary returned by [four_bar_signal]; the key ["dir"] is
    spelled [dir]. *)
Module Signal.

Record t : Type := mk {
  dir : string;
  trigger : Q;
  box_high : Q;
  box_low : Q
}.

End Signal.

(** [df.tail(n)]: the last [n] rows (all of them when there are fewer). *)
Definition tail {A : Type} (n : nat) (df : list A) : list A :=
  skipn (length df - n) df.

(** [four_bar_signal(df_15m)]; [None] is Python's [None].  The arrays
    [c], [h], [l] have four entries, so the indexings and [max]/[min]
    cannot raise; the defaults below are never reached. *)
Definition four_bar_signal (df_15m : list Bar.t) : option Signal.t :=
  if (length df_15m <? 4)%nat then None
  else
    let last4 := tail 4 df_15m in
    let c := map Bar.close last4 in
    let h := map Bar.high last4 in
    let l := map Bar.low last4 in
    let inc := Py.all (map (fun i => Py.gt (nth i c 0) (nth (i - 1) c 0))
                           [1; 2; 3]%nat) in
    let dec := Py.all (map (fun i => Py.lt (nth i c 0) (nth (i - 1) c 0))
                           [1; 2; 3]%nat) in
    match Py.max_seq h, Py.min_seq l with
    | Some box_high, Some box_low =>
        if inc then
          Some {| Signal.dir := "LONG"%string; Signal.trigger := box_high;
                  Signal.box_high := box_high; Signal.box_low := box_low |}
        else if dec then
          Some {| Signal.dir := "SHORT"%string; Signal.trigger := box_low;
                  Signal.box_high := box_high; Signal.box_low := box_low |}
        else None
    | _, _ => None
    end.

(** The vocabulary of the breakout properties: closes strictly increasing
    ([c[i] > c[i-1]] for every [i] from 1), strictly decreasing, and a
    value being the greatest (least) element of a sequence. *)
Definition strictly_increasing (c : list Q) : Prop :=
  forall i, (1 <= i < length c)%nat -> nth (i - 1) c 0 < nth i c 0.

Definition strictly_decreasing (c : list Q) : Prop :=
  forall i, (1 <= i < length c)%nat -> nth i c 0 < nth (i - 1) c 0.

Definition is_max (m : Q) (xs : list Q) : Prop :=
  In m xs /\ forall x, In x xs -> x <= m.

Definition is_min (m : Q) (xs : list Q) : Prop :=
  In m xs /\ forall x, In x xs -> m <= x.

(** ** The runner: aggregation and evaluation blocks of one polling tick *)

(** The row appended when a new bucket opens (lines 154-156). *)
Definition fresh_bar (slot : DT.t) (spot : Q) : Bar.t :=
  {| Bar.datetime := slot; Bar.open := spot; Bar.high := spot;
     Bar.low := spot; Bar.close := spot |}.

(** The row written by the in-place update of lines 158-162. *)
Definition widen (b : Bar.t) (spot : Q) : Bar.t :=
  {| Bar.datetime := Bar.datetime b;
     Bar.open := Bar.open b;
     Bar.high := Py.max2 (Bar.high b) spot;
     Bar.low := Py.min2 (Bar.low b) spot;
     Bar.close := spot |}.

(** Lines 152-162 of [run]: the 15-minute aggregation of the spot sample
    into [bars]; [b] is the newest row and [before] the rows above it,
    newest first. *)
Definition aggregate (bars : list Bar.t) (slot : DT.t) (spot : Q) : list Bar.t :=
  match rev bars with
  | [] => bars ++ [fresh_bar slot spot]
  | b :: before =>
      if DT.lt (Bar.datetime b) slot then bars ++ [fresh_bar slot spot]
      else rev before ++ [widen b spot]
  end.

(** The aggregation over a sequence of clock readings and spot samples. *)
Definition aggregate_all (bars : list Bar.t) (samples : list (DT.t * Q))
  : list Bar.t :=
  fold_left (fun acc s => aggregate acc (floor_15m (fst s)) (snd s)) samples bars.

(** Calls made by the evaluation block, in program order. *)
Inductive Call : Type :=
| CallAdxUpdate (h l c : Q)
| CallFourBarSignal (df : list Bar.t).

(** The loop variables of [run] that the two blocks read and write. *)
Record LoopState : Type := mkLoop {
  bars : list Bar.t;
  last_completed : option DT.t;
  adx : ADXTracker.t
}.

(** What one evaluation produced: the value returned by [adx.update] and
    the signal. *)
Record Evaluation : Type := mkEval {
  adx_val : Q;
  sig : option Signal.t
}.

(** [series.iloc[-1]]: [None] stands for the [IndexError] on an empty
    series. *)
Definition iloc_last {A : Type} (xs : list A) : option A :=
  match rev xs with
  | [] => None
  | x :: _ => Some x
  end.

(** Lines 165-176 of [run], on the already aggregated [bars]: returns the
    new loop variables, the evaluation (when the block ran) and the calls
    made. *)
Definition evaluate (st : LoopState) (slot : DT.t) (spot : Q)
  : option (LoopState * option Evaluation * list Call) :=
  let completed := DT.sub_minutes slot 15 in
  let due := match last_completed st with
             | None => true
             | Some lc => DT.gt completed lc
             end in
  if due then
    prev_close <- (if ADXTracker.ready (adx st)
                   then (pv <- ADXTracker.prev (adx st) ;; ret (ADXTracker.close pv))
                   else ret spot) ;;
    bar_high <- iloc_last (map Bar.high (bars st)) ;;
    let day_high := Py.max2 prev_close bar_high in
    bar_low <- iloc_last (map Bar.low (bars st)) ;;
    let day_low := Py.min2 prev_close bar_low in
    day_close <- iloc_last (map Bar.close (bars st)) ;;
    r <- ADXTracker.update (adx st) day_high day_low day_close ;;
    let df_comp := filter (fun b => DT.le (Bar.datetime b) completed) (bars st) in
    let run_detector := (4 <=? length df_comp)%nat in
    let sig := if run_detector then four_bar_signal df_comp else None in
    ret ({| bars := bars st; last_completed := Some completed; adx := fst r |},
         Some {| adx_val := snd r; sig := sig |},
         CallAdxUpdate day_high day_low day_close
           :: (if run_detector then [CallFourBarSignal df_comp] else []))
  else
    ret (st, None, []).

(** Lines 148-176 of [run]: what a tick does with the index snapshot
    [spot] once the session check has passed.  A zero [spot] skips the
    tick. *)
Definition on_sample (st : LoopState) (nowi : DT.t) (spot : Q)
  : option (LoopState * option Evaluation * list Call) :=
  if negb (Py.truthy spot) then ret (st, None, [])
  else
    let slot := floor_15m nowi in
    let bars' := aggregate (bars st) slot spot in
    evaluate {| bars := bars'; last_completed := last_completed st; adx := adx st |}
             slot spot.

(** One polling tick up to line 176: [nowi] is the clock reading,
    [is_closed] what the market-status lookup reported and [spot] the
    index snapshot.  Outside the session, or with the market reported
    closed, the tick does nothing.  The entry and exit policy that follows
    in [run] (lines 178-211) is not part of this embedding. *)
Definition tick (st : LoopState) (nowi : DT.t) (is_closed : bool) (spot : Q)
  : option (LoopState * option Evaluation * list Call) :=
  if negb (in_session nowi) || is_closed then ret (st, None, [])
  else on_sample st nowi spot.

(** The loop variables at the start of [run]. *)
Definition run_init : LoopState :=
  {| bars := []; last_completed := None; adx := ADXTracker.init ADX_PERIOD |}.

(** A run of ticks with the market reported open, keeping the result of
    the last one. *)
Fixpoint ticks (st : LoopState) (qs : list (DT.t * Q))
  : option (LoopState * option Evaluation * list Call) :=
  match qs with
  | [] => ret (st, None, [])
  | (nowi, spot) :: rest =>
      r <- tick st nowi false spot ;;
      match rest with
      | [] => ret r
      | _ => ticks (fst (fst r)) rest
      end
  end.

(** A clock reading at [h:m:s] on one fixed trading day, for the worked
    runs below. *)
Definition clock (h m s : Z) : DT.t :=
  {| DT.day := 739000; DT.hour := h; DT.minute := m;
     DT.second := s; DT.microsecond := 0 |}.

(** A row for the bucket starting at [hh:mm] of that day. *)
Definition bar_at (hh mm : Z) (o h l c : Q) : Bar.t :=
  {| Bar.datetime := clock hh mm 0; Bar.open := o; Bar.high := h;
     Bar.low := l; Bar.close := c |}.

(** The loop states [run] goes through: the initial one and whatever a
    tick leaves. *)
Inductive loop_reachable : LoopState -> Prop :=
| loop_init : loop_reachable run_init
| loop_tick : forall st nowi is_closed spot st' ev calls,
    loop_reachable st ->
    tick st nowi is_closed spot = Some (st', ev, calls) ->
    loop_reachable st'.

(** A timestamp on a 15-minute boundary. *)
Definition aligned (d : DT.t) : Prop := (DT.to_us d mod 900000000 = 0)%Z.

(** What the loop keeps true of its variables: [last_completed] is 15
    minutes before the newest row's bucket (and unset while there is no
    row), every bucket start is on a 15-minute boundary and none is later
    than the newest row's, and the tracker is one a program can hold. *)
Definition loop_inv (st : LoopState) : Prop :=
  match iloc_last (bars st) with
  | None => last_completed st = None
  | Some b =>
      last_completed st = Some (DT.sub_minutes (Bar.datetime b) 15)
      /\ Forall (fun x => (DT.to_us (Bar.datetime x)
                           <= DT.to_us (Bar.datetime b))%Z) (bars st)
  end
  /\ Forall (fun x => aligned (Bar.datetime x)) (bars st)
  /\ ADXTracker.reachable ADX_PERIOD (adx st).

(** [prev_close] of line 170. *)
Definition prev_close_or (tracker : ADXTracker.t) (spot : Q) : Q :=
  if ADXTracker.ready tracker
  then match ADXTracker.prev tracker with
       | Some pv => ADXTracker.close pv
       | None => spot
       end
  else spot.

(** ** [option_chain.py]: lot sizes and the paper broker *)

(** A dictionary with string keys, as an association list;
    [dict_get d k default] is [d.get(k, default)]. *)
Fixpoint dict_get {V : Type} (d : list (string * V)) (k : string) (default : V) : V :=
  match d with
  | [] => default
  | (k', v) :: rest => if String.eqb k' k then v else dict_get rest k default
  end.

Definition NSE_LOT_SIZE : list (string * Z) := [("NIFTY"%string, 50%Z)].

(** [get_lot_size(symbol)] *)
Definition get_lot_size (symbol : string) : Z :=
  dict_get NSE_LOT_SIZE (Py.upper symbol) 50%Z.

(** The option leg built by [_pick]; a field holding [None] (or, for
    [symbol], a missing key) is [None] here. *)
Module Contract.

Record t : Type := mk {
  expiry : string;
  strike : Q;
  side : string;
  ltp : option Q;
  oi : option Q;
  change_in_oi : option Q;
  bid : option Q;
  ask : option Q;
  symbol : option string
}.

(** [contract.get("symbol", "NIFTY")] *)
Definition get_symbol (c : t) : string :=
  match symbol c with
  | Some s => s
  | None => "NIFTY"%string
  end.

End Contract.

(** [self.position] while a position is held. *)
Module Position.

Record t : Type := mk {
  side : string;
  entry : Q;
  qty : Z;
  contract : Contract.t
}.

End Position.

(** One element of [self.closed_trades]. *)
Module Trade.

Record t : Type := mk {
  side : string;
  entry_price : Q;
  exit_price : Q;
  qty : Z;
  contract : Contract.t;
  entry_time : option string;
  exit_time : string;
  pnl : Q;
  capital_post : Q;
  reason : option string
}.

End Trade.

(** One line of the audit log. *)
Module LogRecord.

(** The message text.  The one message that formats numbers keeps them
    as numbers: [Insufficient have need] is
    [f"Insufficient capital for trade: have {have:.2f}, need {need:.2f}"]. *)
Inductive Message : Type :=
| Text (s : string)
| Insufficient (have need : Q).

(** The [extra] dictionary merged into the record. *)
Inductive Extra : Type :=
| NoExtra
| OpenExtra (entry_price : Q) (contract : Contract.t) (qty : Z)
            (capital : Q) (timestamp : string)
| CloseExtra (trade : Trade.t).

Record t : Type := mk {
  event : string;
  message : Message;
  capital : Q;
  time : string;
  extra : Extra
}.

End LogRecord.

(** [a or b] on an optional string: [None] and the empty string are false. *)
Definition str_or (a : option string) (b : string) : string :=
  match a with
  | Some EmptyString => b
  | Some s => s
  | None => b
  end.

Module PaperBroker.

(** The object's attributes, together with [log]: the records appended
    so far to the file [log_file], oldest first. *)
Record t : Type := mk {
  initial_capital : Q;
  capital : Q;
  position : option Position.t;
  open_time : option string;
  closed_trades : list Trade.t;
  log_file : string;
  slippage_pct : Q;
  log : list LogRecord.t
}.

(** [__init__(initial_capital=100000, log_file="trade_log.jsonl",
    slippage_pct=0.001)]; [log0] is what the file already holds. *)
Definition init (initial_capital : Q) (log_file : string) (slippage_pct : Q)
           (log0 : list LogRecord.t) : t :=
  {| initial_capital := initial_capital;
     capital := initial_capital;
     position := None;
     open_time := None;
     closed_trades := [];
     log_file := log_file;
     slippage_pct := slippage_pct;
     log := log0 |}.

Definition set_log (self : t) (l : list LogRecord.t) : t :=
  {| initial_capital := initial_capital self;
     capital := capital self;
     position := position self;
     open_time := open_time self;
     closed_trades := closed_trades self;
     log_file := log_file self;
     slippage_pct := slippage_pct self;
     log := l |}.

(** [log_event(self, event, message, extra=None)]; [now] is the reading
    of [datetime.now().isoformat()].  [record.update(extra)] overwrites
    the ["capital"] key when [extra] has one. *)
Definition log_event (self : t) (event : string) (message : LogRecord.Message)
           (extra : LogRecord.Extra) (now : string) : t :=
  let record_capital :=
    match extra with
    | LogRecord.OpenExtra _ _ _ c _ => c
    | _ => capital self
    end in
  set_log self
    (log self ++ [{| LogRecord.event := event;
                     LogRecord.message := message;
                     LogRecord.capital := record_capital;
                     LogRecord.time := now;
                     LogRecord.extra := extra |}]).

(** [enter(self, side, price, contract, timestamp=None)].  [now_stamp] is
    the clock reading used when [timestamp] is missing, [now_log] the one
    taken by [log_event]. *)
Definition enter (self : t) (side : string) (price : Q) (contract : Contract.t)
           (timestamp : option string) (now_stamp now_log : string) : t * bool :=
  match position self with
  | Some _ =>
      (log_event self "REJECTED" (LogRecord.Text "Already in position")
                 LogRecord.NoExtra now_log, false)
  | None =>
      let lot_size := get_lot_size (Contract.get_symbol contract) in
      let qty := lot_size in
      let cost := price * inject_Z qty in
      if Py.lt (capital self) cost then
        (log_event self "REJECTED" (LogRecord.Insufficient (capital self) cost)
                   LogRecord.NoExtra now_log, false)
      else
        let fill_price :=
          price + (if String.eqb side "LONG"
                   then slippage_pct self * price
                   else - slippage_pct self * price) in
        let opened := str_or timestamp now_stamp in
        let self1 :=
          {| initial_capital := initial_capital self;
             capital := capital self - cost;
             position := Some {| Position.side := side;
                                 Position.entry := fill_price;
                                 Position.qty := qty;
                                 Position.contract := contract |};
             open_time := Some opened;
             closed_trades := closed_trades self;
             log_file := log_file self;
             slippage_pct := slippage_pct self;
             log := log self |} in
        (log_event self1 "OPEN" (LogRecord.Text ("Entered " ++ side))
                   (LogRecord.OpenExtra fill_price contract qty
                                        (capital self1) opened)
                   now_log, true)
  end.

(** [exit(self, price, timestamp=None, reason=None)]; the result [None]
    is the [False] of a rejection, [Some pnl] the returned pnl. *)
Definition exit (self : t) (price : Q) (timestamp reason : option string)
           (now_stamp now_log : string) : t * option Q :=
  match position self with
  | None =>
      (log_event self "REJECTED" (LogRecord.Text "No open position to exit")
                 LogRecord.NoExtra now_log, None)
  | Some pos =>
      let side := Position.side pos in
      let lot := Position.qty pos in
      let entry := Position.entry pos in
      let contract := Position.contract pos in
      let fill_price :=
        price - (if String.eqb side "LONG"
                 then slippage_pct self * price
                 else - slippage_pct self * price) in
      let pnl := if String.eqb side "LONG"
                 then (fill_price - entry) * inject_Z lot
                 else (entry - fill_price) * inject_Z lot in
      let capital' := capital self + fill_price * inject_Z lot in
      let trade :=
        {| Trade.side := side;
           Trade.entry_price := entry;
           Trade.exit_price := fill_price;
           Trade.qty := lot;
           Trade.contract := contract;
           Trade.entry_time := open_time self;
           Trade.exit_time := str_or timestamp now_stamp;
           Trade.pnl := pnl;
           Trade.capital_post := capital';
           Trade.reason := reason |} in
      let self1 :=
        {| initial_capital := initial_capital self;
           capital := capital';
           position := None;
           open_time := None;
           closed_trades := closed_trades self ++ [trade];
           log_file := log_file self;
           slippage_pct := slippage_pct self;
           log := log self |} in
      (log_event self1 "CLOSE" (LogRecord.Text "Closed position")
                 (LogRecord.CloseExtra trade) now_log, Some pnl)
  end.

(** [update_mark_to_market(self, last_price)] *)
Definition update_mark_to_market (self : t) (last_price : Q) : Q :=
  match position self with
  | None => 0
  | Some pos =>
      if String.eqb (Position.side pos) "LONG"
      then (last_price - Position.entry pos) * inject_Z (Position.qty pos)
      else (Position.entry pos - last_price) * inject_Z (Position.qty pos)
  end.

(** The dictionary returned by [summary]. *)
Record Summary : Type := mkSummary {
  s_initial_capital : Q;
  current_capital : Q;
  total_pnl : Q;
  num_trades : nat
}.

(** [summary(self)] *)
Definition summary (self : t) : Summary :=
  let total_pnl := Py.sum (map Trade.pnl (closed_trades self)) in
  {| s_initial_capital := initial_capital self;
     current_capital := capital self;
     total_pnl := total_pnl;
     num_trades := length (closed_trades self) |}.

(** The account is flat when no position is held. *)
Definition flat (self : t) : Prop := position self = None.

(** [self'] is [self] with exactly one more audit record, a [REJECTED]
    one without extra fields, and nothing else changed. *)
Definition only_rejection_logged (self self' : t) : Prop :=
  initial_capital self' = initial_capital self
  /\ capital self' = capital self
  /\ position self' = position self
  /\ open_time self' = open_time self
  /\ closed_trades self' = closed_trades self
  /\ log_file self' = log_file self
  /\ slippage_pct self' = slippage_pct self
  /\ exists record,
       log self' = log self ++ [record]
       /\ LogRecord.event record = "REJECTED"%string
       /\ LogRecord.extra record = LogRecord.NoExtra
       /\ LogRecord.capital record = capital self.

End PaperBroker.

(** An at-the-money NIFTY call leg as [_pick] builds it, and the broker
    [run] constructs, for the worked examples. *)
Definition nifty_call : Contract.t :=
  {| Contract.expiry := "27-Nov-2025"; Contract.strike := 25000;
     Contract.side := "CE"; Contract.ltp := Some 100;
     Contract.oi := Some 1200; Contract.change_in_oi := Some 0;
     Contract.bid := Some 99; Contract.ask := Some 100;
     Contract.symbol := Some "NIFTY"%string |}.

Definition run_broker : PaperBroker.t :=
  PaperBroker.init 100000 "trade_log.jsonl" 0.001 [].

(** ** Sequences of broker operations, and the dashboard's reading of the log *)

(** A timestamp whose time-of-day fields are in range, as every
    [datetime] object's are. *)
Definition time_ok (ts : DT.t) : Prop :=
  (0 <= DT.hour ts < 24 /\ 0 <= DT.minute ts < 60
   /\ 0 <= DT.second ts < 60 /\ 0 <= DT.microsecond ts < 1000000)%Z.

(** One call on the broker, with the clock readings it consumes. *)
Inductive BrokerOp : Type :=
| OpEnter (side : string) (price : Q) (contract : Contract.t)
          (timestamp : option string) (now_stamp now_log : string)
| OpExit (price : Q) (timestamp reason : option string)
         (now_stamp now_log : string).

(** The broker after one call, and after a sequence of calls. *)
Definition apply_op (self : PaperBroker.t) (op : BrokerOp) : PaperBroker.t :=
  match op with
  | OpEnter side price contract timestamp now_stamp now_log =>
      fst (PaperBroker.enter self side price contract timestamp now_stamp now_log)
  | OpExit price timestamp reason now_stamp now_log =>
      fst (PaperBroker.exit self price timestamp reason now_stamp now_log)
  end.

Definition apply_ops (self : PaperBroker.t) (ops : list BrokerOp) : PaperBroker.t :=
  fold_left apply_op ops self.

(** The quote a call was made with. *)
Definition op_price (op : BrokerOp) : Q :=
  match op with
  | OpEnter _ price _ _ _ _ => price
  | OpExit price _ _ _ _ => price
  end.

(** How many records of a log carry the given event. *)
Definition count_event (event : string) (log : list LogRecord.t) : nat :=
  length (filter (fun r => String.eqb (LogRecord.event r) event) log).

(** [dashboard_app.py], on the records [load_trades] parsed (one per log
    line, taken here as the records the broker wrote).  A data frame
    built from the records has one column per key that occurs in any of
    them; a record without the key holds a missing value in that column. *)
Module Dashboard.

(** The cell of the ["pnl"] column: only CLOSE records carry the key. *)
Definition pnl_cell (r : LogRecord.t) : option Q :=
  match LogRecord.extra r with
  | LogRecord.CloseExtra trade => Some (Trade.pnl trade)
  | _ => None
  end.

(** The cell of the ["capital_post"] column. *)
Definition capital_post_cell (r : LogRecord.t) : option Q :=
  match LogRecord.extra r with
  | LogRecord.CloseExtra trade => Some (Trade.capital_post trade)
  | _ => None
  end.

(** The cell of the ["side"] column: the OPEN record has no such key. *)
Definition side_cell (r : LogRecord.t) : option string :=
  match LogRecord.extra r with
  | LogRecord.CloseExtra trade => Some (Trade.side trade)
  | _ => None
  end.

(** The cells of ["qty"] and ["entry_price"]: OPEN and CLOSE records
    carry both keys. *)
Definition qty_cell (r : LogRecord.t) : option Z :=
  match LogRecord.extra r with
  | LogRecord.OpenExtra _ _ qty _ _ => Some qty
  | LogRecord.CloseExtra trade => Some (Trade.qty trade)
  | LogRecord.NoExtra => None
  end.

Definition entry_price_cell (r : LogRecord.t) : option Q :=
  match LogRecord.extra r with
  | LogRecord.OpenExtra entry_price _ _ _ _ => Some entry_price
  | LogRecord.CloseExtra trade => Some (Trade.entry_price trade)
  | LogRecord.NoExtra => None
  end.

Definition contract_cell (r : LogRecord.t) : option Contract.t :=
  match LogRecord.extra r with
  | LogRecord.OpenExtra _ contract _ _ _ => Some contract
  | LogRecord.CloseExtra trade => Some (Trade.contract trade)
  | LogRecord.NoExtra => None
  end.

(** [name in df]: the column exists when some record has the key. *)
Definition has_column {A : Type} (cell : LogRecord.t -> option A)
           (trades : list LogRecord.t) : bool :=
  existsb (fun r => match cell r with Some _ => true | None => false end) trades.

(** [series.sum()]: missing values are skipped. *)
Fixpoint present {A : Type} (cells : list (option A)) : list A :=
  match cells with
  | [] => []
  | Some x :: rest => x :: present rest
  | None :: rest => present rest
  end.

(** Line 29: [pnl = df["pnl"].sum() if "pnl" in df else 0]. *)
Definition total_pnl (trades : list LogRecord.t) : Q :=
  if has_column pnl_cell trades
  then Py.sum (present (map pnl_cell trades))
  else 0.

(** Line 30: [curr_cap = df["capital_post"].iloc[-1] if "capital_post" in
    df else None].  The outer [None] is Python's [None]; the inner one a
    missing value in the last row. *)
Definition curr_cap (trades : list LogRecord.t) : option (option Q) :=
  if has_column capital_post_cell trades
  then iloc_last (map capital_post_cell trades)
  else None.

(** Line 34: the "Number of Trades" metric is [len(df)]. *)
Definition number_of_trades (trades : list LogRecord.t) : nat := length trades.

(** Lines 37-39: the test for an open position. *)
Definition shows_open_position (trades : list LogRecord.t) : bool :=
  (count_event "CLOSE" trades <? count_event "OPEN" trades)%nat.

(** What the banner of lines 40-43 prints. *)
Record Banner : Type := mkBanner {
  b_side : option string;
  b_qty : option Z;
  b_entry_price : option Q;
  b_contract : option Contract.t
}.

(** Lines 36-43.  The outer [None] stands for the [KeyError] raised by
    [last_open['side']] when the frame has no ["side"] column; the inner
    one means that no banner is shown. *)
Definition open_position_banner (trades : list LogRecord.t)
  : option (option Banner) :=
  if shows_open_position trades then
    match iloc_last (filter (fun r => String.eqb (LogRecord.event r) "OPEN") trades) with
    | None => None
    | Some last_open =>
        if has_column side_cell trades
        then Some (Some {| b_side := side_cell last_open;
                           b_qty := qty_cell last_open;
                           b_entry_price := entry_price_cell last_open;
                           b_contract := contract_cell last_open |})
        else None
    end
  else Some None.

End Dashboard.

(** The DX that [ADXTracker.step] computes on the way to the new trend
    strength. *)
Definition step_dx (pv : ADXTracker.Prev) (P h l c : Q) : Q :=
  let tr := Py.max3 (h - l) (Qabs (h - ADXTracker.close pv))
                    (Qabs (l - ADXTracker.close pv)) in
  let dm := ADXTracker.select_dm (Py.max2 (h - ADXTracker.high pv) 0)
                                 (Py.max2 (ADXTracker.low pv - l) 0) in
  let tr_s' := ADXTracker.tr_s pv - ADXTracker.tr_s pv / P + tr in
  let pdm_s' := ADXTracker.pdm_s pv - ADXTracker.pdm_s pv / P + fst dm in
  let mdm_s' := ADXTracker.mdm_s pv - ADXTracker.mdm_s pv / P + snd dm in
  let plus_di := if Py.truthy tr_s' then 100 * (pdm_s' / tr_s') else 0 in
  let minus_di := if Py.truthy tr_s' then 100 * (mdm_s' / tr_s') else 0 in
  if Py.truthy (plus_di + minus_di)
  then 100 * (Qabs (plus_di - minus_di) / (plus_di + minus_di))
  else 0.

(** The bucket starts of a frame, in microseconds, oldest first. *)
Definition bucket_starts (bars : list Bar.t) : list Z :=
  map (fun b => DT.to_us (Bar.datetime b)) bars.

(** What the loop keeps true of the rows of [bars]. *)
Definition rows_inv (bars : list Bar.t) : Prop :=
  Forall Bar.ohlc_ok bars
  /\ Forall (fun b => aligned (Bar.datetime b)
                      /\ in_session (Bar.datetime b) = true) bars
  /\ StronglySorted Z.lt (bucket_starts bars).

(** Whether a position is held, as a count. *)
Definition held (self : PaperBroker.t) : nat :=
  match PaperBroker.position self with
  | Some _ => 1
  | None => 0
  end.

(** How the attributes of the broker and its audit log hang together
    when the log started empty. *)
Definition broker_inv (self : PaperBroker.t) : Prop :=
  (PaperBroker.position self = None <-> PaperBroker.open_time self = None)
  /\ count_event "OPEN" (PaperBroker.log self)
     = (count_event "CLOSE" (PaperBroker.log self) + held self)%nat
  /\ count_event "CLOSE" (PaperBroker.log self)
     = length (PaperBroker.closed_trades self)
  /\ Dashboard.present (map Dashboard.pnl_cell (PaperBroker.log self))
     = map Trade.pnl (PaperBroker.closed_trades self)
  /\ (Dashboard.has_column Dashboard.side_cell (PaperBroker.log self) = true
      <-> PaperBroker.closed_trades self <> [])
  /\ (forall pos, PaperBroker.position self = Some pos ->
      exists r,
        iloc_last (filter (fun r => String.eqb (LogRecord.event r) "OPEN")
                          (PaperBroker.log self)) = Some r
        /\ Dashboard.entry_price_cell r = Some (Position.entry pos)
        /\ Dashboard.qty_cell r = Some (Position.qty pos)
        /\ Dashboard.contract_cell r = Some (Position.contract pos)
        /\ Dashboard.side_cell r = None).

(** ** [option_chain.py]: strike selection *)

(** [round(q)]: the nearest integer, a tie going to the even one. *)
Definition py_round (q : Q) : Z :=
  let f := Qfloor q in
  let r := q - inject_Z f in
  if Py.lt r (1 # 2) then f
  else if Py.lt (1 # 2) r then (f + 1)%Z
  else if Z.even f then f else (f + 1)%Z.

(** [_round_to_step(x, step)]: [int(round(x / step) * step)]. *)
Definition _round_to_step (x : Q) (step : Z) : option Z :=
  q <- Py.div x (inject_Z step) ;;
  ret (py_round q * step)%Z.

(** [round(x, 2)], on the exact value of [x]. *)
Definition round2 (x : Q) : Q := inject_Z (py_round (x * 100)) / 100.

(** The option-chain document and the lookup table built from it.  Strike
    prices are integers, as in the exchange's feed.  A leg is the
    dictionary under ["CE"] or ["PE"]; a missing or empty one is [None]. *)
Module Chain.

Record RawLeg : Type := mkLeg {
  lastPrice : option Q;
  openInterest : option Q;
  changeinOpenInterest : option Q;
  bidprice : option Q;
  askPrice : option Q
}.

Record Row : Type := mkRow {
  strikePrice : option Z;
  CE : option RawLeg;
  PE : option RawLeg
}.

(** [oc_json["records"]]: [expiryDates] is [None] when the key is
    missing. *)
Record Json : Type := mkJson {
  expiryDates : option (list string);
  data : list Row
}.

(** The value [chain[k]]: a dictionary with at most the keys ["CE"] and
    ["PE"]. *)
Record Entry : Type := mkEntry {
  ce : option RawLeg;
  pe : option RawLeg
}.

(** The dictionary [chain], in insertion order. *)
Definition t : Type := list (Z * Entry).

(** [chain.get(k)] *)
Fixpoint find (chain : t) (k : Z) : option Entry :=
  match chain with
  | [] => None
  | (k', e) :: rest => if (k' =? k)%Z then Some e else find rest k
  end.

(** [chain[k] = e]: the key keeps its place when it is already there. *)
Fixpoint set (chain : t) (k : Z) (e : Entry) : t :=
  match chain with
  | [] => [(k, e)]
  | (k', e') :: rest =>
      if (k' =? k)%Z then (k, e) :: rest else (k', e') :: set rest k e
  end.

(** [entry.get(side, {})], falsy results as [None]. *)
Definition get_side (e : Entry) (side : string) : option RawLeg :=
  if String.eqb side "CE" then ce e
  else if String.eqb side "PE" then pe e
  else None.

(** The body of the loop of [_build_chain_lookup] (lines 39-49). *)
Definition add_row (chain : t) (row : Row) : t :=
  match strikePrice row with
  | None => chain
  | Some k =>
      let e0 := match find chain k with
                | Some e => e
                | None => {| ce := None; pe := None |}
                end in
      let e1 := match CE row with
                | Some leg => {| ce := Some leg; pe := pe e0 |}
                | None => e0
                end in
      let e2 := match PE row with
                | Some leg => {| ce := ce e1; pe := Some leg |}
                | None => e1
                end in
      set chain k e2
  end.

End Chain.

(** [sorted(keys)], as an insertion sort. *)
Fixpoint insert_sorted (k : Z) (l : list Z) : list Z :=
  match l with
  | [] => [k]
  | x :: rest => if (k <=? x)%Z then k :: l else x :: insert_sorted k rest
  end.

Definition sorted (l : list Z) : list Z := fold_right insert_sorted [] l.

(** [k in strikes] *)
Definition mem (k : Z) (l : list Z) : bool := existsb (Z.eqb k) l.

(** [min(l, key=key)]: the first element with the least key; [None]
    stands for the [ValueError] on an empty sequence. *)
Definition min_by_key (key : Z -> Q) (l : list Z) : option Z :=
  match l with
  | [] => None
  | x :: rest =>
      Some (fold_left (fun best k => if Py.lt (key k) (key best) then k else best)
                      rest x)
  end.

(** [_build_chain_lookup(oc_json)]: the table, the nearest expiry and the
    sorted strikes.  [None] stands for the [IndexError] of
    [expiryDates[0]] on an empty list. *)
Definition _build_chain_lookup (oc_json : Chain.Json)
  : option (Chain.t * string * list Z) :=
  expiry <- match Chain.expiryDates oc_json with
            | None => ret EmptyString
            | Some [] => None
            | Some (d :: _) => ret d
            end ;;
  let chain := fold_left Chain.add_row (Chain.data oc_json) [] in
  let strikes := sorted (map fst chain) in
  ret (chain, expiry, strikes).

(** [_pick(chain, side, strike, expiry)] *)
Definition _pick (chain : Chain.t) (side : string) (strike : Z) (expiry : string)
  : option Contract.t :=
  match Chain.find chain strike with
  | None => None
  | Some e =>
      match Chain.get_side e side with
      | None => None
      | Some leg =>
          Some {| Contract.expiry := expiry;
                  Contract.strike := inject_Z strike;
                  Contract.side := side;
                  Contract.ltp := Chain.lastPrice leg;
                  Contract.oi := Chain.openInterest leg;
                  Contract.change_in_oi := Chain.changeinOpenInterest leg;
                  Contract.bid := Chain.bidprice leg;
                  Contract.ask := Chain.askPrice leg;
                  Contract.symbol := Some "NIFTY"%string |}
      end
  end.

(** The dictionaries under ["calls"] and ["puts"]. *)
Record Legs : Type := mkLegs {
  ATM : option Contract.t;
  ITM1 : option Contract.t;
  ITM2 : option Contract.t;
  OTM1 : option Contract.t;
  OTM2 : option Contract.t
}.

(** The dictionary returned by [get_strikes_payload]. *)
Inductive Payload : Type :=
| PayloadError (reason : string)
| PayloadOK (spot : Q) (expiry : string) (atm : Z) (calls puts : Legs).

(** [while len(l) < 5: l.append(None)] *)
Definition pad5 (l : list (option Contract.t)) : list (option Contract.t) :=
  l ++ repeat None (5 - length l).

Definition legs_of (l : list (option Contract.t)) : Legs :=
  {| ATM := nth 0 l None; ITM1 := nth 1 l None; ITM2 := nth 2 l None;
     OTM1 := nth 3 l None; OTM2 := nth 4 l None |}.

(** The strikes looked up for calls and for puts, in label order (ATM,
    ITM1, ITM2, OTM1, OTM2). *)
Definition ce_targets (atm : Z) : list Z :=
  [atm; atm - STRIKE_STEP; atm - 2 * STRIKE_STEP;
   atm + STRIKE_STEP; atm + 2 * STRIKE_STEP]%Z.

Definition pe_targets (atm : Z) : list Z :=
  [atm; atm + STRIKE_STEP; atm + 2 * STRIKE_STEP;
   atm - STRIKE_STEP; atm - 2 * STRIKE_STEP]%Z.

(** [get_strikes_payload()], as a function of what its two fetches
    returned: the spot of [_get_nifty_spot] and the document of
    [_fetch_chain].  [None] stands for an exception. *)
Definition get_strikes_payload (spot : Q) (oc : Chain.Json) : option Payload :=
  if negb (Py.truthy spot) then ret (PayloadError "No NIFTY spot available")
  else
    built <- _build_chain_lookup oc ;;
    let chain := fst (fst built) in
    let expiry := snd (fst built) in
    let strikes := snd built in
    atm0 <- _round_to_step spot STRIKE_STEP ;;
    atm <- (if negb (mem atm0 strikes)
            then min_by_key (fun k => Qabs (inject_Z k - spot)) strikes
            else ret atm0) ;;
    let ce_list :=
      map (fun k => _pick chain "CE" k expiry)
          (filter (fun k => mem k strikes) (ce_targets atm)) in
    let pe_list :=
      map (fun k => _pick chain "PE" k expiry)
          (filter (fun k => mem k strikes) (pe_targets atm)) in
    ret (PayloadOK (round2 spot) expiry atm
                   (legs_of (pad5 ce_list)) (legs_of (pad5 pe_list))).

(** The strikes a table holds, in insertion order. *)
Definition chain_keys (chain : Chain.t) : list Z := map fst chain.

(** The leg the lookup table ends up with for strike [k] on one side: the
    one of the last row with that strike that has this leg. *)
Definition last_leg (side_of : Chain.Row -> option Chain.RawLeg) (k : Z)
           (rows : list Chain.Row) (start : option Chain.RawLeg)
  : option Chain.RawLeg :=
  fold_left (fun acc row =>
               match Chain.strikePrice row with
               | Some k' =>
                   if (k' =? k)%Z
                   then match side_of row with
                        | Some leg => Some leg
                        | None => acc
                        end
                   else acc
               | None => acc
               end) rows start.

(** Whether some row carries strike [k]. *)
Definition has_strike (k : Z) (rows : list Chain.Row) : bool :=
  existsb (fun row => match Chain.strikePrice row with
                      | Some k' => (k' =? k)%Z
                      | None => false
                      end) rows.

(** The dictionary [_pick] builds from a leg. *)
Definition contract_of (leg : Chain.RawLeg) (side : string) (strike : Z)
           (expiry : string) : Contract.t :=
  {| Contract.expiry := expiry;
     Contract.strike := inject_Z strike;
     Contract.side := side;
     Contract.ltp := Chain.lastPrice leg;
     Contract.oi := Chain.openInterest leg;
     Contract.change_in_oi := Chain.changeinOpenInterest leg;
     Contract.bid := Chain.bidprice leg;
     Contract.ask := Chain.askPrice leg;
     Contract.symbol := Some "NIFTY"%string |}.

(** Lines 84-86 of [get_strikes_payload]: the at-the-money strike. *)
Definition choose_atm (spot : Q) (strikes : list Z) : option Z :=
  atm0 <- _round_to_step spot STRIKE_STEP ;;
  if negb (mem atm0 strikes)
  then min_by_key (fun k => Qabs (inject_Z k - spot)) strikes
  else ret atm0.

(** Lines 91-95: the five labelled legs of one side. *)
Definition labelled_legs (chain : Chain.t) (side : string) (targets : list Z)
           (strikes : list Z) (expiry : string) : Legs :=
  legs_of (pad5 (map (fun k => _pick chain side k expiry)
                     (filter (fun k => mem k strikes) targets))).

(** The labelled legs as a list, in label order. *)
Definition legs_list (l : Legs) : list (option Contract.t) :=
  [ATM l; ITM1 l; ITM2 l; OTM1 l; OTM2 l].

(** A small option-chain document for the worked examples: five strikes
    around 25000, each with a call and a put leg. *)
Definition sample_leg (price : Q) : Chain.RawLeg :=
  {| Chain.lastPrice := Some price; Chain.openInterest := Some 1200;
     Chain.changeinOpenInterest := Some 0;
     Chain.bidprice := Some (price - 1); Chain.askPrice := Some (price + 1) |}.

Definition sample_row (k : Z) (call put : Q) : Chain.Row :=
  {| Chain.strikePrice := Some k;
     Chain.CE := Some (sample_leg call); Chain.PE := Some (sample_leg put) |}.

Definition sample_oc : Chain.Json :=
  {| Chain.expiryDates := Some ["27-Nov-2025"; "04-Dec-2025"]%string;
     Chain.data := [sample_row 25100 50 150; sample_row 24900 160 40;
                    sample_row 25000 100 90; sample_row 25050 70 120;
                    sample_row 24950 130 60] |}.

(** The same document without the strike 24950. *)
Definition sparse_oc : Chain.Json :=
  {| Chain.expiryDates := Some ["27-Nov-2025"; "04-Dec-2025"]%string;
     Chain.data := [sample_row 25100 50 150; sample_row 24900 160 40;
                    sample_row 25000 100 90; sample_row 25050 70 120] |}.

(** ** The entry and exit policy of [run] (lines 178-207) *)

(** [a or b] on two legs: a leg built by [_pick] is a non-empty
    dictionary, hence true. *)
Definition leg_or (a b : option Contract.t) : option Contract.t :=
  match a with
  | Some leg => Some leg
  | None => b
  end.

(** [leg.get(key, 0) > 0], where the key is present: a [None] value makes
    the comparison raise [TypeError]. *)
Definition quote_positive (quote : option Q) : option bool :=
  match quote with
  | Some v => Some (Py.gt v 0)
  | None => None
  end.

(** Lines 179-190.  [fetch] is what [get_strikes_payload()] returns
    there ([None] when it raises), [stamp] is [nowi.isoformat()]. *)
Definition entry_block (sig : option Signal.t) (adx_val : Q)
           (broker : PaperBroker.t) (fetch : option Payload)
           (stamp now_log : string) : option PaperBroker.t :=
  match sig, PaperBroker.position broker with
  | Some sg, None =>
      if Py.gt adx_val ADX_THRESHOLD then
        strikes <- fetch ;;
        match strikes with
        | PayloadOK _ _ _ calls puts =>
            let oc_leg := if String.eqb (Signal.dir sg) "LONG"
                          then leg_or (ATM calls) (OTM1 calls)
                          else leg_or (ATM puts) (OTM1 puts) in
            match oc_leg with
            | Some leg =>
                positive <- quote_positive (Contract.ask leg) ;;
                if positive then
                  match Contract.ask leg with
                  | Some price =>
                      ret (fst (PaperBroker.enter broker (Signal.dir sg) price leg
                                                  (Some stamp) stamp now_log))
                  | None => None
                  end
                else ret broker
            | None => ret broker
            end
        | PayloadError _ => ret broker
        end
      else ret broker
  | _, _ => ret broker
  end.

(** Lines 193-207.  An ERROR payload has no ["calls"] or ["puts"] key, so
    subscripting it raises [KeyError]. *)
Definition exit_block (sig : option Signal.t) (broker : PaperBroker.t)
           (fetch : option Payload) (stamp now_log : string)
  : option PaperBroker.t :=
  match PaperBroker.position broker with
  | None => ret broker
  | Some pos =>
      strikes <- fetch ;;
      match strikes with
      | PayloadError _ => None
      | PayloadOK _ _ _ calls puts =>
          let long := String.eqb (Position.side pos) "LONG" in
          let oc_leg := if long then leg_or (ATM calls) (OTM1 calls)
                        else leg_or (ATM puts) (OTM1 puts) in
          price <- match oc_leg with
                   | Some leg =>
                       positive <- quote_positive (Contract.bid leg) ;;
                       ret (if positive then Contract.bid leg else None)
                   | None => ret None
                   end ;;
          let opposite := if long then "SHORT"%string else "LONG"%string in
          match sig, price with
          | Some sg, Some p =>
              if String.eqb (Signal.dir sg) opposite
              then ret (fst (PaperBroker.exit
                               broker p (Some stamp)
                               (Some (if long then "Opposite signal (SHORT)"
                                      else "Opposite signal (LONG)")%string)
                               stamp now_log))
              else ret broker
          | _, _ => ret broker
          end
      end
  end.

(** Lines 178-207: the entry block, then the exit block on the broker it
    leaves, each with its own fetch and log clock. *)
Definition trade_on (sig : option Signal.t) (adx_val : Q) (broker : PaperBroker.t)
           (fetch_entry fetch_exit : option Payload)
           (stamp now_entry now_exit : string) : option PaperBroker.t :=
  b <- entry_block sig adx_val broker fetch_entry stamp now_entry ;;
  exit_block sig b fetch_exit stamp now_exit.

(** Signals and a broker holding a LONG position, for the worked examples
    of the policy. *)
Definition long_signal : Signal.t :=
  {| Signal.dir := "LONG"; Signal.trigger := 25010;
     Signal.box_high := 25005; Signal.box_low := 24960 |}.

Definition short_signal : Signal.t :=
  {| Signal.dir := "SHORT"; Signal.trigger := 24950;
     Signal.box_high := 25005; Signal.box_low := 24960 |}.

Definition held_broker : PaperBroker.t :=
  fst (PaperBroker.enter run_broker "LONG" 101 nifty_call
                         (Some "2025-11-20T10:00:03"%string)
                         "2025-11-20T10:00:03" "2025-11-20T10:00:03").

(** ** Binary64 arithmetic *)

(** A Python [float] is an IEEE 754 binary64 number, and each arithmetic
    operation returns the exact result rounded to the nearest such number,
    a tie going to the one with the even mantissa.  [round x] is that
    number for the exact value [x]: the nearest [m * 2^e] with [m] an
    integer, [e = floor(log2 |x|) - 52] (so that [2^52 <= |m| <= 2^53]) and
    [e] never below [-1074] (gradual underflow).  Results beyond the
    largest double, which the hardware turns into infinities, are not
    represented. *)
Module Binary64.

(** [2^e] *)
Definition pow2 (e : Z) : Q := 2 ^ e.

(** For [x > 0]: the [k] with [2^k <= x < 2^(k+1)]. *)
Definition floor_log2 (x : Q) : Z :=
  let k := (Z.log2 (Qnum x) - Z.log2 (Zpos (Qden x)))%Z in
  if Qle_bool (pow2 k) x then k else (k - 1)%Z.

(** The exponent of the last mantissa bit of the doubles around [x]. *)
Definition exponent (x : Q) : Z :=
  Z.max (floor_log2 (Qabs x) - 52) (-1074).

(** The double nearest to [x], a tie going to the even mantissa. *)
Definition round (x : Q) : Q :=
  let x := Qred x in
  let q := pow2 (exponent x) in
  inject_Z (py_round (x / q)) * q.

(** [x + y], [x - y] and [x * y] on floats. *)
Definition add (x y : Q) : Q := round (x + y).
Definition sub (x y : Q) : Q := round (x - y).
Definition mul (x y : Q) : Q := round (x * y).

(** The unit roundoff [2^-53] and half the smallest positive double,
    [2^-1075]: rounding moves [x] by at most [u * |x| + eta]. *)
Definition u : Q := 1 # 9007199254740992.
Definition eta : Q := pow2 (-1075).

End Binary64.

(** Linear arithmetic over rounding bounds: [u] is a numeral and [eta] an
    unknown positive number. *)
Ltac b64_lra :=
  let e := fresh "eta" in
  unfold Binary64.u in *;
  set (e := Binary64.eta) in *; clearbody e; lra.

(** ** The paper broker in binary64 arithmetic *)

(** [PaperBroker.enter] and [PaperBroker.exit] once more, with every
    arithmetic operation of the source rounded to binary64: the same
    statements in the same order, on the same records.  The quantities
    are [int]s and convert exactly. *)
Module PaperBroker64.

(** [enter(self, side, price, contract, timestamp=None)] *)
Definition enter (self : PaperBroker.t) (side : string) (price : Q)
           (contract : Contract.t) (timestamp : option string)
           (now_stamp now_log : string) : PaperBroker.t * bool :=
  match PaperBroker.position self with
  | Some _ =>
      (PaperBroker.log_event self "REJECTED"
                             (LogRecord.Text "Already in position")
                             LogRecord.NoExtra now_log, false)
  | None =>
      let lot_size := get_lot_size (Contract.get_symbol contract) in
      let qty := lot_size in
      let cost := Binary64.mul price (inject_Z qty) in
      if Py.lt (PaperBroker.capital self) cost then
        (PaperBroker.log_event
           self "REJECTED"
           (LogRecord.Insufficient (PaperBroker.capital self) cost)
           LogRecord.NoExtra now_log, false)
      else
        let fill_price :=
          Binary64.add price
                       (if String.eqb side "LONG"
                        then Binary64.mul (PaperBroker.slippage_pct self) price
                        else Binary64.mul (- PaperBroker.slippage_pct self) price) in
        let opened := str_or timestamp now_stamp in
        let self1 :=
          {| PaperBroker.initial_capital := PaperBroker.initial_capital self;
             PaperBroker.capital := Binary64.sub (PaperBroker.capital self) cost;
             PaperBroker.position :=
               Some {| Position.side := side;
                       Position.entry := fill_price;
                       Position.qty := qty;
                       Position.contract := contract |};
             PaperBroker.open_time := Some opened;
             PaperBroker.closed_trades := PaperBroker.closed_trades self;
             PaperBroker.log_file := PaperBroker.log_file self;
             PaperBroker.slippage_pct := PaperBroker.slippage_pct self;
             PaperBroker.log := PaperBroker.log self |} in
        (PaperBroker.log_event
           self1 "OPEN" (LogRecord.Text ("Entered " ++ side))
           (LogRecord.OpenExtra fill_price contract qty
                                (PaperBroker.capital self1) opened)
           now_log, true)
  end.

(** [exit(self, price, timestamp=None, reason=None)] *)
Definition exit (self : PaperBroker.t) (price : Q)
           (timestamp reason : option string)
           (now_stamp now_log : string) : PaperBroker.t * option Q :=
  match PaperBroker.position self with
  | None =>
      (PaperBroker.log_event self "REJECTED"
                             (LogRecord.Text "No open position to exit")
                             LogRecord.NoExtra now_log, None)
  | Some pos =>
      let side := Position.side pos in
      let lot := Position.qty pos in
      let entry := Position.entry pos in
      let contract := Position.contract pos in
      let fill_price :=
        Binary64.sub price
                     (if String.eqb side "LONG"
                      then Binary64.mul (PaperBroker.slippage_pct self) price
                      else Binary64.mul (- PaperBroker.slippage_pct self) price) in
      let pnl := if String.eqb side "LONG"
                 then Binary64.mul (Binary64.sub fill_price entry) (inject_Z lot)
                 else Binary64.mul (Binary64.sub entry fill_price) (inject_Z lot) in
      let capital' :=
        Binary64.add (PaperBroker.capital self)
                     (Binary64.mul fill_price (inject_Z lot)) in
      let trade :=
        {| Trade.side := side;
           Trade.entry_price := entry;
           Trade.exit_price := fill_price;
           Trade.qty := lot;
           Trade.contract := contract;
           Trade.entry_time := PaperBroker.open_time self;
           Trade.exit_time := str_or timestamp now_stamp;
           Trade.pnl := pnl;
           Trade.capital_post := capital';
           Trade.reason := reason |} in
      let self1 :=
        {| PaperBroker.initial_capital := PaperBroker.initial_capital self;
           PaperBroker.capital := capital';
           PaperBroker.position := None;
           PaperBroker.open_time := None;
           PaperBroker.closed_trades := PaperBroker.closed_trades self ++ [trade];
           PaperBroker.log_file := PaperBroker.log_file self;
           PaperBroker.slippage_pct := PaperBroker.slippage_pct self;
           PaperBroker.log := PaperBroker.log self |} in
      (PaperBroker.log_event self1 "CLOSE" (LogRecord.Text "Closed position")
                             (LogRecord.CloseExtra trade) now_log, Some pnl)
  end.

End PaperBroker64.

(** The broker [run] constructs: [0.001] is the double nearest to it. *)
Definition run_broker64 : PaperBroker.t :=
  PaperBroker.init 100000 "trade_log.jsonl" (Binary64.round 0.001) [].

(** Rounding allowances of a round trip opened at quote [q] and closed at
    quote [p] with capital [cap]: for the realized pnl and for the capital
    change. *)
Definition pnl_slack (q p : Q) : Q :=
  400 * Binary64.u * (q + p) + 400 * Binary64.eta.
Definition capital_slack (cap q p : Q) : Q :=
  8 * Binary64.u * (cap + 50 * (q + p)) + 200 * Binary64.eta.

(** Eight samples over four buckets of one session, and the loop state
    they leave: four rows, the last one (the 10:00 bucket) still open. *)
Definition four_bucket_samples : list (DT.t * Q) :=
  [(clock 9 15 3, 100); (clock 9 20 0, 120); (clock 9 29 57, 101);
   (clock 9 30 1, 105);
   (clock 9 45 2, 108);
   (clock 10 0 0, 111); (clock 10 5 0, 130); (clock 10 14 57, 112)].

Definition four_bar_state : LoopState :=
  match ticks run_init four_bucket_samples with
  | Some (st, _, _) => st
  | None => run_init
  end.

(** * Properties *)

(** ** Facts about the Python built-ins *)

Section PyFacts.

Lemma lt_true_iff (a b : Q) : Py.lt a b = true <-> a < b.
Proof.
  unfold Py.lt. rewrite negb_true_iff.
  split; intro H.
  - apply Qnot_le_lt. intro Hle. apply Qle_bool_iff in Hle. congruence.
  - destruct (Qle_bool b a) eqn:E; [|reflexivity].
    apply Qle_bool_iff in E. exfalso. apply (Qlt_not_le _ _ H E).
Qed.

Lemma lt_false_iff (a b : Q) : Py.lt a b = false <-> b <= a.
Proof.
  unfold Py.lt. rewrite negb_false_iff. apply Qle_bool_iff.
Qed.

Lemma truthy_true_iff (x : Q) : Py.truthy x = true <-> ~ x == 0.
Proof.
  unfold Py.truthy. rewrite negb_true_iff.
  split; intro H.
  - intro E. apply Qeq_bool_iff in E. congruence.
  - destruct (Qeq_bool x 0) eqn:E; [|reflexivity].
    apply Qeq_bool_iff in E. contradiction.
Qed.

Lemma truthy_false_iff (x : Q) : Py.truthy x = false <-> x == 0.
Proof.
  unfold Py.truthy. rewrite negb_false_iff. apply Qeq_bool_iff.
Qed.

Lemma div_nonzero (a b : Q) : ~ b == 0 -> Py.div a b = Some (a / b).
Proof.
  intro H. unfold Py.div.
  destruct (Qeq_bool b 0) eqn:E; [|reflexivity].
  apply Qeq_bool_iff in E. contradiction.
Qed.

Lemma div_zero (a b : Q) : b == 0 -> Py.div a b = None.
Proof.
  intro H. unfold Py.div. apply Qeq_bool_iff in H. now rewrite H.
Qed.

(** A ratio behind its truthiness guard never raises. *)
Lemma guarded_ratio (a x : Q) :
  (if Py.truthy x then r <- Py.div a x ;; ret (100 * r) else ret 0)
  = Some (if Py.truthy x then 100 * (a / x) else 0).
Proof.
  unfold Py.truthy, Py.div, bind. destruct (Qeq_bool x 0); reflexivity.
Qed.

Lemma max2_cases (a b : Q) :
  (a < b /\ Py.max2 a b = b) \/ (b <= a /\ Py.max2 a b = a).
Proof.
  unfold Py.max2, Py.gt. destruct (Py.lt a b) eqn:E.
  - left. split; [now apply lt_true_iff | reflexivity].
  - right. split; [now apply lt_false_iff | reflexivity].
Qed.

Lemma min2_cases (a b : Q) :
  (b < a /\ Py.min2 a b = b) \/ (a <= b /\ Py.min2 a b = a).
Proof.
  unfold Py.min2. destruct (Py.lt b a) eqn:E.
  - left. split; [now apply lt_true_iff | reflexivity].
  - right. split; [now apply lt_false_iff | reflexivity].
Qed.

Lemma max2_ge_l (a b : Q) : a <= Py.max2 a b.
Proof. destruct (max2_cases a b) as [[H ->]|[H ->]]; lra. Qed.

Lemma max2_ge_r (a b : Q) : b <= Py.max2 a b.
Proof. destruct (max2_cases a b) as [[H ->]|[H ->]]; lra. Qed.

Lemma min2_le_l (a b : Q) : Py.min2 a b <= a.
Proof. destruct (min2_cases a b) as [[H ->]|[H ->]]; lra. Qed.

Lemma min2_le_r (a b : Q) : Py.min2 a b <= b.
Proof. destruct (min2_cases a b) as [[H ->]|[H ->]]; lra. Qed.

End PyFacts.

(** ** The trend indicator *)

Module ADXFacts.
Import ADXTracker.

(** With a non-zero period, [update] raises nothing (given [self.prev])
    and returns the values of [step]. *)
Lemma update_step (self : t) (pv : Prev) (h l c : Q) :
  prev (seeded self c) = Some pv ->
  ~ inject_Z (p self) == 0 ->
  update self h l c
  = Some ({| p := p self; ready := true;
             prev := Some (step pv (inject_Z (p self)) h l c) |},
          adx (step pv (inject_Z (p self)) h l c)).
Proof.
  intros Hpv Hp. unfold update. fold (seeded self c).
  assert (Hps : p (seeded self c) = p self)
    by (unfold seeded; destruct (ready self); reflexivity).
  assert (Hrs : ready (seeded self c) = true)
    by (unfold seeded; destruct (ready self) eqn:E; [exact E | reflexivity]).
  rewrite Hpv, Hps, Hrs. cbn [bind]. unfold step.
  destruct (select_dm (Py.max2 (h - high pv) 0) (Py.max2 (low pv - l) 0))
    as [plus_dm minus_dm].
  rewrite !(div_nonzero _ (inject_Z (p self))) by exact Hp.
  cbn [bind fst snd].
  repeat (rewrite guarded_ratio; cbn [bind]).
  destruct (Py.truthy (adx pv)).
  - rewrite (div_nonzero _ (inject_Z (p self))) by exact Hp. reflexivity.
  - reflexivity.
Qed.

Lemma period_nonzero (period : Z) : period <> 0%Z -> ~ inject_Z period == 0.
Proof.
  intros H E. apply H. unfold Qeq, inject_Z in E. simpl in E. lia.
Qed.

Lemma period_gt_1 (period : Z) : (1 < period)%Z -> 1 < inject_Z period.
Proof.
  intro H. unfold Qlt, inject_Z. simpl. lia.
Qed.

(** *** Arithmetic of one Wilder step *)

Lemma wilder_pos (P x r : Q) : 1 < P -> 0 < x -> 0 <= r -> 0 < x - x / P + r.
Proof.
  intros HP Hx Hr.
  assert (x / P < x) by (apply Qlt_shift_div_r; nra).
  lra.
Qed.

Lemma wilder_nonneg (P x r : Q) : 1 < P -> 0 <= x -> 0 <= r -> 0 <= x - x / P + r.
Proof.
  intros HP Hx Hr.
  assert (x / P <= x) by (apply Qle_shift_div_r; nra).
  lra.
Qed.

Lemma di_nonneg (a t : Q) : 0 <= a -> 0 < t -> 0 <= 100 * (a / t).
Proof.
  intros Ha Ht.
  assert (0 <= a / t) by (apply Qle_shift_div_l; lra).
  lra.
Qed.

Lemma dx_range (a b : Q) :
  0 <= a -> 0 <= b -> ~ a + b == 0 ->
  0 <= 100 * (Qabs (a - b) / (a + b)) /\ 100 * (Qabs (a - b) / (a + b)) <= 100.
Proof.
  intros Ha Hb Hs.
  assert (Hpos : 0 < a + b).
  { destruct (Qlt_le_dec 0 (a + b)) as [H|H]; [exact H|].
    exfalso. apply Hs. lra. }
  assert (Habs : Qabs (a - b) <= a + b)
    by (apply Qabs_Qle_condition; split; lra).
  pose proof (Qabs_nonneg (a - b)) as Hnn.
  assert (0 <= Qabs (a - b) / (a + b)) by (apply Qle_shift_div_l; lra).
  assert (Qabs (a - b) / (a + b) <= 1) by (apply Qle_shift_div_r; lra).
  split; lra.
Qed.

Lemma adx_range (P A d : Q) :
  1 < P -> 0 <= A -> A <= 100 -> 0 <= d -> d <= 100 ->
  0 <= (A * (P - 1) + d) / P /\ (A * (P - 1) + d) / P <= 100.
Proof.
  intros HP HA0 HA1 Hd0 Hd1. split.
  - apply Qle_shift_div_l; nra.
  - apply Qle_shift_div_r; nra.
Qed.

Lemma true_range_nonneg (h l c : Q) :
  0 <= Py.max3 (h - l) (Qabs (h - c)) (Qabs (l - c)).
Proof.
  unfold Py.max3.
  pose proof (max2_ge_r (Py.max2 (h - l) (Qabs (h - c))) (Qabs (l - c))).
  pose proof (Qabs_nonneg (l - c)). lra.
Qed.

Lemma select_dm_nonneg (a b : Q) :
  0 <= a -> 0 <= b -> 0 <= fst (select_dm a b) /\ 0 <= snd (select_dm a b).
Proof.
  intros Ha Hb. unfold select_dm.
  destruct (Py.lt a b); simpl; split; lra.
Qed.

(** One step keeps the bounds. *)
Lemma step_bounded (pv : Prev) (P h l c : Q) :
  1 < P -> bounded pv -> bounded (step pv P h l c).
Proof.
  intros HP (Htr & Hp & Hm & Ha0 & Ha1).
  pose proof (true_range_nonneg h l (close pv)) as Htrn.
  destruct (select_dm_nonneg (Py.max2 (h - high pv) 0) (Py.max2 (low pv - l) 0))
    as [Hd1 Hd2]; try apply max2_ge_r.
  pose proof (wilder_pos P _ _ HP Htr Htrn) as Htr'.
  pose proof (wilder_nonneg P _ _ HP Hp Hd1) as Hp'.
  pose proof (wilder_nonneg P _ _ HP Hm Hd2) as Hm'.
  unfold bounded, step. cbn [tr_s pdm_s mdm_s adx].
  set (tr' := tr_s pv - tr_s pv / P + _) in *.
  set (pdm' := pdm_s pv - pdm_s pv / P + _) in *.
  set (mdm' := mdm_s pv - mdm_s pv / P + _) in *.
  assert (Ht : Py.truthy tr' = true) by (apply truthy_true_iff; lra).
  rewrite Ht.
  pose proof (di_nonneg pdm' tr' Hp' Htr') as Hpdi.
  pose proof (di_nonneg mdm' tr' Hm' Htr') as Hmdi.
  set (pdi := 100 * (pdm' / tr')) in *.
  set (mdi := 100 * (mdm' / tr')) in *.
  assert (Hdx : 0 <= (if Py.truthy (pdi + mdi)
                      then 100 * (Qabs (pdi - mdi) / (pdi + mdi)) else 0)
                /\ (if Py.truthy (pdi + mdi)
                    then 100 * (Qabs (pdi - mdi) / (pdi + mdi)) else 0) <= 100).
  { destruct (Py.truthy (pdi + mdi)) eqn:E.
    - apply dx_range; try assumption. now apply truthy_true_iff.
    - split; lra. }
  destruct Hdx as [Hdx0 Hdx1].
  repeat split; try assumption.
  - destruct (Py.truthy (adx pv)); [|exact Hdx0].
    now apply adx_range.
  - destruct (Py.truthy (adx pv)); [|exact Hdx1].
    now apply adx_range.
Qed.

Lemma seed_bounded (c : Q) :
  bounded {| close := c; high := c; low := c;
             tr_s := eps; pdm_s := 0; mdm_s := 0; adx := 0 |}.
Proof.
  unfold bounded, eps. cbn. repeat split; lra.
Qed.

Lemma consistent_seeded (period : Z) (self : t) (c : Q) :
  consistent period self ->
  exists pv, prev (seeded self c) = Some pv /\ bounded pv.
Proof.
  intros [_ H]. unfold seeded. destruct (prev self) as [pv|] eqn:E.
  - destruct H as [-> Hb]. exists pv. now split.
  - rewrite H. cbn. eexists. split; [reflexivity | apply seed_bounded].
Qed.

Lemma reachable_consistent (period : Z) (self : t) :
  (1 < period)%Z -> reachable period self -> consistent period self.
Proof.
  intros Hp Hr. induction Hr as [|self c Hr IH|self h l c self' v Hr IH Hu].
  - split; reflexivity.
  - destruct IH as [IHp _]. split; [exact IHp|].
    cbn. split; [reflexivity | apply seed_bounded].
  - destruct (consistent_seeded period self c IH) as (pv & Hpv & Hb).
    destruct IH as [IHp _].
    rewrite (update_step self pv h l c Hpv) in Hu
      by (rewrite IHp; apply period_nonzero; lia).
    injection Hu as <- _. split; [exact IHp|]. cbn.
    split; [reflexivity|].
    apply step_bounded; [rewrite IHp; now apply period_gt_1 | exact Hb].
Qed.

End ADXFacts.

(** *** The first call *)

(** C1, as stated, fails: on a fresh tracker [update(110, 100, 105)]
    returns 100, not 0, and leaves [prev_high = 110], [prev_low = 100] and
    a smoothed true range of about 10 instead of the seed values. *)
Lemma C1_first_update_not_zero :
  exists self' v pv,
    ADXTracker.update (ADXTracker.init 14) 110 100 105 = Some (self', v)
    /\ ADXTracker.prev self' = Some pv
    /\ v == 100 /\ ~ v == 0
    /\ ~ ADXTracker.high pv == 105
    /\ ~ ADXTracker.low pv == 105
    /\ ~ ADXTracker.tr_s pv == ADXTracker.eps.
Proof.
  do 3 eexists. split; [vm_compute; reflexivity|].
  split; [reflexivity|].
  repeat split; try (intro H; vm_compute in H; discriminate).
Qed.

(** *** The directional-movement tie-break *)

(** C8, as stated, fails: with [prev_high = prev_low = 100], the bar
    [high = 105], [low = 95] gives the tie [raw_plus_dm = raw_minus_dm = 5];
    the step keeps [raw_plus_dm = 5] and zeroes [raw_minus_dm], as the
    smoothed values after the call show. *)
Lemma C8_tie_keeps_plus_dm :
  let raw_plus_dm := Py.max2 (105 - 100) 0 in
  let raw_minus_dm := Py.max2 (100 - 95) 0 in
  raw_plus_dm == raw_minus_dm
  /\ ~ fst (ADXTracker.select_dm raw_plus_dm raw_minus_dm) == 0
  /\ snd (ADXTracker.select_dm raw_plus_dm raw_minus_dm) == 0
  /\ exists self' v pv',
       ADXTracker.update (ADXTracker.seed (ADXTracker.init 14) 100) 105 95 100
         = Some (self', v)
       /\ ADXTracker.prev self' = Some pv'
       /\ ADXTracker.pdm_s pv' == 5
       /\ ADXTracker.mdm_s pv' == 0.
Proof.
  cbv zeta. split; [reflexivity|].
  split; [intro H; vm_compute in H; discriminate|].
  split; [reflexivity|].
  do 3 eexists. split; [vm_compute; reflexivity|].
  split; [reflexivity|]. split; reflexivity.
Qed.

(** C8, amended: in the directional-movement step of [update] only one of
    [raw_plus_dm = max(high - prev_high, 0)] and
    [raw_minus_dm = max(prev_low - low, 0)] survives.  When
    [raw_plus_dm < raw_minus_dm], plus is zeroed and minus is kept;
    otherwise, and so also on a tie, minus is zeroed and plus is kept (a
    tie favours the plus direction).  The smoothed values are updated with
    the surviving raw moves. *)
Theorem C8_larger_move_survives_tie_keeps_plus
        (self : ADXTracker.t) (pv : ADXTracker.Prev) (h l c : Q) :
  ADXTracker.ready self = true ->
  ADXTracker.prev self = Some pv ->
  ADXTracker.p self <> 0%Z ->
  let P := inject_Z (ADXTracker.p self) in
  let raw_plus_dm := Py.max2 (h - ADXTracker.high pv) 0 in
  let raw_minus_dm := Py.max2 (ADXTracker.low pv - l) 0 in
  exists self' v pv' plus_dm minus_dm,
    ADXTracker.update self h l c = Some (self', v)
    /\ ADXTracker.prev self' = Some pv'
    /\ ADXTracker.select_dm raw_plus_dm raw_minus_dm = (plus_dm, minus_dm)
    /\ ADXTracker.pdm_s pv'
       = ADXTracker.pdm_s pv - ADXTracker.pdm_s pv / P + plus_dm
    /\ ADXTracker.mdm_s pv'
       = ADXTracker.mdm_s pv - ADXTracker.mdm_s pv / P + minus_dm
    /\ (raw_plus_dm < raw_minus_dm -> plus_dm = 0 /\ minus_dm = raw_minus_dm)
    /\ (raw_minus_dm < raw_plus_dm -> plus_dm = raw_plus_dm /\ minus_dm = 0)
    /\ (raw_plus_dm == raw_minus_dm -> plus_dm = raw_plus_dm /\ minus_dm = 0).
Proof.
  intros Hr Hpv Hp P raw_plus_dm raw_minus_dm.
  assert (Hs : ADXTracker.prev (ADXTracker.seeded self c) = Some pv)
    by (unfold ADXTracker.seeded; now rewrite Hr).
  pose proof (ADXFacts.update_step self pv h l c Hs
                (ADXFacts.period_nonzero _ Hp)) as Hu.
  do 2 eexists.
  exists (ADXTracker.step pv P h l c).
  exists (fst (ADXTracker.select_dm raw_plus_dm raw_minus_dm)).
  exists (snd (ADXTracker.select_dm raw_plus_dm raw_minus_dm)).
  split; [exact Hu|]. split; [reflexivity|].
  split; [now destruct (ADXTracker.select_dm _ _)|].
  split; [reflexivity|]. split; [reflexivity|].
  unfold ADXTracker.select_dm.
  destruct (Py.lt raw_plus_dm raw_minus_dm) eqn:E; cbn [fst snd].
  - apply lt_true_iff in E. repeat split; intros; try reflexivity; lra.
  - apply lt_false_iff in E. repeat split; intros; try reflexivity; lra.
Qed.

(** The amended C8 at the tie of the counterexample. *)
Lemma C8_larger_move_survives_tie_keeps_plus_witness :
  exists self' v pv' plus_dm minus_dm,
    ADXTracker.update (ADXTracker.seed (ADXTracker.init 14) 100) 105 95 100
      = Some (self', v)
    /\ ADXTracker.prev self' = Some pv'
    /\ ADXTracker.select_dm (Py.max2 (105 - 100) 0) (Py.max2 (100 - 95) 0)
       = (plus_dm, minus_dm)
    /\ plus_dm = Py.max2 (105 - 100) 0 /\ minus_dm = 0.
Proof.
  destruct (C8_larger_move_survives_tie_keeps_plus
              (ADXTracker.seed (ADXTracker.init 14) 100)
              {| ADXTracker.close := 100; ADXTracker.high := 100;
                 ADXTracker.low := 100; ADXTracker.tr_s := ADXTracker.eps;
                 ADXTracker.pdm_s := 0; ADXTracker.mdm_s := 0;
                 ADXTracker.adx := 0 |}
              105 95 100 eq_refl eq_refl ltac:(discriminate))
    as (self' & v & pv' & plus_dm & minus_dm & H1 & H2 & H3 & _ & _ & _ & _ & H8).
  exists self', v, pv', plus_dm, minus_dm.
  split; [exact H1|]. split; [exact H2|]. split; [exact H3|].
  apply H8. reflexivity.
Defined.

(** *** No division by zero, and the range of the trend strength *)

Lemma update_reachable (period : Z) (self : ADXTracker.t) (h l c : Q) :
  (1 < period)%Z ->
  ADXTracker.reachable period self ->
  exists self' pv',
    ADXTracker.update self h l c = Some (self', ADXTracker.adx pv')
    /\ ADXTracker.prev self' = Some pv'
    /\ ADXTracker.bounded pv'
    /\ ADXTracker.reachable period self'.
Proof.
  intros Hp Hr.
  pose proof (ADXFacts.reachable_consistent period self Hp Hr) as Hc.
  destruct (ADXFacts.consistent_seeded period self c Hc) as (pv & Hpv & Hb).
  destruct Hc as [Hper _].
  assert (Hu := ADXFacts.update_step self pv h l c Hpv).
  rewrite Hper in Hu.
  specialize (Hu (ADXFacts.period_nonzero period ltac:(lia))).
  do 2 eexists. split; [exact Hu|]. split; [reflexivity|]. split.
  - apply ADXFacts.step_bounded; [now apply ADXFacts.period_gt_1 | exact Hb].
  - eapply ADXTracker.reach_update; [exact Hr | exact Hu].
Qed.

(** C6: from any reachable tracker (fresh, seeded, or left by earlier
    updates) with a period above 1, every sequence of [update] calls runs
    without raising -- so no division by zero happens, the guarded ratios
    included --, returns one value per call, each within [0, 100], and
    after every call the smoothed true range is strictly positive. *)
Theorem C6_no_zero_division_and_range
        (period : Z) (bars : list (Q * Q * Q)) (self : ADXTracker.t) :
  (1 < period)%Z ->
  ADXTracker.reachable period self ->
  exists self' vs,
    ADXTracker.updates self bars = Some (self', vs)
    /\ length vs = length bars
    /\ Forall (fun v => 0 <= v /\ v <= 100) vs
    /\ ADXTracker.reachable period self'
    /\ (bars <> [] ->
        exists pv', ADXTracker.prev self' = Some pv' /\ 0 < ADXTracker.tr_s pv').
Proof.
  intros Hp. revert self.
  induction bars as [|[[h l] c] rest IH]; intros self Hr.
  - exists self, []. cbn. repeat split; try assumption; try constructor.
    intro H. now contradiction H.
  - destruct (update_reachable period self h l c Hp Hr)
      as (self1 & pv1 & Hu & Hpv1 & Hb1 & Hr1).
    destruct (IH self1 Hr1) as (self2 & vs & Hus & Hlen & Hall & Hr2 & Hpos).
    exists self2, (ADXTracker.adx pv1 :: vs).
    cbn [ADXTracker.updates]. rewrite Hu. cbn [bind fst snd]. rewrite Hus.
    cbn [bind fst snd length].
    split; [reflexivity|]. split; [now rewrite Hlen|].
    split; [constructor; [|exact Hall]|].
    + destruct Hb1 as (_ & _ & _ & H0 & H1). now split.
    + split; [exact Hr2|]. intros _.
      destruct rest as [|b rest'].
      * cbn in Hus. injection Hus as <- _. exists pv1. split; [exact Hpv1|].
        now destruct Hb1.
      * apply Hpos. discriminate.
Qed.

(** C6 on a fresh tracker with the configured period and four bars. *)
Lemma C6_no_zero_division_and_range_witness :
  exists self' vs,
    ADXTracker.updates (ADXTracker.init ADX_PERIOD)
      [(100, 100, 100); (105, 100, 105); (105, 101, 101); (103, 99, 99)]
      = Some (self', vs)
    /\ length vs = 4%nat
    /\ Forall (fun v => 0 <= v /\ v <= 100) vs.
Proof.
  destruct (C6_no_zero_division_and_range ADX_PERIOD
              [(100, 100, 100); (105, 100, 105); (105, 101, 101); (103, 99, 99)]
              (ADXTracker.init ADX_PERIOD) eq_refl
              (ADXTracker.reach_init ADX_PERIOD))
    as (self' & vs & H1 & H2 & H3 & _).
  exists self', vs. repeat split; assumption.
Defined.

(** ** The breakout detector *)

Section Breakout.

Lemma fold_max2_spec (rest : list Q) (x : Q) :
  is_max (fold_left Py.max2 rest x) (x :: rest).
Proof.
  revert x. induction rest as [|y rest IH]; intro x; cbn [fold_left].
  - split; [now left|]. intros z [<-|[]]. lra.
  - destruct (IH (Py.max2 x y)) as [Hin Hub]. split.
    + destruct Hin as [Hin|Hin]; [|right; now right].
      rewrite <- Hin.
      destruct (max2_cases x y) as [[_ ->]|[_ ->]]; [right|]; now left.
    + intros z [<-|[<-|Hz]].
      * pose proof (Hub _ (or_introl eq_refl)). pose proof (max2_ge_l x y). lra.
      * pose proof (Hub _ (or_introl eq_refl)). pose proof (max2_ge_r x y). lra.
      * apply Hub. now right.
Qed.

Lemma fold_min2_spec (rest : list Q) (x : Q) :
  is_min (fold_left Py.min2 rest x) (x :: rest).
Proof.
  revert x. induction rest as [|y rest IH]; intro x; cbn [fold_left].
  - split; [now left|]. intros z [<-|[]]. lra.
  - destruct (IH (Py.min2 x y)) as [Hin Hlb]. split.
    + destruct Hin as [Hin|Hin]; [|right; now right].
      rewrite <- Hin.
      destruct (min2_cases x y) as [[_ ->]|[_ ->]]; [right|]; now left.
    + intros z [<-|[<-|Hz]].
      * pose proof (Hlb _ (or_introl eq_refl)). pose proof (min2_le_l x y). lra.
      * pose proof (Hlb _ (or_introl eq_refl)). pose proof (min2_le_r x y). lra.
      * apply Hlb. now right.
Qed.

(** With at least four rows, [tail(4)] is exactly four rows. *)
Lemma tail4_shape {A : Type} (df : list A) :
  (4 <= length df)%nat -> exists a b c d, tail 4 df = [a; b; c; d].
Proof.
  intro H. unfold tail.
  assert (Hlen : length (skipn (length df - 4) df) = 4%nat)
    by (rewrite length_skipn; lia).
  destruct (skipn (length df - 4) df) as [|a [|b [|c [|d [|e r]]]]];
    try discriminate.
  now exists a, b, c, d.
Qed.

Lemma increasing4 (a b c d : Q) :
  strictly_increasing [a; b; c; d] <-> a < b /\ b < c /\ c < d.
Proof.
  unfold strictly_increasing. split.
  - intro H. repeat split.
    + apply (H 1%nat). cbn. lia.
    + apply (H 2%nat). cbn. lia.
    + apply (H 3%nat). cbn. lia.
  - intros (H1 & H2 & H3) i Hi. cbn in Hi.
    destruct i as [|[|[|[|i]]]]; cbn; try assumption; lia.
Qed.

Lemma decreasing4 (a b c d : Q) :
  strictly_decreasing [a; b; c; d] <-> b < a /\ c < b /\ d < c.
Proof.
  unfold strictly_decreasing. split.
  - intro H. repeat split.
    + apply (H 1%nat). cbn. lia.
    + apply (H 2%nat). cbn. lia.
    + apply (H 3%nat). cbn. lia.
  - intros (H1 & H2 & H3) i Hi. cbn in Hi.
    destruct i as [|[|[|[|i]]]]; cbn; try assumption; lia.
Qed.

(** The two tests of [four_bar_signal] on a four-element array. *)
Lemma inc_test (a b c d : Q) :
  Py.all (map (fun i => Py.gt (nth i [a; b; c; d] 0) (nth (i - 1) [a; b; c; d] 0))
              [1; 2; 3]%nat) = true
  <-> strictly_increasing [a; b; c; d].
Proof.
  rewrite increasing4. cbn. unfold Py.gt.
  rewrite !andb_true_iff, !lt_true_iff. tauto.
Qed.

Lemma dec_test (a b c d : Q) :
  Py.all (map (fun i => Py.lt (nth i [a; b; c; d] 0) (nth (i - 1) [a; b; c; d] 0))
              [1; 2; 3]%nat) = true
  <-> strictly_decreasing [a; b; c; d].
Proof.
  rewrite decreasing4. cbn.
  rewrite !andb_true_iff, !lt_true_iff. tauto.
Qed.

Lemma not_both4 (a b c d : Q) :
  strictly_increasing [a; b; c; d] -> strictly_decreasing [a; b; c; d] -> False.
Proof.
  rewrite increasing4, decreasing4. intros (H & _) (H' & _). lra.
Qed.

End Breakout.

Section BreakoutSignal.

Lemma four_bar_signal_short (df : list Bar.t) :
  (length df < 4)%nat -> four_bar_signal df = None.
Proof.
  intro H. unfold four_bar_signal.
  apply Nat.ltb_lt in H. now rewrite H.
Qed.

(** The outcome on at least four rows, in terms of the last four. *)
Lemma four_bar_signal_last4 (df : list Bar.t) (a b c d : Bar.t) :
  (4 <= length df)%nat ->
  tail 4 df = [a; b; c; d] ->
  let cl := [Bar.close a; Bar.close b; Bar.close c; Bar.close d] in
  let box_high :=
    fold_left Py.max2 [Bar.high b; Bar.high c; Bar.high d] (Bar.high a) in
  let box_low :=
    fold_left Py.min2 [Bar.low b; Bar.low c; Bar.low d] (Bar.low a) in
  (strictly_increasing cl /\
   four_bar_signal df
     = Some {| Signal.dir := "LONG"; Signal.trigger := box_high;
               Signal.box_high := box_high; Signal.box_low := box_low |})
  \/ (strictly_decreasing cl /\
      four_bar_signal df
        = Some {| Signal.dir := "SHORT"; Signal.trigger := box_low;
                  Signal.box_high := box_high; Signal.box_low := box_low |})
  \/ (~ strictly_increasing cl /\ ~ strictly_decreasing cl /\
      four_bar_signal df = None).
Proof.
  intros Hlen Ht cl box_high box_low. unfold four_bar_signal.
  assert (Hnlt : (length df <? 4)%nat = false) by (apply Nat.ltb_ge; lia).
  rewrite Hnlt, Ht. cbn [map Py.max_seq Py.min_seq].
  fold cl. fold box_high. fold box_low.
  pose proof (inc_test (Bar.close a) (Bar.close b) (Bar.close c) (Bar.close d))
    as Hinc.
  pose proof (dec_test (Bar.close a) (Bar.close b) (Bar.close c) (Bar.close d))
    as Hdec.
  fold cl in Hinc, Hdec. cbn [map] in Hinc, Hdec.
  destruct (Py.all [Py.gt _ _; _; _]) eqn:Ei.
  - left. split; [now apply Hinc | reflexivity].
  - destruct (Py.all [Py.lt _ _; _; _]) eqn:Ed.
    + right; left. split; [now apply Hdec | reflexivity].
    + right; right. split; [|split; [|reflexivity]].
      * intro H. apply Hinc in H. discriminate.
      * intro H. apply Hdec in H. discriminate.
Qed.

End BreakoutSignal.

(** C5: with at least four bars the detector answers LONG exactly when
    the last four closes are strictly increasing and SHORT exactly when
    they are strictly decreasing; it answers nothing exactly when there
    are fewer than four bars or the closes are neither.  A signal's
    [box_high] is the greatest high and its [box_low] the least low of the
    last four bars; the trigger is [box_high] for LONG and [box_low] for
    SHORT.  Two equal consecutive closes among the last four give no
    signal. *)
Theorem C5_breakout_signal (df : list Bar.t) :
  let last4 := tail 4 df in
  let c := map Bar.close last4 in
  let h := map Bar.high last4 in
  let l := map Bar.low last4 in
  ((4 <= length df)%nat /\ strictly_increasing c
   <-> exists s, four_bar_signal df = Some s /\ Signal.dir s = "LONG"%string)
  /\ ((4 <= length df)%nat /\ strictly_decreasing c
      <-> exists s, four_bar_signal df = Some s /\ Signal.dir s = "SHORT"%string)
  /\ ((length df < 4)%nat \/ (~ strictly_increasing c /\ ~ strictly_decreasing c)
      <-> four_bar_signal df = None)
  /\ (forall s, four_bar_signal df = Some s ->
        is_max (Signal.box_high s) h
        /\ is_min (Signal.box_low s) l
        /\ ((Signal.dir s = "LONG"%string /\ Signal.trigger s = Signal.box_high s)
            \/ (Signal.dir s = "SHORT"%string /\ Signal.trigger s = Signal.box_low s)))
  /\ ((exists i, (1 <= i < 4)%nat /\ nth (i - 1) c 0 == nth i c 0) ->
      four_bar_signal df = None).
Proof.
  intros last4 c h l.
  destruct (Nat.lt_ge_cases (length df) 4) as [Hlt|Hge].
  - pose proof (four_bar_signal_short df Hlt) as Hn. rewrite Hn.
    split; [|split; [|split; [|split]]].
    + split; [intros [H _]; lia | intros (s & Hs & _); discriminate].
    + split; [intros [H _]; lia | intros (s & Hs & _); discriminate].
    + split; [reflexivity | intros _; now left].
    + intros s Hs. discriminate.
    + reflexivity.
  - destruct (tail4_shape df Hge) as (ba & bb & bc & bd & Ht).
    pose proof (four_bar_signal_last4 df ba bb bc bd Hge Ht) as Hcase.
    cbv zeta in Hcase.
    assert (Hc : c = [Bar.close ba; Bar.close bb; Bar.close bc; Bar.close bd])
      by (unfold c, last4; now rewrite Ht).
    assert (Hh : h = [Bar.high ba; Bar.high bb; Bar.high bc; Bar.high bd])
      by (unfold h, last4; now rewrite Ht).
    assert (Hl : l = [Bar.low ba; Bar.low bb; Bar.low bc; Bar.low bd])
      by (unfold l, last4; now rewrite Ht).
    rewrite <- Hc in Hcase.
    pose proof (fold_max2_spec [Bar.high bb; Bar.high bc; Bar.high bd] (Bar.high ba))
      as Hmax.
    pose proof (fold_min2_spec [Bar.low bb; Bar.low bc; Bar.low bd] (Bar.low ba))
      as Hmin.
    rewrite <- Hh in Hmax. rewrite <- Hl in Hmin.
    assert (Hexcl : strictly_increasing c -> strictly_decreasing c -> False)
      by (rewrite Hc; apply not_both4).
    assert (Htie : (exists i, (1 <= i < 4)%nat /\ nth (i - 1) c 0 == nth i c 0) ->
                   ~ strictly_increasing c /\ ~ strictly_decreasing c).
    { intros (i & Hi & Heq). split; intro Hs.
      - assert (Hlt := Hs i). rewrite Hc in Hlt at 1. cbn [length] in Hlt.
        specialize (Hlt Hi). lra.
      - assert (Hlt := Hs i). rewrite Hc in Hlt at 1. cbn [length] in Hlt.
        specialize (Hlt Hi). lra. }
    destruct Hcase as [[Hi Hs]|[[Hd Hs]|(Hni & Hnd & Hs)]]; rewrite Hs.
    + split; [|split; [|split; [|split]]].
      * split; [intros _; eexists; split; reflexivity | intros _; now split].
      * split; [intros [_ Hd]; now exfalso; apply Hexcl
               | intros (s & Hs' & Hdir); injection Hs' as <-; discriminate].
      * split; [intros [Hlt|[Hni _]]; [lia | contradiction] | discriminate].
      * intros s Hs'. injection Hs' as <-. cbn. split; [exact Hmax|].
        split; [exact Hmin|]. left. now split.
      * intro Hex. destruct (Htie Hex) as [Hni _]. contradiction.
    + split; [|split; [|split; [|split]]].
      * split; [intros [_ Hi]; now exfalso; apply Hexcl
               | intros (s & Hs' & Hdir); injection Hs' as <-; discriminate].
      * split; [intros _; eexists; split; reflexivity | intros _; now split].
      * split; [intros [Hlt|[_ Hnd]]; [lia | contradiction] | discriminate].
      * intros s Hs'. injection Hs' as <-. cbn. split; [exact Hmax|].
        split; [exact Hmin|]. right. now split.
      * intro Hex. destruct (Htie Hex) as [_ Hnd]. contradiction.
    + split; [|split; [|split; [|split]]].
      * split; [intros [_ Hi]; contradiction | intros (s & Hs' & _); discriminate].
      * split; [intros [_ Hd]; contradiction | intros (s & Hs' & _); discriminate].
      * split; [reflexivity | intros _; right; now split].
      * intros s Hs'. discriminate.
      * reflexivity.
Qed.

(** ** The bar aggregation *)

Section Aggregation.

Lemma last_row_split {A : Type} (xs : list A) (x : A) (before : list A) :
  rev xs = x :: before -> xs = rev before ++ [x].
Proof.
  intro H. rewrite <- (rev_involutive xs), H. reflexivity.
Qed.

(** The two outcomes of one aggregation step. *)
Lemma aggregate_cases (bars : list Bar.t) (slot : DT.t) (spot : Q) :
  ((bars = [] \/
    exists before b, bars = before ++ [b] /\ DT.lt (Bar.datetime b) slot = true)
   /\ aggregate bars slot spot = bars ++ [fresh_bar slot spot])
  \/ (exists before b,
        bars = before ++ [b]
        /\ DT.lt (Bar.datetime b) slot = false
        /\ aggregate bars slot spot = before ++ [widen b spot]).
Proof.
  unfold aggregate. destruct (rev bars) as [|b before] eqn:E.
  - left. split; [left|reflexivity].
    rewrite <- (rev_involutive bars), E. reflexivity.
  - apply last_row_split in E.
    destruct (DT.lt (Bar.datetime b) slot) eqn:Elt.
    + left. split; [right|reflexivity]. now exists (rev before), b.
    + right. exists (rev before), b. now repeat split.
Qed.

Lemma fresh_bar_ok (slot : DT.t) (spot : Q) : Bar.ohlc_ok (fresh_bar slot spot).
Proof.
  unfold Bar.ohlc_ok, fresh_bar. cbn. repeat split; lra.
Qed.

Lemma widen_ok (b : Bar.t) (spot : Q) : Bar.ohlc_ok b -> Bar.ohlc_ok (widen b spot).
Proof.
  unfold Bar.ohlc_ok, widen. cbn. intros (H1 & H2 & H3 & H4).
  pose proof (max2_ge_l (Bar.high b) spot). pose proof (max2_ge_r (Bar.high b) spot).
  pose proof (min2_le_l (Bar.low b) spot). pose proof (min2_le_r (Bar.low b) spot).
  repeat split; lra.
Qed.

Lemma aggregate_ok (bars : list Bar.t) (slot : DT.t) (spot : Q) :
  Forall Bar.ohlc_ok bars -> Forall Bar.ohlc_ok (aggregate bars slot spot).
Proof.
  intro H.
  destruct (aggregate_cases bars slot spot)
    as [[_ ->]|(before & b & Hb & _ & ->)].
  - apply Forall_app. split; [exact H|]. constructor; [apply fresh_bar_ok | constructor].
  - rewrite Hb in H. apply Forall_app in H. destruct H as [Hbefore Hlast].
    apply Forall_app. split; [exact Hbefore|].
    constructor; [|constructor]. apply widen_ok. now inversion Hlast.
Qed.

Lemma aggregate_length (bars : list Bar.t) (slot : DT.t) (spot : Q) :
  length (aggregate bars slot spot) = length bars
  \/ length (aggregate bars slot spot) = S (length bars).
Proof.
  destruct (aggregate_cases bars slot spot)
    as [[_ ->]|(before & b & Hb & _ & ->)].
  - right. rewrite length_app. cbn. lia.
  - left. rewrite Hb, !length_app. reflexivity.
Qed.

Lemma aggregate_all_ok (samples : list (DT.t * Q)) (bars : list Bar.t) :
  Forall Bar.ohlc_ok bars ->
  Forall Bar.ohlc_ok (aggregate_all bars samples)
  /\ (length (aggregate_all bars samples) <= length bars + length samples)%nat.
Proof.
  revert bars. unfold aggregate_all.
  induction samples as [|[nowi spot] rest IH]; intros bars H; cbn [fold_left].
  - split; [exact H | lia].
  - destruct (IH _ (aggregate_ok bars (floor_15m nowi) spot H)) as [Hok Hlen].
    split; [exact Hok|]. cbn [fst snd length] in *.
    destruct (aggregate_length bars (floor_15m nowi) spot) as [E|E];
      rewrite E in Hlen; lia.
Qed.

End Aggregation.

(** C9: one aggregation step either appends exactly one new row, opened
    with [open = high = low = close = price] (when there is no row yet or
    the newest row's bucket is earlier than the sample's), or rewrites the
    newest row in place with [high = max(high, price)],
    [low = min(low, price)], [close = price] and the same [open]; so it
    appends at most one row.  It keeps [low <= open <= high] and
    [low <= close <= high] on every row, and so does any sequence of
    samples aggregated from the empty frame. *)
Theorem C9_aggregation_step_and_bar_invariant
        (bars : list Bar.t) (nowi : DT.t) (spot : Q) (samples : list (DT.t * Q)) :
  let slot := floor_15m nowi in
  let bars' := aggregate bars slot spot in
  (length bars' = length bars \/ length bars' = S (length bars))
  /\ (((bars = [] \/
        exists before b, bars = before ++ [b] /\ DT.lt (Bar.datetime b) slot = true)
       /\ bars' = bars ++ [{| Bar.datetime := slot; Bar.open := spot;
                              Bar.high := spot; Bar.low := spot;
                              Bar.close := spot |}])
      \/ (exists before b,
            bars = before ++ [b]
            /\ DT.lt (Bar.datetime b) slot = false
            /\ bars' = before ++ [{| Bar.datetime := Bar.datetime b;
                                     Bar.open := Bar.open b;
                                     Bar.high := Py.max2 (Bar.high b) spot;
                                     Bar.low := Py.min2 (Bar.low b) spot;
                                     Bar.close := spot |}]))
  /\ (Forall Bar.ohlc_ok bars -> Forall Bar.ohlc_ok bars')
  /\ Forall Bar.ohlc_ok (aggregate_all [] samples)
  /\ (length (aggregate_all [] samples) <= length samples)%nat.
Proof.
  intros slot bars'.
  split; [apply aggregate_length|].
  split; [apply aggregate_cases|].
  split; [apply aggregate_ok|].
  apply (aggregate_all_ok samples []). constructor.
Qed.

(** ** The evaluation block of the runner *)

Section Timestamps.
Local Open Scope Z_scope.

Lemma to_us_of_us (x : Z) : DT.to_us (DT.of_us x) = x.
Proof.
  unfold DT.to_us, DT.of_us.
  cbn [DT.day DT.hour DT.minute DT.second DT.microsecond].
  Z.div_mod_to_equations. lia.
Qed.

Lemma to_us_sub_minutes (d : DT.t) (m : Z) :
  DT.to_us (DT.sub_minutes d m) = DT.to_us d - m * 60000000.
Proof.
  unfold DT.sub_minutes. apply to_us_of_us.
Qed.

Lemma floor_15m_aligned (ts : DT.t) : aligned (floor_15m ts).
Proof.
  unfold aligned, DT.to_us, floor_15m.
  cbn [DT.day DT.hour DT.minute DT.second DT.microsecond].
  Z.div_mod_to_equations. lia.
Qed.

(** The completed bucket advances exactly when the bucket does. *)
Lemma gt_sub_minutes (a b : DT.t) :
  DT.gt (DT.sub_minutes a 15) (DT.sub_minutes b 15) = DT.lt b a.
Proof.
  unfold DT.gt, DT.lt. rewrite !to_us_sub_minutes.
  destruct (DT.to_us b <? DT.to_us a) eqn:E.
  - apply Z.ltb_lt in E. apply Z.ltb_lt. lia.
  - apply Z.ltb_ge in E. apply Z.ltb_ge. lia.
Qed.

(** An earlier aligned bucket is at least 15 minutes earlier. *)
Lemma aligned_before (a b : DT.t) :
  aligned a -> aligned b -> DT.lt a b = true ->
  DT.le a (DT.sub_minutes b 15) = true.
Proof.
  unfold aligned, DT.lt, DT.le. intros Ha Hb Hlt.
  rewrite to_us_sub_minutes. apply Z.ltb_lt in Hlt. apply Z.leb_le.
  revert Ha Hb. Z.div_mod_to_equations. lia.
Qed.

Lemma not_le_sub_minutes (a : DT.t) : DT.le a (DT.sub_minutes a 15) = false.
Proof.
  unfold DT.le. rewrite to_us_sub_minutes. apply Z.leb_gt. lia.
Qed.

End Timestamps.

Section Runner.

Lemma iloc_last_app {A : Type} (xs : list A) (x : A) :
  iloc_last (xs ++ [x]) = Some x.
Proof.
  unfold iloc_last. rewrite rev_app_distr. reflexivity.
Qed.

Lemma iloc_last_nil {A : Type} : iloc_last (@nil A) = None.
Proof. reflexivity. Qed.

Lemma aggregate_open (bars : list Bar.t) (slot : DT.t) (spot : Q) :
  (bars = [] \/
   exists before b, bars = before ++ [b] /\ DT.lt (Bar.datetime b) slot = true) ->
  aggregate bars slot spot = bars ++ [fresh_bar slot spot].
Proof.
  intros [->|(before & b & -> & Hlt)]; unfold aggregate.
  - reflexivity.
  - rewrite rev_app_distr. cbn [rev app]. now rewrite Hlt.
Qed.

Lemma aggregate_same (before : list Bar.t) (b : Bar.t) (slot : DT.t) (spot : Q) :
  DT.lt (Bar.datetime b) slot = false ->
  aggregate (before ++ [b]) slot spot = before ++ [widen b spot].
Proof.
  intro Hlt. unfold aggregate. rewrite rev_app_distr. cbn [rev app].
  now rewrite Hlt, rev_involutive.
Qed.

(** A tracker a program can hold always has a previous close once it
    is ready. *)
Lemma prev_close_total (period : Z) (tracker : ADXTracker.t) (spot : Q) :
  ADXTracker.consistent period tracker ->
  (if ADXTracker.ready tracker
   then (pv <- ADXTracker.prev tracker ;; ret (ADXTracker.close pv))
   else ret spot)
  = Some (prev_close_or tracker spot).
Proof.
  intros [_ H]. unfold prev_close_or.
  destruct (ADXTracker.prev tracker) as [pv|].
  - destruct H as [-> _]. reflexivity.
  - rewrite H. reflexivity.
Qed.

(** The evaluation block when it is due, on a frame whose newest row is
    [b]. *)
Lemma evaluate_due (st : LoopState) (slot : DT.t) (spot : Q)
      (before : list Bar.t) (b : Bar.t) (r : ADXTracker.t * Q) :
  let completed := DT.sub_minutes slot 15 in
  let pc := prev_close_or (adx st) spot in
  let df_comp := filter (fun x => DT.le (Bar.datetime x) completed) (bars st) in
  let run_detector := (4 <=? length df_comp)%nat in
  bars st = before ++ [b] ->
  match last_completed st with
  | None => true
  | Some lc => DT.gt completed lc
  end = true ->
  ADXTracker.consistent ADX_PERIOD (adx st) ->
  ADXTracker.update (adx st) (Py.max2 pc (Bar.high b)) (Py.min2 pc (Bar.low b))
                    (Bar.close b) = Some r ->
  evaluate st slot spot
  = Some ({| bars := bars st; last_completed := Some completed; adx := fst r |},
          Some {| adx_val := snd r;
                  sig := if run_detector then four_bar_signal df_comp else None |},
          CallAdxUpdate (Py.max2 pc (Bar.high b)) (Py.min2 pc (Bar.low b))
                        (Bar.close b)
            :: (if run_detector then [CallFourBarSignal df_comp] else [])).
Proof.
  intros completed pc df_comp run_detector Hb Hdue Hc Hu.
  unfold evaluate. fold completed. rewrite Hdue.
  rewrite (prev_close_total ADX_PERIOD _ spot Hc). cbn [bind]. fold pc.
  assert (Hlast : forall f : Bar.t -> Q,
             iloc_last (map f (bars st)) = Some (f b))
    by (intro f; rewrite Hb, map_app; apply iloc_last_app).
  rewrite !Hlast. cbn [bind]. rewrite Hu. cbn [bind]. reflexivity.
Qed.

Lemma evaluate_not_due (st : LoopState) (slot : DT.t) (spot : Q) (lc : DT.t) :
  last_completed st = Some lc ->
  DT.gt (DT.sub_minutes slot 15) lc = false ->
  evaluate st slot spot = Some (st, None, []).
Proof.
  intros Hlc Hgt. unfold evaluate. now rewrite Hlc, Hgt.
Qed.

End Runner.

Section Ticks.

Lemma filter_all {A : Type} (f : A -> bool) (xs : list A) :
  Forall (fun x => f x = true) xs -> filter f xs = xs.
Proof.
  induction 1 as [|x xs Hx _ IH]; cbn; [reflexivity|].
  now rewrite Hx, IH.
Qed.

Lemma inv_consistent (st : LoopState) :
  loop_inv st -> ADXTracker.consistent ADX_PERIOD (adx st).
Proof.
  intros (_ & _ & Hr).
  apply ADXFacts.reachable_consistent; [reflexivity | exact Hr].
Qed.

(** Under the loop invariant, a sample of a later bucket finds every
    row of the frame at least 15 minutes old. *)
Lemma rows_completed (st : LoopState) (slot : DT.t) :
  loop_inv st -> aligned slot ->
  (bars st = [] \/
   exists before b,
     bars st = before ++ [b] /\ DT.lt (Bar.datetime b) slot = true) ->
  Forall (fun x => DT.le (Bar.datetime x) (DT.sub_minutes slot 15) = true)
         (bars st).
Proof.
  intros (Hsync & Hal & _) Hslot [E|(before & b & E & Hlt)].
  - rewrite E. constructor.
  - rewrite E, iloc_last_app in Hsync. destruct Hsync as [_ Hle].
    rewrite <- E in Hle.
    rewrite Forall_forall in *. intros x Hx.
    apply aligned_before; [now apply Hal | exact Hslot|].
    specialize (Hle x Hx). unfold DT.lt in *.
    apply Z.ltb_lt in Hlt. apply Z.ltb_lt. lia.
Qed.

(** A sample that opens a new bucket. *)
Lemma on_sample_open (st : LoopState) (nowi : DT.t) (spot : Q) :
  let slot := floor_15m nowi in
  let pc := prev_close_or (adx st) spot in
  let run_detector := (4 <=? length (bars st))%nat in
  loop_inv st ->
  ~ spot == 0 ->
  (bars st = [] \/
   exists before b,
     bars st = before ++ [b] /\ DT.lt (Bar.datetime b) slot = true) ->
  exists adx' v,
    ADXTracker.update (adx st) (Py.max2 pc spot) (Py.min2 pc spot) spot
      = Some (adx', v)
    /\ on_sample st nowi spot
       = Some ({| bars := bars st ++ [fresh_bar slot spot];
                  last_completed := Some (DT.sub_minutes slot 15);
                  adx := adx' |},
               Some {| adx_val := v;
                       sig := if run_detector
                              then four_bar_signal (bars st) else None |},
               CallAdxUpdate (Py.max2 pc spot) (Py.min2 pc spot) spot
                 :: (if run_detector
                     then [CallFourBarSignal (bars st)] else []))
    /\ loop_inv {| bars := bars st ++ [fresh_bar slot spot];
                   last_completed := Some (DT.sub_minutes slot 15);
                   adx := adx' |}.
Proof.
  intros slot pc run_detector Hinv Hspot Hopen.
  pose proof (inv_consistent st Hinv) as Hcons.
  pose proof (rows_completed st slot Hinv (floor_15m_aligned nowi) Hopen) as Hrows.
  destruct Hinv as (Hsync & Hal & Hreach).
  destruct (update_reachable ADX_PERIOD (adx st) (Py.max2 pc spot)
              (Py.min2 pc spot) spot eq_refl Hreach)
    as (adx' & pv' & Hu & _ & _ & Hreach').
  exists adx', (ADXTracker.adx pv').
  split; [exact Hu|]. split.
  - unfold on_sample. apply truthy_true_iff in Hspot. rewrite Hspot. cbn [negb].
    fold slot. rewrite (aggregate_open _ _ _ Hopen).
    set (st1 := {| bars := bars st ++ [fresh_bar slot spot];
                   last_completed := last_completed st; adx := adx st |}).
    assert (Hdue : match last_completed st1 with
                   | None => true
                   | Some lc => DT.gt (DT.sub_minutes slot 15) lc
                   end = true).
    { cbn [st1 last_completed].
      destruct Hopen as [E|(before & b & E & Hlt)].
      - rewrite E in Hsync. cbn in Hsync. now rewrite Hsync.
      - rewrite E, iloc_last_app in Hsync. destruct Hsync as [-> _].
        now rewrite gt_sub_minutes. }
    rewrite (evaluate_due st1 slot spot (bars st) (fresh_bar slot spot)
               (adx', ADXTracker.adx pv') eq_refl Hdue Hcons Hu).
    cbn [st1 bars fst snd].
    rewrite filter_app, (filter_all _ _ Hrows). cbn [filter fresh_bar Bar.datetime].
    rewrite not_le_sub_minutes, app_nil_r. reflexivity.
  - unfold loop_inv. cbn [bars last_completed adx].
    rewrite iloc_last_app. cbn [fresh_bar Bar.datetime].
    split; [split; [reflexivity|]|split].
    + apply Forall_app. split; [|constructor; [apply Z.le_refl | constructor]].
      rewrite Forall_forall in *. intros x Hx. specialize (Hrows x Hx).
      unfold DT.le in Hrows. rewrite to_us_sub_minutes in Hrows.
      apply Z.leb_le in Hrows. lia.
    + apply Forall_app. split; [exact Hal|].
      constructor; [apply floor_15m_aligned | constructor].
    + exact Hreach'.
Qed.

(** A sample that falls in the newest row's bucket (or an earlier
    one): the row is rewritten, nothing is evaluated, nothing is called. *)
Lemma on_sample_same (st : LoopState) (nowi : DT.t) (spot : Q)
      (before : list Bar.t) (b : Bar.t) :
  loop_inv st ->
  ~ spot == 0 ->
  bars st = before ++ [b] ->
  DT.lt (Bar.datetime b) (floor_15m nowi) = false ->
  on_sample st nowi spot
  = Some ({| bars := before ++ [widen b spot];
             last_completed := last_completed st; adx := adx st |}, None, [])
  /\ loop_inv {| bars := before ++ [widen b spot];
                 last_completed := last_completed st; adx := adx st |}.
Proof.
  intros (Hsync & Hal & Hreach) Hspot E Hlt.
  rewrite E, iloc_last_app in Hsync. destruct Hsync as [Hlc Hle].
  split.
  - unfold on_sample. apply truthy_true_iff in Hspot. rewrite Hspot. cbn [negb].
    rewrite E, (aggregate_same _ _ _ _ Hlt).
    eapply evaluate_not_due; [cbn [last_completed]; exact Hlc|].
    now rewrite gt_sub_minutes.
  - unfold loop_inv. cbn [bars last_completed adx].
    rewrite iloc_last_app. cbn [widen Bar.datetime].
    rewrite E in Hal.
    apply Forall_app in Hle. destruct Hle as [Hle1 Hle2].
    apply Forall_app in Hal. destruct Hal as [Hal1 Hal2].
    split; [split; [exact Hlc|]|split].
    + apply Forall_app. split; [exact Hle1|].
      constructor; [apply Z.le_refl | constructor].
    + apply Forall_app. split; [exact Hal1|].
      constructor; [|constructor]. now inversion Hal2.
    + exact Hreach.
Qed.

Lemma on_sample_zero (st : LoopState) (nowi : DT.t) (spot : Q) :
  spot == 0 -> on_sample st nowi spot = Some (st, None, []).
Proof.
  intro H. unfold on_sample. apply truthy_false_iff in H. now rewrite H.
Qed.

Lemma last_or_nil {A : Type} (xs : list A) :
  xs = [] \/ exists before x, xs = before ++ [x].
Proof.
  destruct (rev xs) as [|x before] eqn:E.
  - left. rewrite <- (rev_involutive xs), E. reflexivity.
  - right. exists (rev before), x. now apply last_row_split.
Qed.

(** Every loop state of a run satisfies the invariant. *)
Lemma loop_reachable_inv (st : LoopState) : loop_reachable st -> loop_inv st.
Proof.
  induction 1 as [|st nowi is_closed spot st' ev calls Hr IH Ht].
  - unfold loop_inv, run_init. cbn. repeat split; try constructor.
  - unfold tick in Ht.
    destruct (negb (in_session nowi) || is_closed);
      [now injection Ht as <- _ _|].
    destruct (Qeq_dec spot 0) as [Hz|Hnz].
    + rewrite (on_sample_zero _ _ _ Hz) in Ht. now injection Ht as <- _ _.
    + destruct (last_or_nil (bars st)) as [E|(before & b & E)].
      * destruct (on_sample_open st nowi spot IH Hnz (or_introl E))
          as (adx' & v & _ & Ht' & Hinv').
        rewrite Ht' in Ht. now injection Ht as <- _ _.
      * destruct (DT.lt (Bar.datetime b) (floor_15m nowi)) eqn:Hlt.
        -- destruct (on_sample_open st nowi spot IH Hnz)
             as (adx' & v & _ & Ht' & Hinv').
           { right. now exists before, b. }
           rewrite Ht' in Ht. now injection Ht as <- _ _.
        -- destruct (on_sample_same st nowi spot before b IH Hnz E Hlt) as [Ht' Hinv'].
           rewrite Ht' in Ht. now injection Ht as <- _ _.
Qed.

(** Inside the session, with the market open, a tick handles the
    sample; otherwise it does nothing. *)
Lemma tick_in_session (st : LoopState) (nowi : DT.t) (spot : Q) :
  in_session nowi = true -> tick st nowi false spot = on_sample st nowi spot.
Proof.
  intro H. unfold tick. now rewrite H.
Qed.

Lemma tick_closed (st : LoopState) (nowi : DT.t) (is_closed : bool) (spot : Q) :
  in_session nowi = false \/ is_closed = true ->
  tick st nowi is_closed spot = Some (st, None, []).
Proof.
  intros [H|H]; unfold tick; rewrite H; [reflexivity|].
  now rewrite orb_true_r.
Qed.

End Ticks.

(** C7, as stated, fails.  Nine samples over five buckets of one session:
    the last one (10:15:01, spot 115) completes the 10:00 bar, whose high,
    low and close are 130, 111 and 112.  The indicator is updated first and
    the detector runs second, over the four completed bars, but the
    indicator is fed (115, 111, 115): the spot of the bucket just opened
    against its own previous close, not the completed bar. *)
Lemma C7_adx_not_fed_completed_bar :
  exists st ev calls df b,
    ticks run_init
      [(clock 9 15 3, 100); (clock 9 20 0, 120); (clock 9 29 57, 101);
       (clock 9 30 1, 105);
       (clock 9 45 2, 108);
       (clock 10 0 0, 111); (clock 10 5 0, 130); (clock 10 14 57, 112);
       (clock 10 15 1, 115)]
    = Some (st, Some ev, calls)
    /\ calls = [CallAdxUpdate 115 111 115; CallFourBarSignal df]
    /\ length df = 4%nat
    /\ iloc_last df = Some b
    /\ Bar.datetime b = clock 10 0 0
    /\ Bar.high b == 130 /\ Bar.low b == 111 /\ Bar.close b == 112
    /\ ~ 115 == Bar.high b
    /\ ~ 115 == Bar.close b.
Proof.
  do 5 eexists.
  split; [vm_compute; reflexivity|].
  split; [reflexivity|].
  split; [reflexivity|].
  split; [reflexivity|].
  split; [reflexivity|].
  split; [reflexivity|]. split; [reflexivity|]. split; [reflexivity|].
  split; intro H; vm_compute in H; discriminate.
Qed.

(** C7, amended: in a run of the loop, a tick inside the session with the
    market open and a usable spot either opens a new bucket or falls in
    the newest one.  When it opens a bucket
    (so the previous bar is complete), the loop first calls
    [TrendIndicator.update] with [high = max(prev_close, spot)],
    [low = min(prev_close, spot)], [close = spot] -- the row just opened
    against the indicator's previous close ([spot] itself before the first
    update), not the completed bar's high, low and close -- and the call
    does not raise; after that, when at least four bars are completed, it
    runs the detector over the completed bars (all rows but the one just
    opened), which reads their last four.  Otherwise the newest row is
    rewritten and neither is called. *)
Theorem C7_bucket_open_updates_then_detects
        (st : LoopState) (nowi : DT.t) (spot : Q) :
  loop_reachable st ->
  in_session nowi = true ->
  ~ spot == 0 ->
  let slot := floor_15m nowi in
  let pc := prev_close_or (adx st) spot in
  let day_high := Py.max2 pc spot in
  let day_low := Py.min2 pc spot in
  let run_detector := (4 <=? length (bars st))%nat in
  exists st' ev calls,
    tick st nowi false spot = Some (st', ev, calls)
    /\ (((bars st = [] \/
          exists before b,
            bars st = before ++ [b] /\ DT.lt (Bar.datetime b) slot = true)
         /\ bars st' = bars st ++ [fresh_bar slot spot]
         /\ (exists v,
               ADXTracker.update (adx st) day_high day_low spot
                 = Some (adx st', v)
               /\ ev = Some {| adx_val := v;
                               sig := if run_detector
                                      then four_bar_signal (bars st)
                                      else None |})
         /\ calls = CallAdxUpdate day_high day_low spot
                      :: (if run_detector
                          then [CallFourBarSignal (bars st)] else []))
        \/ ((exists before b,
               bars st = before ++ [b]
               /\ DT.lt (Bar.datetime b) slot = false
               /\ bars st' = before ++ [widen b spot])
            /\ adx st' = adx st /\ ev = None /\ calls = [])).
Proof.
  intros Hr Hsession Hspot slot pc day_high day_low run_detector.
  pose proof (loop_reachable_inv st Hr) as Hinv.
  rewrite (tick_in_session st nowi spot Hsession).
  assert (Hopen_case :
            (bars st = [] \/
             exists before b,
               bars st = before ++ [b] /\ DT.lt (Bar.datetime b) slot = true) ->
            exists st' ev calls,
              on_sample st nowi spot = Some (st', ev, calls)
              /\ ((bars st = [] \/
                   exists before b,
                     bars st = before ++ [b]
                     /\ DT.lt (Bar.datetime b) slot = true)
                  /\ bars st' = bars st ++ [fresh_bar slot spot]
                  /\ (exists v,
                        ADXTracker.update (adx st) day_high day_low spot
                          = Some (adx st', v)
                        /\ ev = Some {| adx_val := v;
                                        sig := if run_detector
                                               then four_bar_signal (bars st)
                                               else None |})
                  /\ calls = CallAdxUpdate day_high day_low spot
                               :: (if run_detector
                                   then [CallFourBarSignal (bars st)] else []))).
  { intro Hopen.
    destruct (on_sample_open st nowi spot Hinv Hspot Hopen) as (adx' & v & Hu & Ht & _).
    do 3 eexists. split; [exact Ht|].
    split; [exact Hopen|]. split; [reflexivity|].
    split; [exists v; split; [exact Hu | reflexivity] | reflexivity]. }
  destruct (last_or_nil (bars st)) as [E|(before & b & E)].
  - destruct (Hopen_case (or_introl E)) as (st' & ev & calls & Ht & H).
    exists st', ev, calls. split; [exact Ht | now left].
  - destruct (DT.lt (Bar.datetime b) slot) eqn:Hlt.
    + destruct Hopen_case as (st' & ev & calls & Ht & H).
      { right. now exists before, b. }
      exists st', ev, calls. split; [exact Ht | now left].
    + destruct (on_sample_same st nowi spot before b Hinv Hspot E Hlt) as [Ht _].
      do 3 eexists. split; [exact Ht|]. right.
      split; [exists before, b; now repeat split|].
      now repeat split.
Qed.

Section LoopRuns.

Lemma ticks_reachable (qs : list (DT.t * Q)) :
  forall st st' ev calls,
    loop_reachable st ->
    ticks st qs = Some (st', ev, calls) ->
    loop_reachable st'.
Proof.
  induction qs as [|[nowi spot] rest IH]; intros st st' ev calls Hr Ht.
  - cbn in Ht. injection Ht as <- _ _. exact Hr.
  - cbn [ticks] in Ht.
    destruct (tick st nowi false spot) as [[[st1 ev1] calls1]|] eqn:E;
      [|discriminate].
    cbn [bind] in Ht.
    assert (Hr1 : loop_reachable st1) by (eapply loop_tick; eassumption).
    destruct rest as [|q rest'].
    + injection Ht as <- _ _. exact Hr1.
    + cbn [fst] in Ht. exact (IH _ _ _ _ Hr1 Ht).
Qed.

Lemma four_bar_state_reachable : loop_reachable four_bar_state.
Proof.
  unfold four_bar_state.
  destruct (ticks run_init four_bucket_samples) as [[[st ev] calls]|] eqn:E;
    [|exact loop_init].
  exact (ticks_reachable _ _ _ _ _ loop_init E).
Qed.

End LoopRuns.

(** The amended C7 on the tick that opens the 10:15 bucket after four
    bars, the 10:00 one (high 130, low 111, close 112) just completed:
    the indicator is updated with (115, 111, 115), its previous close
    being 111, and then the detector runs over the four completed bars. *)
Lemma C7_bucket_open_updates_then_detects_witness :
  loop_reachable four_bar_state
  /\ in_session (clock 10 15 1) = true
  /\ ~ 115 == 0
  /\ length (bars four_bar_state) = 4%nat
  /\ exists st' v calls,
       tick four_bar_state (clock 10 15 1) false 115
       = Some (st', Some {| adx_val := v;
                            sig := four_bar_signal (bars four_bar_state) |}, calls)
       /\ length (bars st') = 5%nat
       /\ calls = [CallAdxUpdate 115 111 115;
                   CallFourBarSignal (bars four_bar_state)].
Proof.
  split; [exact four_bar_state_reachable|]. split; [reflexivity|].
  split; [intro H; vm_compute in H; discriminate H|].
  split; [reflexivity|].
  destruct (C7_bucket_open_updates_then_detects
              four_bar_state (clock 10 15 1) 115
              four_bar_state_reachable eq_refl
              ltac:(intro H; vm_compute in H; discriminate H))
    as (st' & ev & calls & Ht
        & [(_ & Hb & (v & _ & Hev) & Hc)
          | ((before & b & Hbars & Hlt & _) & _)]).
  - exists st', v, calls. subst ev.
    split; [exact Ht|]. split; [rewrite Hb; reflexivity | exact Hc].
  - exfalso.
    assert (Hlast : b = bar_at 10 0 111 130 111 112).
    { change (bars four_bar_state)
        with ([bar_at 9 15 100 120 100 101; bar_at 9 30 105 105 105 105;
               bar_at 9 45 108 108 108 108] ++ [bar_at 10 0 111 130 111 112])
        in Hbars.
      apply app_inj_tail in Hbars. symmetry. exact (proj2 Hbars). }
    subst b. vm_compute in Hlt. discriminate Hlt.
Defined.

(** ** The paper broker *)

Section Broker.

Lemma get_lot_size_50 (symbol : string) : get_lot_size symbol = 50%Z.
Proof.
  unfold get_lot_size, NSE_LOT_SIZE, dict_get.
  destruct (String.eqb "NIFTY" (Py.upper symbol)); reflexivity.
Qed.

Lemma get_lot_size_nifty : get_lot_size "NIFTY" = 50%Z.
Proof. reflexivity. Qed.

(** [enter] succeeds exactly from a flat account whose capital covers
    the unadjusted cost. *)
Lemma enter_true_iff (self : PaperBroker.t) (side : string) (price : Q)
      (contract : Contract.t) (timestamp : option string)
      (now_stamp now_log : string) :
  snd (PaperBroker.enter self side price contract timestamp now_stamp now_log)
  = true
  <-> PaperBroker.flat self
      /\ price * inject_Z (get_lot_size (Contract.get_symbol contract))
         <= PaperBroker.capital self.
Proof.
  unfold PaperBroker.enter, PaperBroker.flat.
  destruct (PaperBroker.position self) as [pos|]; cbn [snd].
  - split; [discriminate | intros [H _]; discriminate].
  - destruct (Py.lt _ _) eqn:E; cbn [snd].
    + apply lt_true_iff in E. split; [discriminate|].
      intros [_ H]. exfalso. apply (Qlt_not_le _ _ E H).
    + apply lt_false_iff in E. split; [now split | reflexivity].
Qed.

(** The state a successful [enter] leaves. *)
Lemma enter_success (self self' : PaperBroker.t) (side : string) (price : Q)
      (contract : Contract.t) (timestamp : option string)
      (now_stamp now_log : string) :
  PaperBroker.enter self side price contract timestamp now_stamp now_log
  = (self', true) ->
  let qty := get_lot_size (Contract.get_symbol contract) in
  let fill_price :=
    price + (if String.eqb side "LONG"
             then PaperBroker.slippage_pct self * price
             else - PaperBroker.slippage_pct self * price) in
  PaperBroker.flat self
  /\ PaperBroker.position self'
     = Some {| Position.side := side; Position.entry := fill_price;
               Position.qty := qty; Position.contract := contract |}
  /\ PaperBroker.capital self' = PaperBroker.capital self - price * inject_Z qty
  /\ PaperBroker.open_time self' = Some (str_or timestamp now_stamp)
  /\ PaperBroker.closed_trades self' = PaperBroker.closed_trades self
  /\ PaperBroker.initial_capital self' = PaperBroker.initial_capital self
  /\ PaperBroker.slippage_pct self' = PaperBroker.slippage_pct self
  /\ exists record,
       PaperBroker.log self' = PaperBroker.log self ++ [record]
       /\ LogRecord.event record = "OPEN"%string.
Proof.
  unfold PaperBroker.enter, PaperBroker.flat.
  destruct (PaperBroker.position self) as [pos|]; [discriminate|].
  destruct (Py.lt _ _); [discriminate|].
  intro H. injection H as <-. cbn.
  repeat split. eexists. split; reflexivity.
Qed.

(** The state and result of [exit] while a position is held. *)
Lemma exit_held (self : PaperBroker.t) (pos : Position.t) (price : Q)
      (timestamp reason : option string) (now_stamp now_log : string) :
  PaperBroker.position self = Some pos ->
  let s := PaperBroker.slippage_pct self in
  let lot := inject_Z (Position.qty pos) in
  let fill_price :=
    price - (if String.eqb (Position.side pos) "LONG"
             then s * price else - s * price) in
  let pnl := if String.eqb (Position.side pos) "LONG"
             then (fill_price - Position.entry pos) * lot
             else (Position.entry pos - fill_price) * lot in
  let trade :=
    {| Trade.side := Position.side pos;
       Trade.entry_price := Position.entry pos;
       Trade.exit_price := fill_price;
       Trade.qty := Position.qty pos;
       Trade.contract := Position.contract pos;
       Trade.entry_time := PaperBroker.open_time self;
       Trade.exit_time := str_or timestamp now_stamp;
       Trade.pnl := pnl;
       Trade.capital_post := PaperBroker.capital self + fill_price * lot;
       Trade.reason := reason |} in
  exists self',
    PaperBroker.exit self price timestamp reason now_stamp now_log
    = (self', Some pnl)
    /\ PaperBroker.position self' = None
    /\ PaperBroker.open_time self' = None
    /\ PaperBroker.capital self' = PaperBroker.capital self + fill_price * lot
    /\ PaperBroker.closed_trades self' = PaperBroker.closed_trades self ++ [trade]
    /\ PaperBroker.initial_capital self' = PaperBroker.initial_capital self
    /\ PaperBroker.slippage_pct self' = PaperBroker.slippage_pct self
    /\ exists record,
         PaperBroker.log self' = PaperBroker.log self ++ [record]
         /\ LogRecord.event record = "CLOSE"%string
         /\ LogRecord.extra record = LogRecord.CloseExtra trade.
Proof.
  intros Hpos. cbv zeta. unfold PaperBroker.exit. rewrite Hpos.
  eexists. split; [reflexivity|]. cbn.
  repeat split. eexists. repeat split.
Qed.

Lemma sum_snoc (xs : list Q) (x : Q) : Py.sum (xs ++ [x]) == Py.sum xs + x.
Proof.
  unfold Py.sum. rewrite fold_left_app. reflexivity.
Qed.

End Broker.

(** C3: a successful [open] happens in the flat state only; it records
    the position with entry fill [quote * (1 + slippage)] for LONG and
    [quote * (1 - slippage)] for SHORT, with quantity the lot size of the
    contract's symbol (50 for NIFTY, and 50 by default), and debits
    capital by the unadjusted [quote * quantity]. *)
Theorem C3_open_fill_and_capital_debit
        (self self' : PaperBroker.t) (side : string) (price : Q)
        (contract : Contract.t) (timestamp : option string)
        (now_stamp now_log : string) :
  PaperBroker.enter self side price contract timestamp now_stamp now_log
  = (self', true) ->
  PaperBroker.flat self
  /\ price * inject_Z (get_lot_size (Contract.get_symbol contract))
     <= PaperBroker.capital self
  /\ exists pos,
       PaperBroker.position self' = Some pos
       /\ Position.side pos = side
       /\ Position.contract pos = contract
       /\ Position.qty pos = get_lot_size (Contract.get_symbol contract)
       /\ get_lot_size "NIFTY" = 50%Z
       /\ Position.qty pos = 50%Z
       /\ (side = "LONG"%string ->
           Position.entry pos == price * (1 + PaperBroker.slippage_pct self))
       /\ (side = "SHORT"%string ->
           Position.entry pos == price * (1 - PaperBroker.slippage_pct self))
       /\ PaperBroker.capital self'
          == PaperBroker.capital self - price * inject_Z (Position.qty pos).
Proof.
  intro H.
  assert (Hok : snd (PaperBroker.enter self side price contract timestamp
                                       now_stamp now_log) = true)
    by now rewrite H.
  apply enter_true_iff in Hok. destruct Hok as [Hflat Hcap].
  destruct (enter_success _ _ _ _ _ _ _ _ H) as (_ & Hpos & Hcapital & _).
  split; [exact Hflat|]. split; [exact Hcap|].
  eexists. split; [exact Hpos|]. cbn [Position.side Position.contract
                                     Position.qty Position.entry].
  split; [reflexivity|]. split; [reflexivity|]. split; [reflexivity|].
  split; [reflexivity|]. split; [apply get_lot_size_50|].
  split; [|split].
  - intros ->. cbn [String.eqb Ascii.eqb Bool.eqb]. ring.
  - intros ->. cbn [String.eqb Ascii.eqb Bool.eqb]. ring.
  - rewrite Hcapital. reflexivity.
Qed.

(** C3 on a LONG open at quote 100 with capital 100000 and slippage
    0.001. *)
Lemma C3_open_fill_and_capital_debit_witness :
  let contract := nifty_call in
  let self := run_broker in
  exists pos,
    PaperBroker.position
      (fst (PaperBroker.enter self "LONG" 100 contract None "t0" "t1")) = Some pos
    /\ Position.entry pos == 100.1
    /\ PaperBroker.capital
         (fst (PaperBroker.enter self "LONG" 100 contract None "t0" "t1"))
       == 95000.
Proof.
  intros contract self.
  destruct (C3_open_fill_and_capital_debit
              self (fst (PaperBroker.enter self "LONG" 100 contract None "t0" "t1"))
              "LONG" 100 contract None "t0" "t1" eq_refl)
    as (_ & _ & pos & Hpos & _ & _ & _ & _ & Hq & Hl & _ & Hc).
  exists pos. split; [exact Hpos|]. split.
  - rewrite (Hl eq_refl). reflexivity.
  - rewrite Hc, Hq. reflexivity.
Defined.

(** C4: [open] fails exactly when a position is already held or capital
    is below [quote * quantity], [close] fails exactly when the account is
    flat, and each failing call appends one REJECTED audit record and
    leaves initial capital, capital, position, open time, trade history,
    log file name and slippage exactly as they were. *)
Theorem C4_rejections_only_log
        (self : PaperBroker.t) (side : string) (price : Q)
        (contract : Contract.t) (timestamp reason : option string)
        (now_stamp now_log : string) :
  let opened := PaperBroker.enter self side price contract timestamp
                                  now_stamp now_log in
  let closed := PaperBroker.exit self price timestamp reason now_stamp now_log in
  let qty := inject_Z (get_lot_size (Contract.get_symbol contract)) in
  (snd opened = false
   <-> (exists pos, PaperBroker.position self = Some pos)
       \/ PaperBroker.capital self < price * qty)
  /\ (snd opened = false -> PaperBroker.only_rejection_logged self (fst opened))
  /\ (snd closed = None <-> PaperBroker.flat self)
  /\ (snd closed = None -> PaperBroker.only_rejection_logged self (fst closed)).
Proof.
  cbv zeta. unfold PaperBroker.enter, PaperBroker.exit, PaperBroker.flat,
            PaperBroker.only_rejection_logged.
  destruct (PaperBroker.position self) as [pos|] eqn:Hpos; cbn [fst snd].
  - split; [|split; [|split]].
    + split; [intros _; left; now exists pos | reflexivity].
    + intros _. cbn. rewrite Hpos. repeat split.
      eexists. repeat split.
    + split; discriminate.
    + discriminate.
  - destruct (Py.lt _ _) eqn:E; cbn [fst snd].
    + apply lt_true_iff in E. split; [|split; [|split]].
      * split; [intros _; now right | reflexivity].
      * intros _. cbn. rewrite Hpos. repeat split. eexists. repeat split.
      * split; reflexivity.
      * intros _. cbn. rewrite Hpos. repeat split. eexists. repeat split.
    + apply lt_false_iff in E. split; [|split; [|split]].
      * split; [discriminate|].
        intros [[pos Hp]|Hlt]; [discriminate|].
        exfalso. apply (Qlt_not_le _ _ Hlt E).
      * discriminate.
      * split; reflexivity.
      * intros _. cbn. rewrite Hpos. repeat split. eexists. repeat split.
Qed.

(** ** Worked examples *)

Section Fixtures.

(** A zero period makes the first smoothing division raise; this is why
    the range theorem asks for a period above 1. *)
Example update_period_zero_raises :
  ADXTracker.update (ADXTracker.init 0) 100 100 100 = None.
Proof. reflexivity. Qed.

(** With period 1 the smoothed true range can reach zero (the guard then
    yields 0 instead of dividing). *)
Example update_period_one_zero_range :
  exists self' pv,
    ADXTracker.update (ADXTracker.init 1) 100 100 100 = Some (self', 0)
    /\ ADXTracker.prev self' = Some pv
    /\ ADXTracker.tr_s pv == 0.
Proof.
  do 2 eexists. split; [vm_compute; reflexivity|]. split; reflexivity.
Qed.

(** The first tick of the loop feeds [high = low = close = spot], for
    which the first update does return 0. *)
Example first_tick_returns_zero :
  exists st calls,
    tick run_init (clock 9 15 3) false 100
    = Some (st, Some {| adx_val := 0; sig := None |}, calls)
    /\ calls = [CallAdxUpdate 100 100 100].
Proof.
  do 2 eexists. split; [vm_compute; reflexivity | reflexivity].
Qed.

Example four_bar_long :
  four_bar_signal [bar_at 9 15 1 5 1 2; bar_at 9 30 2 7 0 3;
                   bar_at 9 45 3 6 2 4; bar_at 10 0 4 6 3 5]
  = Some {| Signal.dir := "LONG"; Signal.trigger := 7;
            Signal.box_high := 7; Signal.box_low := 0 |}.
Proof. reflexivity. Qed.

Example four_bar_short :
  four_bar_signal [bar_at 9 0 1 5 1 0; bar_at 9 15 1 5 1 9; bar_at 9 30 2 7 0 8;
                   bar_at 9 45 3 6 2 7; bar_at 10 0 4 6 3 5]
  = Some {| Signal.dir := "SHORT"; Signal.trigger := 0;
            Signal.box_high := 7; Signal.box_low := 0 |}.
Proof. reflexivity. Qed.

Example four_bar_tie :
  four_bar_signal [bar_at 9 15 1 5 1 2; bar_at 9 30 2 7 0 3;
                   bar_at 9 45 3 6 2 3; bar_at 10 0 4 6 3 5]
  = None.
Proof. reflexivity. Qed.

Example four_bar_too_few :
  four_bar_signal [bar_at 9 15 1 5 1 2; bar_at 9 30 2 7 0 3; bar_at 9 45 3 6 2 4]
  = None.
Proof. reflexivity. Qed.

(** Three samples in one bucket and one in the next. *)
Example aggregate_two_buckets :
  aggregate_all [] [(clock 9 15 3, 100); (clock 9 20 0, 120);
                    (clock 9 29 57, 101); (clock 9 30 1, 105)]
  = [{| Bar.datetime := clock 9 15 0; Bar.open := 100; Bar.high := 120;
        Bar.low := 100; Bar.close := 101 |};
     {| Bar.datetime := clock 9 30 0; Bar.open := 105; Bar.high := 105;
        Bar.low := 105; Bar.close := 105 |}].
Proof. reflexivity. Qed.

(** A second [open] while a position is held, an [open] the capital does
    not cover, and a [close] on a flat account. *)
Example duplicate_open_rejected :
  let held := fst (PaperBroker.enter run_broker "LONG" 100 nifty_call None "t0" "t1") in
  let again := PaperBroker.enter held "SHORT" 90 nifty_call None "t2" "t3" in
  snd again = false
  /\ PaperBroker.position (fst again) = PaperBroker.position held
  /\ PaperBroker.capital (fst again) = PaperBroker.capital held
  /\ map LogRecord.event (PaperBroker.log (fst again))
     = ["OPEN"; "REJECTED"]%string.
Proof. cbv zeta. repeat split. Qed.

Example unaffordable_open_rejected :
  let r := PaperBroker.enter run_broker "LONG" 2000.5 nifty_call None "t0" "t1" in
  snd r = false
  /\ PaperBroker.position (fst r) = None
  /\ PaperBroker.capital (fst r) = 100000
  /\ map LogRecord.message (PaperBroker.log (fst r))
     = [LogRecord.Insufficient 100000 (2000.5 * 50)].
Proof. cbv zeta. repeat split. Qed.

Example close_when_flat_rejected :
  let r := PaperBroker.exit run_broker 110 None None "t0" "t1" in
  snd r = None
  /\ PaperBroker.closed_trades (fst r) = []
  /\ map LogRecord.event (PaperBroker.log (fst r)) = ["REJECTED"%string].
Proof. cbv zeta. repeat split. Qed.

(** A SHORT round trip in binary64: entry fill below the quote, exit
    fill above it; the pnl returned is [490.5 + 2^-43]. *)
Example short_round_trip :
  let opened := PaperBroker64.enter run_broker64 "SHORT" 100 nifty_call None "t0" "t1" in
  let closed := PaperBroker64.exit (fst opened) 90 None None "t2" "t3" in
  exists pos pnl,
    PaperBroker.position (fst opened) = Some pos
    /\ Position.entry pos == Binary64.round 99.9
    /\ snd closed = Some pnl
    /\ pnl == 490.5 + (1 # 8796093022208)
    /\ PaperBroker.capital (fst closed) == 99504.5.
Proof.
  cbv zeta. do 2 eexists.
  split; [vm_compute; reflexivity|]. split; [vm_compute; reflexivity|].
  split; [vm_compute; reflexivity|]. split; vm_compute; reflexivity.
Qed.

Example mark_to_market_flat :
  PaperBroker.update_mark_to_market run_broker 123 = 0.
Proof. reflexivity. Qed.

End Fixtures.

(** * Further properties of the code *)

(** ** Time helpers *)

(** X1: [floor_15m] returns the start of the 15-minute bucket that holds
    the timestamp: a 15-minute boundary of the same day and hour, not
    later than the timestamp and less than 15 minutes before it; flooring
    a bucket start changes nothing. *)
Theorem X1_floor_15m_bucket (ts : DT.t) :
  time_ok ts ->
  let slot := floor_15m ts in
  aligned slot
  /\ DT.day slot = DT.day ts /\ DT.hour slot = DT.hour ts
  /\ (DT.to_us slot <= DT.to_us ts < DT.to_us slot + 900000000)%Z
  /\ time_ok slot
  /\ floor_15m slot = slot.
Proof.
  intros (Hh & Hm & Hs & Hu) slot.
  split; [apply floor_15m_aligned|].
  split; [reflexivity|]. split; [reflexivity|].
  unfold slot, floor_15m, time_ok, DT.to_us.
  cbn [DT.day DT.hour DT.minute DT.second DT.microsecond].
  split; [|split].
  - Z.div_mod_to_equations. lia.
  - Z.div_mod_to_equations. lia.
  - f_equal. Z.div_mod_to_equations. lia.
Qed.

(** X1 at 10:14:57.5. *)
Lemma X1_floor_15m_bucket_witness :
  let ts := {| DT.day := 739000; DT.hour := 10; DT.minute := 14;
               DT.second := 57; DT.microsecond := 500000 |} in
  floor_15m ts = clock 10 0 0
  /\ (DT.to_us (floor_15m ts) <= DT.to_us ts
      < DT.to_us (floor_15m ts) + 900000000)%Z
  /\ floor_15m (floor_15m ts) = floor_15m ts.
Proof.
  intro ts. split; [reflexivity|].
  destruct (X1_floor_15m_bucket ts ltac:(unfold time_ok; cbn; lia))
    as (_ & _ & _ & Hw & _ & Hi).
  split; [exact Hw | exact Hi].
Defined.

Lemma floor_15m_in_session (ts : DT.t) :
  in_session ts = true -> in_session (floor_15m ts) = true.
Proof.
  unfold in_session, floor_15m, pair_ge, SESSION_START, SESSION_END, DT.weekday.
  cbn [DT.day DT.hour DT.minute fst snd].
  rewrite !andb_true_iff, !orb_true_iff, !andb_true_iff.
  rewrite !Z.ltb_lt, !Z.eqb_eq, !Z.leb_le.
  intros [[Hw Hs] He]. repeat split.
  - exact Hw.
  - destruct Hs as [Hs|[Hs1 Hs2]]; [now left|right].
    split; [exact Hs1|]. Z.div_mod_to_equations. lia.
  - destruct He as [He|[He1 He2]]; [now left|right].
    split; [exact He1|]. Z.div_mod_to_equations. lia.
Qed.

(** X2: the bucket start of an in-session timestamp is itself in session:
    the session bounds 9:15 and 15:30 are 15-minute boundaries, so no bar
    ever starts outside the session. *)
Theorem X2_floor_15m_stays_in_session (ts : DT.t) :
  in_session ts = true -> in_session (floor_15m ts) = true.
Proof.
  exact (floor_15m_in_session ts).
Qed.

(** X2 at 15:30:59, the last in-session minute. *)
Lemma X2_floor_15m_stays_in_session_witness :
  in_session (clock 15 30 59) = true
  /\ in_session (floor_15m (clock 15 30 59)) = true.
Proof.
  split; [reflexivity|].
  apply (X2_floor_15m_stays_in_session (clock 15 30 59) eq_refl).
Defined.

(** ** The trend indicator, continued *)

Section ADXMore.

Lemma max3_ge_2 (x y z : Q) : y <= Py.max3 x y z.
Proof.
  unfold Py.max3.
  pose proof (max2_ge_r x y). pose proof (max2_ge_l (Py.max2 x y) z). lra.
Qed.

Lemma max3_ge_3 (x y z : Q) : z <= Py.max3 x y z.
Proof.
  unfold Py.max3. apply max2_ge_r.
Qed.

Lemma max3_ge_1 (x y z : Q) : x <= Py.max3 x y z.
Proof.
  unfold Py.max3.
  pose proof (max2_ge_l x y). pose proof (max2_ge_l (Py.max2 x y) z). lra.
Qed.

Lemma decay_nonneg (P x : Q) : 1 <= P -> 0 <= x -> 0 <= x - x / P.
Proof.
  intros HP Hx.
  assert (x / P <= x) by (apply Qle_shift_div_r; nra).
  lra.
Qed.

(** A one-sided pair of directional indicators gives a DX of 100. *)
Lemma dx_one_sided (a b : Q) :
  0 <= a -> 0 <= b -> a == 0 \/ b == 0 -> 0 < a + b ->
  100 * (Qabs (a - b) / (a + b)) == 100.
Proof.
  intros Ha Hb Hz Hpos.
  assert (Habs : Qabs (a - b) == a + b).
  { destruct Hz as [Hz|Hz].
    - rewrite (Qabs_neg (a - b)) by lra. lra.
    - rewrite (Qabs_pos (a - b)) by lra. lra. }
  rewrite Habs. field. lra.
Qed.

End ADXMore.

Section ADXReadings.

Lemma step_adx (pv : ADXTracker.Prev) (P h l c : Q) :
  ADXTracker.adx (ADXTracker.step pv P h l c)
  = if Py.truthy (ADXTracker.adx pv)
    then (ADXTracker.adx pv * (P - 1) + step_dx pv P h l c) / P
    else step_dx pv P h l c.
Proof. reflexivity. Qed.

Lemma step_dx_range (pv : ADXTracker.Prev) (P h l c : Q) :
  1 <= P ->
  0 <= ADXTracker.tr_s pv -> 0 <= ADXTracker.pdm_s pv -> 0 <= ADXTracker.mdm_s pv ->
  0 <= step_dx pv P h l c /\ step_dx pv P h l c <= 100.
Proof.
  intros HP Htr Hp Hm.
  pose proof (ADXFacts.true_range_nonneg h l (ADXTracker.close pv)) as Htrn.
  destruct (ADXFacts.select_dm_nonneg
              (Py.max2 (h - ADXTracker.high pv) 0)
              (Py.max2 (ADXTracker.low pv - l) 0))
    as [Hd1 Hd2]; try apply max2_ge_r.
  pose proof (decay_nonneg P _ HP Htr) as Htr'.
  pose proof (decay_nonneg P _ HP Hp) as Hp'.
  pose proof (decay_nonneg P _ HP Hm) as Hm'.
  unfold step_dx.
  set (tr' := ADXTracker.tr_s pv - ADXTracker.tr_s pv / P + _).
  set (pdm' := ADXTracker.pdm_s pv - ADXTracker.pdm_s pv / P + _).
  set (mdm' := ADXTracker.mdm_s pv - ADXTracker.mdm_s pv / P + _).
  assert (Htr0 : 0 <= tr') by (unfold tr'; lra).
  assert (Hp0 : 0 <= pdm') by (unfold pdm'; lra).
  assert (Hm0 : 0 <= mdm') by (unfold mdm'; lra).
  assert (Hdi : forall x, 0 <= x ->
            0 <= (if Py.truthy tr' then 100 * (x / tr') else 0)).
  { intros x Hx. destruct (Py.truthy tr') eqn:E; [|lra].
    apply truthy_true_iff in E. apply ADXFacts.di_nonneg; [exact Hx|].
    destruct (Qlt_le_dec 0 tr'); [assumption|]. exfalso. apply E. lra. }
  pose proof (Hdi pdm' Hp0) as Hpdi. pose proof (Hdi mdm' Hm0) as Hmdi.
  set (pdi := if Py.truthy tr' then 100 * (pdm' / tr') else 0) in *.
  set (mdi := if Py.truthy tr' then 100 * (mdm' / tr') else 0) in *.
  destruct (Py.truthy (pdi + mdi)) eqn:E.
  - apply ADXFacts.dx_range; try assumption. now apply truthy_true_iff.
  - split; lra.
Qed.

End ADXReadings.

Section FirstReading.

Lemma zero_div (P : Q) : 0 / P == 0.
Proof. unfold Qdiv. apply Qmult_0_l. Qed.

Lemma scaled_ratio_nonneg (x t : Q) : 0 <= x -> 0 < t -> 0 <= 100 * (x / t).
Proof. intros. now apply ADXFacts.di_nonneg. Qed.

Lemma scaled_ratio_zero (x t : Q) : x == 0 -> 100 * (x / t) == 0.
Proof.
  intro H. rewrite H. unfold Qdiv. rewrite Qmult_0_l. apply Qmult_0_r.
Qed.

Lemma scaled_ratio_pos (x t : Q) : 0 < x -> 0 < t -> 0 < 100 * (x / t).
Proof.
  intros Hx Ht.
  assert (0 < x / t) by (apply Qlt_shift_div_l; lra).
  lra.
Qed.

(** The DX of a step in which exactly one smoothed move is non-zero. *)
Lemma dx_moved (t x y : Q) :
  0 < t -> 0 <= x -> 0 <= y -> x == 0 \/ y == 0 -> 0 < x + y ->
  (if Py.truthy (100 * (x / t) + 100 * (y / t))
   then 100 * (Qabs (100 * (x / t) - 100 * (y / t))
               / (100 * (x / t) + 100 * (y / t)))
   else 0) == 100.
Proof.
  intros Ht Hx Hy Hz Hpos.
  pose proof (scaled_ratio_nonneg x t Hx Ht) as Hx'.
  pose proof (scaled_ratio_nonneg y t Hy Ht) as Hy'.
  assert (Hsum : 0 < 100 * (x / t) + 100 * (y / t)).
  { destruct Hz as [Hz|Hz].
    - assert (0 < y) by lra. pose proof (scaled_ratio_pos y t H Ht). lra.
    - assert (0 < x) by lra. pose proof (scaled_ratio_pos x t H Ht). lra. }
  assert (Hone : 100 * (x / t) == 0 \/ 100 * (y / t) == 0).
  { destruct Hz as [Hz|Hz]; [left|right]; now apply scaled_ratio_zero. }
  assert (Htruthy : Py.truthy (100 * (x / t) + 100 * (y / t)) = true)
    by (apply truthy_true_iff; lra).
  rewrite Htruthy. now apply dx_one_sided.
Qed.

(** The DX of a step in which both smoothed moves are zero. *)
Lemma dx_still (t x y : Q) :
  x == 0 -> y == 0 ->
  (if Py.truthy ((if Py.truthy t then 100 * (x / t) else 0)
                 + (if Py.truthy t then 100 * (y / t) else 0))
   then 100 * (Qabs ((if Py.truthy t then 100 * (x / t) else 0)
                     - (if Py.truthy t then 100 * (y / t) else 0))
               / ((if Py.truthy t then 100 * (x / t) else 0)
                  + (if Py.truthy t then 100 * (y / t) else 0)))
   else 0) == 0.
Proof.
  intros Hx Hy.
  assert (Hdi : forall z, z == 0 ->
            (if Py.truthy t then 100 * (z / t) else 0) == 0).
  { intros z Hz. destruct (Py.truthy t); [now apply scaled_ratio_zero | reflexivity]. }
  pose proof (Hdi x Hx) as Hpdi. pose proof (Hdi y Hy) as Hmdi.
  set (pdi := if Py.truthy t then 100 * (x / t) else 0) in *.
  set (mdi := if Py.truthy t then 100 * (y / t) else 0) in *.
  assert (Hz : Py.truthy (pdi + mdi) = false) by (apply truthy_false_iff; lra).
  rewrite Hz. reflexivity.
Qed.

End FirstReading.

(** X3: the first [update] of a fresh tracker (any period from 1) returns
    exactly 100 when the bar extends beyond its own close ([high > close]
    or [low < close]) and exactly 0 otherwise: against the seed only one
    directional move can be non-zero, so the first DX is all or nothing,
    and it is returned unsmoothed. *)
Theorem X3_first_reading_is_zero_or_hundred (period : Z) (h l c : Q) :
  (0 < period)%Z ->
  exists self' v,
    ADXTracker.update (ADXTracker.init period) h l c = Some (self', v)
    /\ (c < h \/ l < c -> v == 100)
    /\ (h <= c /\ c <= l -> v == 0).
Proof.
  intro Hp.
  assert (HP1 : 1 <= inject_Z period) by (unfold Qle, inject_Z; simpl; lia).
  assert (HP0 : ~ inject_Z period == 0) by (apply ADXFacts.period_nonzero; lia).
  set (P := inject_Z period) in *.
  set (pv := {| ADXTracker.close := c; ADXTracker.high := c; ADXTracker.low := c;
                ADXTracker.tr_s := ADXTracker.eps; ADXTracker.pdm_s := 0;
                ADXTracker.mdm_s := 0; ADXTracker.adx := 0 |}).
  pose proof (ADXFacts.update_step (ADXTracker.init period) pv h l c eq_refl HP0)
    as Hu.
  cbn [ADXTracker.p ADXTracker.init] in Hu. fold P in Hu.
  do 2 eexists. split; [exact Hu|].
  rewrite step_adx. cbn [ADXTracker.adx pv].
  change (Py.truthy 0) with false. cbv iota.
  unfold step_dx. cbn [ADXTracker.close ADXTracker.high ADXTracker.low
                       ADXTracker.tr_s ADXTracker.pdm_s ADXTracker.mdm_s pv].
  set (a := Py.max2 (h - c) 0). set (b := Py.max2 (c - l) 0).
  set (tr := Py.max3 (h - l) (Qabs (h - c)) (Qabs (l - c))).
  assert (Ha0 : 0 <= a) by apply max2_ge_r.
  assert (Hb0 : 0 <= b) by apply max2_ge_r.
  assert (Ha1 : h - c <= a) by apply max2_ge_l.
  assert (Hb1 : c - l <= b) by apply max2_ge_l.
  assert (Ha2 : h <= c -> a == 0).
  { intro H. unfold a. destruct (max2_cases (h - c) 0) as [[_ ->]|[? ->]]; lra. }
  assert (Hb2 : c <= l -> b == 0).
  { intro H. unfold b. destruct (max2_cases (c - l) 0) as [[_ ->]|[? ->]]; lra. }
  pose proof (zero_div P) as Hz.
  set (dm := ADXTracker.select_dm a b).
  assert (Hdm : 0 <= fst dm /\ 0 <= snd dm /\ (fst dm == 0 \/ snd dm == 0)
                /\ (0 < a \/ 0 < b -> 0 < fst dm + snd dm)
                /\ (a == 0 -> b == 0 -> fst dm == 0 /\ snd dm == 0)).
  { unfold dm, ADXTracker.select_dm. destruct (Py.lt a b) eqn:E; cbn [fst snd].
    - apply lt_true_iff in E.
      repeat split; first [lra | left; reflexivity | intros; lra].
    - apply lt_false_iff in E.
      repeat split; first [lra | right; reflexivity | intros; lra]. }
  destruct Hdm as (Hd1 & Hd2 & Hd3 & Hd4 & Hd5).
  set (pdm' := 0 - 0 / P + fst dm). set (mdm' := 0 - 0 / P + snd dm).
  assert (Hpdm : pdm' == fst dm) by (unfold pdm'; lra).
  assert (Hmdm : mdm' == snd dm) by (unfold mdm'; lra).
  set (tr' := ADXTracker.eps - ADXTracker.eps / P + tr).
  split.
  - intro Hmoved.
    assert (Htr : 0 < tr).
    { destruct Hmoved as [H|H].
      - pose proof (max3_ge_2 (h - l) (Qabs (h - c)) (Qabs (l - c))).
        pose proof (Qle_Qabs (h - c)). unfold tr. lra.
      - pose proof (max3_ge_3 (h - l) (Qabs (h - c)) (Qabs (l - c))).
        assert (Qabs (l - c) == - (l - c)) by (apply Qabs_neg; lra).
        unfold tr. lra. }
    assert (Htr' : 0 < tr').
    { pose proof (decay_nonneg P ADXTracker.eps HP1 ltac:(unfold ADXTracker.eps; lra)).
      unfold tr'. lra. }
    assert (Ht : Py.truthy tr' = true) by (apply truthy_true_iff; lra).
    rewrite Ht.
    assert (0 < fst dm + snd dm) by (apply Hd4; lra).
    apply dx_moved; lra.
  - intros [Hh Hl].
    destruct (Hd5 (Ha2 Hh) (Hb2 Hl)) as [H1 H2].
    apply dx_still; lra.
Qed.

(** X3 at the bar (110, 100, 105), whose first reading is 100. *)
Lemma X3_first_reading_is_zero_or_hundred_witness :
  exists self' v,
    ADXTracker.update (ADXTracker.init ADX_PERIOD) 110 100 105 = Some (self', v)
    /\ v == 100.
Proof.
  destruct (X3_first_reading_is_zero_or_hundred ADX_PERIOD 110 100 105 eq_refl)
    as (self' & v & Hu & Hm & _).
  exists self', v. split; [exact Hu|].
  apply Hm. left. reflexivity.
Defined.

(** X4: once the stored trend strength is positive it is smoothed on
    every later bar: the new reading is [(prev * (N - 1) + DX) / N] with
    [DX] in [0, 100], so it stays positive (the unsmoothed branch for a
    zero previous reading is never taken again) and it moves by at most
    [100 / N] per bar. *)
Theorem X4_positive_reading_is_smoothed
        (period : Z) (self : ADXTracker.t) (pv : ADXTracker.Prev) (h l c : Q) :
  (1 < period)%Z ->
  ADXTracker.reachable period self ->
  ADXTracker.prev self = Some pv ->
  0 < ADXTracker.adx pv ->
  let P := inject_Z period in
  exists self' v dx,
    ADXTracker.update self h l c = Some (self', v)
    /\ 0 <= dx /\ dx <= 100
    /\ v == (ADXTracker.adx pv * (P - 1) + dx) / P
    /\ 0 < v
    /\ Qabs (v - ADXTracker.adx pv) <= 100 / P.
Proof.
  intros Hp Hr Hpv Hpos P.
  pose proof (ADXFacts.reachable_consistent period self Hp Hr) as [Hper Hc].
  rewrite Hpv in Hc. destruct Hc as [Hready (Htr & Hpd & Hmd & Ha0 & Ha1)].
  assert (Hs : ADXTracker.prev (ADXTracker.seeded self c) = Some pv)
    by (unfold ADXTracker.seeded; now rewrite Hready).
  pose proof (ADXFacts.period_gt_1 period Hp) as HP. fold P in HP.
  assert (HP0 : ~ inject_Z (ADXTracker.p self) == 0)
    by (rewrite Hper; apply ADXFacts.period_nonzero; lia).
  pose proof (ADXFacts.update_step self pv h l c Hs HP0) as Hu.
  rewrite Hper in Hu. fold P in Hu.
  destruct (step_dx_range pv P h l c) as [Hd0 Hd1]; try lra.
  do 2 eexists. exists (step_dx pv P h l c).
  split; [exact Hu|]. split; [exact Hd0|]. split; [exact Hd1|].
  rewrite step_adx.
  assert (Ht : Py.truthy (ADXTracker.adx pv) = true)
    by (apply truthy_true_iff; lra).
  rewrite Ht.
  set (dx := step_dx pv P h l c) in *.
  set (a := ADXTracker.adx pv) in *.
  set (q := (a * (P - 1) + dx) / P).
  assert (Hq : q * P == a * (P - 1) + dx) by (unfold q; field; lra).
  set (e := 100 / P).
  assert (He : e * P == 100) by (unfold e; field; lra).
  split; [reflexivity|]. split.
  - apply (Qmult_lt_r _ _ P); [lra|]. nra.
  - apply Qabs_Qle_condition. split.
    + apply (Qmult_le_r _ _ P); [lra|]. nra.
    + apply (Qmult_le_r _ _ P); [lra|]. nra.
Qed.

(** X4 on the second bar of a run of updates. *)
Lemma X4_positive_reading_is_smoothed_witness :
  exists self0 pv self' v,
    ADXTracker.update (ADXTracker.init ADX_PERIOD) 110 100 105
      = Some (self0, ADXTracker.adx pv)
    /\ ADXTracker.update self0 112 104 111 = Some (self', v)
    /\ 0 < v
    /\ Qabs (v - ADXTracker.adx pv) <= 100 / inject_Z ADX_PERIOD.
Proof.
  destruct (update_reachable ADX_PERIOD (ADXTracker.init ADX_PERIOD) 110 100 105
              eq_refl (ADXTracker.reach_init ADX_PERIOD))
    as (self0 & pv & Hu & Hpv & _ & Hr).
  assert (Hpos : 0 < ADXTracker.adx pv).
  { pose proof Hu as Hc. vm_compute in Hc. injection Hc as _ Hv.
    unfold ADXTracker.adx. rewrite <- Hv. reflexivity. }
  destruct (X4_positive_reading_is_smoothed ADX_PERIOD self0 pv 112 104 111
              eq_refl Hr Hpv Hpos)
    as (self' & v & dx & Hu' & _ & _ & _ & Hv & Hd).
  exists self0, pv, self', v. repeat split; assumption.
Defined.

(** ** The breakout detector, continued *)

Section BreakoutMore.

Lemma tail_app_exact {A : Type} (older recent : list A) (n : nat) :
  length recent = n -> tail n (older ++ recent) = recent.
Proof.
  intro H. unfold tail. rewrite length_app, H.
  replace (length older + n - n)%nat with (length older + 0)%nat by lia.
  rewrite skipn_app, Nat.add_0_r, skipn_all.
  replace (length older - length older)%nat with 0%nat by lia.
  reflexivity.
Qed.

Lemma tail_exact {A : Type} (recent : list A) (n : nat) :
  length recent = n -> tail n recent = recent.
Proof.
  intro H. apply (tail_app_exact [] recent n H).
Qed.

Lemma Forall_tail {A : Type} (P : A -> Prop) (n : nat) (df : list A) :
  Forall P df -> Forall P (tail n df).
Proof.
  intro H. unfold tail. rewrite <- (firstn_skipn (length df - n) df) in H.
  apply Forall_app in H. apply H.
Qed.

End BreakoutMore.

(** X5: the detector is a function of the last four rows alone: whatever
    rows precede them, the outcome is that of the four rows by
    themselves. *)
Theorem X5_only_last_four_rows_matter (older last4 : list Bar.t) :
  length last4 = 4%nat ->
  four_bar_signal (older ++ last4) = four_bar_signal last4.
Proof.
  intro H. unfold four_bar_signal.
  rewrite (tail_app_exact older last4 4 H), (tail_exact last4 4 H).
  assert (H1 : (length (older ++ last4) <? 4)%nat = false)
    by (apply Nat.ltb_ge; rewrite length_app; lia).
  assert (H2 : (length last4 <? 4)%nat = false) by (apply Nat.ltb_ge; lia).
  now rewrite H1, H2.
Qed.

(** X5 with two older rows in front of a rising window. *)
Lemma X5_only_last_four_rows_matter_witness :
  four_bar_signal ([bar_at 8 30 9 9 9 9; bar_at 8 45 8 8 8 8]
                     ++ [bar_at 9 0 1 5 1 2; bar_at 9 15 2 7 0 3;
                         bar_at 9 30 3 6 2 4; bar_at 9 45 4 6 3 5])
  = four_bar_signal [bar_at 9 0 1 5 1 2; bar_at 9 15 2 7 0 3;
                     bar_at 9 30 3 6 2 4; bar_at 9 45 4 6 3 5].
Proof.
  apply (X5_only_last_four_rows_matter
           [bar_at 8 30 9 9 9 9; bar_at 8 45 8 8 8 8]
           [bar_at 9 0 1 5 1 2; bar_at 9 15 2 7 0 3;
            bar_at 9 30 3 6 2 4; bar_at 9 45 4 6 3 5] eq_refl).
Defined.

(** X6: on bars with [low <= open, close <= high], the box of a signal
    spans the last four bars: [box_low <= box_high], and every one of the
    four has its low, high and close inside the box.  So a LONG trigger is
    at or above all four closes and a SHORT trigger at or below them. *)
Theorem X6_box_spans_last_four_bars (df : list Bar.t) (s : Signal.t) :
  Forall Bar.ohlc_ok df ->
  four_bar_signal df = Some s ->
  Signal.box_low s <= Signal.box_high s
  /\ Forall (fun b => Signal.box_low s <= Bar.low b
                      /\ Bar.high b <= Signal.box_high s
                      /\ Signal.box_low s <= Bar.close b
                      /\ Bar.close b <= Signal.box_high s) (tail 4 df)
  /\ (Signal.dir s = "LONG"%string ->
      Forall (fun b => Bar.close b <= Signal.trigger s) (tail 4 df))
  /\ (Signal.dir s = "SHORT"%string ->
      Forall (fun b => Signal.trigger s <= Bar.close b) (tail 4 df)).
Proof.
  intros Hok Hs.
  destruct (Nat.lt_ge_cases (length df) 4) as [Hlt|Hge].
  { rewrite (four_bar_signal_short df Hlt) in Hs. discriminate. }
  destruct (tail4_shape df Hge) as (ba & bb & bc & bd & Ht).
  pose proof (Forall_tail _ 4 df Hok) as Hok4. rewrite Ht in Hok4.
  pose proof (fold_max2_spec [Bar.high bb; Bar.high bc; Bar.high bd] (Bar.high ba))
    as [Hmax_in Hmax].
  pose proof (fold_min2_spec [Bar.low bb; Bar.low bc; Bar.low bd] (Bar.low ba))
    as [Hmin_in Hmin].
  set (bh := fold_left Py.max2 [Bar.high bb; Bar.high bc; Bar.high bd] (Bar.high ba))
    in *.
  set (bl := fold_left Py.min2 [Bar.low bb; Bar.low bc; Bar.low bd] (Bar.low ba))
    in *.
  assert (Hbox : Forall (fun b => bl <= Bar.low b /\ Bar.high b <= bh
                                  /\ bl <= Bar.close b /\ Bar.close b <= bh)
                        [ba; bb; bc; bd]).
  { assert (Hin : forall b, In b [ba; bb; bc; bd] ->
                    In (Bar.high b) [Bar.high ba; Bar.high bb; Bar.high bc; Bar.high bd]
                    /\ In (Bar.low b) [Bar.low ba; Bar.low bb; Bar.low bc; Bar.low bd]).
    { intros b Hb. split.
      - apply (in_map Bar.high) in Hb. exact Hb.
      - apply (in_map Bar.low) in Hb. exact Hb. }
    rewrite Forall_forall in *. intros b Hb.
    destruct (Hin b Hb) as [Hh Hl].
    specialize (Hmax _ Hh). specialize (Hmin _ Hl).
    destruct (Hok4 b Hb) as (H1 & H2 & H3 & H4).
    repeat split; lra. }
  assert (Hle : bl <= bh).
  { inversion Hbox as [|? ? (H1 & H2 & H3 & H4) _]. lra. }
  assert (Hshape : (Signal.box_high s = bh /\ Signal.box_low s = bl)
                   /\ ((Signal.dir s = "LONG"%string /\ Signal.trigger s = bh)
                       \/ (Signal.dir s = "SHORT"%string /\ Signal.trigger s = bl))).
  { destruct (four_bar_signal_last4 df ba bb bc bd Hge Ht)
      as [[_ Hr]|[[_ Hr]|(_ & _ & Hr)]]; rewrite Hr in Hs;
      try discriminate; injection Hs as <-; cbn; split; try (now split).
    - left. now split.
    - right. now split. }
  destruct Hshape as [[Hbh Hbl] Hdir].
  rewrite Ht, Hbh, Hbl.
  split; [exact Hle|]. split; [exact Hbox|].
  split; intro Hd; destruct Hdir as [[Hd' Htr]|[Hd' Htr]];
    try (rewrite Hd in Hd'; discriminate);
    rewrite Htr; rewrite Forall_forall in *; intros b Hb;
    destruct (Hbox b Hb) as (H1 & H2 & H3 & H4); lra.
Qed.

(** X6 on a rising window. *)
Lemma X6_box_spans_last_four_bars_witness :
  exists s,
    four_bar_signal [bar_at 9 0 1 5 1 2; bar_at 9 15 2 7 0 3;
                     bar_at 9 30 3 6 2 4; bar_at 9 45 4 6 3 5] = Some s
    /\ Signal.box_low s <= Signal.box_high s.
Proof.
  eexists. split; [reflexivity|].
  refine (proj1 (X6_box_spans_last_four_bars
                   [bar_at 9 0 1 5 1 2; bar_at 9 15 2 7 0 3;
                    bar_at 9 30 3 6 2 4; bar_at 9 45 4 6 3 5] _ _ eq_refl)).
  repeat constructor; cbn; discriminate.
Defined.

(** ** The rows of the frame along a run *)

Section LoopRows.

Lemma StronglySorted_snoc {A : Type} (R : A -> A -> Prop) (l : list A) (x : A) :
  StronglySorted R l -> Forall (fun y => R y x) l -> StronglySorted R (l ++ [x]).
Proof.
  induction 1 as [|a l Hs IH Ha]; intro Hx; cbn.
  - constructor; constructor.
  - inversion Hx as [|? ? Hax Hlx]; subst.
    constructor; [now apply IH|].
    apply Forall_app. split; [exact Ha|]. now constructor.
Qed.

Lemma update_leaves_ready (period : Z) (self self' : ADXTracker.t) (h l c v : Q) :
  (1 < period)%Z ->
  ADXTracker.reachable period self ->
  ADXTracker.update self h l c = Some (self', v) ->
  ADXTracker.ready self' = true.
Proof.
  intros Hp Hr Hu.
  pose proof (ADXFacts.reachable_consistent period self Hp Hr) as Hc.
  destruct (ADXFacts.consistent_seeded period self c Hc) as (pv & Hpv & _).
  destruct Hc as [Hper _].
  rewrite (ADXFacts.update_step self pv h l c Hpv) in Hu
    by (rewrite Hper; apply ADXFacts.period_nonzero; lia).
  now injection Hu as <- _.
Qed.

Lemma rows_inv_open (bars : list Bar.t) (nowi : DT.t) (spot : Q) :
  rows_inv bars ->
  in_session nowi = true ->
  Forall (fun x => DT.le (Bar.datetime x)
                         (DT.sub_minutes (floor_15m nowi) 15) = true) bars ->
  rows_inv (bars ++ [fresh_bar (floor_15m nowi) spot]).
Proof.
  intros (Hok & Hal & Hs) Hsess Hrows. split; [|split].
  - apply Forall_app. split; [exact Hok|].
    constructor; [apply fresh_bar_ok | constructor].
  - apply Forall_app. split; [exact Hal|].
    constructor; [|constructor]. cbn [fresh_bar Bar.datetime].
    split; [apply floor_15m_aligned | now apply floor_15m_in_session].
  - unfold bucket_starts. rewrite map_app. cbn [map fresh_bar Bar.datetime].
    apply StronglySorted_snoc; [exact Hs|].
    apply Forall_map. rewrite Forall_forall in *. intros x Hx.
    specialize (Hrows x Hx). unfold DT.le in Hrows.
    rewrite to_us_sub_minutes in Hrows. apply Z.leb_le in Hrows. lia.
Qed.

Lemma rows_inv_same (before : list Bar.t) (b : Bar.t) (spot : Q) :
  rows_inv (before ++ [b]) -> rows_inv (before ++ [widen b spot]).
Proof.
  intros (Hok & Hal & Hs).
  apply Forall_app in Hok. destruct Hok as [Hok1 Hok2].
  apply Forall_app in Hal. destruct Hal as [Hal1 Hal2].
  split; [|split].
  - apply Forall_app. split; [exact Hok1|].
    constructor; [|constructor]. apply widen_ok. now inversion Hok2.
  - apply Forall_app. split; [exact Hal1|].
    constructor; [|constructor]. now inversion Hal2.
  - unfold bucket_starts in *. rewrite map_app in *. exact Hs.
Qed.

End LoopRows.

(** X7: in every state the loop reaches, the rows of [bars] satisfy
    [low <= open, close <= high], start on 15-minute boundaries inside the
    session, and have strictly increasing bucket starts (no bucket
    twice); [last_completed] is unset exactly while there is no row, and
    the tracker is ready as soon as there is one. *)
Theorem X7_loop_rows_invariant (st : LoopState) :
  loop_reachable st ->
  rows_inv (bars st)
  /\ (bars st = [] <-> last_completed st = None)
  /\ (bars st <> [] -> ADXTracker.ready (adx st) = true).
Proof.
  induction 1 as [|st nowi is_closed spot st' ev calls Hr IH Ht].
  - split; [|split].
    + repeat split; constructor.
    + split; reflexivity.
    + intro H. now contradiction H.
  - pose proof (loop_reachable_inv st Hr) as Hinv.
    unfold tick in Ht.
    destruct (in_session nowi) eqn:Hsess; cbn [negb orb] in Ht;
      [|now injection Ht as <- _ _].
    destruct is_closed; [now injection Ht as <- _ _|].
    destruct (Qeq_dec spot 0) as [Hz|Hnz].
    { rewrite (on_sample_zero _ _ _ Hz) in Ht. now injection Ht as <- _ _. }
    destruct IH as (Hrows & Hlc & Hready).
    assert (Hopen_case :
              (bars st = [] \/
               exists before b,
                 bars st = before ++ [b]
                 /\ DT.lt (Bar.datetime b) (floor_15m nowi) = true) ->
              rows_inv (bars st')
              /\ (bars st' = [] <-> last_completed st' = None)
              /\ (bars st' <> [] -> ADXTracker.ready (adx st') = true)).
    { intro Hopen.
      pose proof (rows_completed st (floor_15m nowi) Hinv
                    (floor_15m_aligned nowi) Hopen) as Hcomp.
      destruct (on_sample_open st nowi spot Hinv Hnz Hopen)
        as (adx' & v & Hu & Ht' & _).
      rewrite Ht' in Ht. injection Ht as <- _ _. cbn [bars last_completed adx].
      split; [now apply rows_inv_open|]. split.
      - split; [intro E; now destruct (bars st) | discriminate].
      - intros _. destruct Hinv as (_ & _ & Hreach).
        apply (update_leaves_ready ADX_PERIOD (adx st) adx' _ _ _ v eq_refl Hreach Hu). }
    destruct (last_or_nil (bars st)) as [E|(before & b & E)].
    + apply Hopen_case. now left.
    + destruct (DT.lt (Bar.datetime b) (floor_15m nowi)) eqn:Hlt.
      * apply Hopen_case. right. now exists before, b.
      * destruct (on_sample_same st nowi spot before b Hinv Hnz E Hlt) as [Ht' _].
        rewrite Ht' in Ht. injection Ht as <- _ _. cbn [bars last_completed adx].
        rewrite E in Hrows.
        split; [now apply rows_inv_same|]. split.
        -- split; [intro E'; now destruct before|].
           intro Hn. apply Hlc in Hn. rewrite E in Hn. now destruct before.
        -- intros _. apply Hready. rewrite E. now destruct before.
Qed.

(** X7 after the first tick of a run. *)
Lemma X7_loop_rows_invariant_witness :
  exists st ev calls,
    tick run_init (clock 9 15 3) false 100 = Some (st, ev, calls)
    /\ rows_inv (bars st)
    /\ ADXTracker.ready (adx st) = true.
Proof.
  destruct (tick run_init (clock 9 15 3) false 100) as [[[st ev] calls]|] eqn:Ht;
    [|vm_compute in Ht; discriminate].
  exists st, ev, calls. split; [reflexivity|].
  destruct (X7_loop_rows_invariant st
              (loop_tick run_init (clock 9 15 3) false 100 st ev calls
                         loop_init Ht))
    as (Hrows & _ & Hready).
  split; [exact Hrows|]. apply Hready.
  vm_compute in Ht. injection Ht as <- _ _. discriminate.
Defined.

(** ** The broker and its audit log over sequences of calls *)

Section BrokerLog.

Lemma count_event_snoc (event : string) (log : list LogRecord.t) (r : LogRecord.t) :
  count_event event (log ++ [r])
  = (count_event event log
     + if String.eqb (LogRecord.event r) event then 1 else 0)%nat.
Proof.
  unfold count_event. rewrite filter_app, length_app. cbn [filter].
  destruct (String.eqb (LogRecord.event r) event); reflexivity.
Qed.

Lemma present_app {A : Type} (xs ys : list (option A)) :
  Dashboard.present (xs ++ ys) = Dashboard.present xs ++ Dashboard.present ys.
Proof.
  induction xs as [|[x|] xs IH]; cbn; [reflexivity | now rewrite IH | exact IH].
Qed.

Lemma has_column_snoc {A : Type} (cell : LogRecord.t -> option A)
      (log : list LogRecord.t) (r : LogRecord.t) :
  Dashboard.has_column cell (log ++ [r])
  = Dashboard.has_column cell log
    || match cell r with Some _ => true | None => false end.
Proof.
  unfold Dashboard.has_column. rewrite existsb_app. cbn [existsb].
  now rewrite orb_false_r.
Qed.

(** What one call does to the log: it appends one record. *)
Lemma apply_op_log (self : PaperBroker.t) (op : BrokerOp) :
  exists r,
    PaperBroker.log (apply_op self op) = PaperBroker.log self ++ [r]
    /\ (LogRecord.event r = "OPEN" \/ LogRecord.event r = "CLOSE"
        \/ LogRecord.event r = "REJECTED")%string
    /\ PaperBroker.initial_capital (apply_op self op)
       = PaperBroker.initial_capital self
    /\ PaperBroker.slippage_pct (apply_op self op)
       = PaperBroker.slippage_pct self
    /\ PaperBroker.log_file (apply_op self op) = PaperBroker.log_file self.
Proof.
  destruct op as [side price contract ts n1 n2|price ts reason n1 n2];
    unfold apply_op, PaperBroker.enter, PaperBroker.exit.
  - destruct (PaperBroker.position self); [|destruct (Py.lt _ _)]; cbn;
      eexists; (split; [reflexivity|]); cbn; tauto.
  - destruct (PaperBroker.position self); cbn;
      eexists; (split; [reflexivity|]); cbn; tauto.
Qed.

Lemma broker_inv_init (initial_capital : Q) (log_file : string) (slippage_pct : Q) :
  broker_inv (PaperBroker.init initial_capital log_file slippage_pct []).
Proof.
  unfold broker_inv, held. cbn.
  repeat split; try discriminate; try tauto; try (intro H; now contradiction H).
Qed.

Lemma broker_inv_apply_op (self : PaperBroker.t) (op : BrokerOp) :
  broker_inv self -> broker_inv (apply_op self op).
Proof.
  intros (Hot & Hcount & Hclosed & Hpnl & Hside & Hopen).
  destruct op as [side price contract ts n1 n2|price ts reason n1 n2];
    unfold apply_op, PaperBroker.enter, PaperBroker.exit.
  - destruct (PaperBroker.position self) as [pos|] eqn:Hpos.
    + (* rejected: already in position *)
      unfold broker_inv, held, count_event, Dashboard.has_column in *.
      cbn. rewrite Hpos in *.
      rewrite !filter_app, !length_app, map_app, present_app, existsb_app.
      cbn. rewrite !app_nil_r, orb_false_r, !Nat.add_0_r.
      repeat split; try tauto; try assumption; try lia.
    + destruct (Py.lt _ _).
      * (* rejected: insufficient capital *)
        unfold broker_inv, held, count_event, Dashboard.has_column in *.
        cbn. rewrite Hpos in *.
        rewrite !filter_app, !length_app, map_app, present_app, existsb_app.
        cbn. rewrite !app_nil_r, orb_false_r, !Nat.add_0_r.
        repeat split; try tauto; try assumption; try lia;
          try (intros pos' Hp'; discriminate).
      * (* opened *)
        unfold broker_inv, held, count_event, Dashboard.has_column in *.
        cbn. rewrite Hpos in *.
        rewrite !filter_app, !length_app, map_app, present_app, existsb_app.
        cbn. rewrite !app_nil_r, orb_false_r, !Nat.add_0_r in *.
        repeat split; try discriminate; try tauto; try assumption; try lia.
        intros pos' Hp'. injection Hp' as <-.
        rewrite iloc_last_app. eexists. split; [reflexivity|]. cbn. tauto.
  - destruct (PaperBroker.position self) as [pos|] eqn:Hpos.
    + (* closed *)
      unfold broker_inv, held, count_event, Dashboard.has_column in *.
      cbn. rewrite Hpos in *.
      rewrite !filter_app, !length_app, !map_app, present_app, existsb_app.
      cbn. rewrite !app_nil_r, orb_true_r, !Nat.add_0_r.
      repeat split; try discriminate; try tauto; try lia.
      * now rewrite Hpnl.
      * intros _ E. now destruct (PaperBroker.closed_trades self).
    + (* rejected: nothing to exit *)
      unfold broker_inv, held, count_event, Dashboard.has_column in *.
      cbn. rewrite Hpos in *.
      rewrite !filter_app, !length_app, map_app, present_app, existsb_app.
      cbn. rewrite !app_nil_r, orb_false_r, !Nat.add_0_r.
      repeat split; try tauto; try assumption; try lia;
        try (intros pos' Hp'; discriminate).
Qed.

Lemma broker_inv_apply_ops (ops : list BrokerOp) (self : PaperBroker.t) :
  broker_inv self -> broker_inv (apply_ops self ops).
Proof.
  revert self. unfold apply_ops.
  induction ops as [|op ops IH]; intros self H; cbn [fold_left]; [exact H|].
  apply IH. now apply broker_inv_apply_op.
Qed.

End BrokerLog.

Lemma log_grows_by_calls (ops : list BrokerOp) (self : PaperBroker.t) :
  exists appended,
    PaperBroker.log (apply_ops self ops) = PaperBroker.log self ++ appended
    /\ length appended = length ops.
Proof.
  revert self. unfold apply_ops.
  induction ops as [|op ops IH]; intro self; cbn [fold_left].
  - exists []. now rewrite app_nil_r.
  - destruct (apply_op_log self op) as (r & Hr & _).
    destruct (IH (apply_op self op)) as (rest & Hrest & Hlen).
    exists (r :: rest). rewrite Hrest, Hr, <- app_assoc. cbn [app length].
    split; [reflexivity | now rewrite Hlen].
Qed.

(** X8: every call on the broker, accepted or rejected, appends exactly
    one record (OPEN, CLOSE or REJECTED) to the audit log and leaves the
    earlier records in place; no call changes [initial_capital],
    [slippage_pct] or the log file name. *)
Theorem X8_one_audit_record_per_call (ops : list BrokerOp) (self : PaperBroker.t) :
  exists appended,
    PaperBroker.log (apply_ops self ops) = PaperBroker.log self ++ appended
    /\ length appended = length ops
    /\ Forall (fun r => LogRecord.event r = "OPEN" \/ LogRecord.event r = "CLOSE"
                        \/ LogRecord.event r = "REJECTED")%string appended
    /\ PaperBroker.initial_capital (apply_ops self ops)
       = PaperBroker.initial_capital self
    /\ PaperBroker.slippage_pct (apply_ops self ops)
       = PaperBroker.slippage_pct self
    /\ PaperBroker.log_file (apply_ops self ops) = PaperBroker.log_file self.
Proof.
  revert self. unfold apply_ops.
  induction ops as [|op ops IH]; intro self; cbn [fold_left].
  - exists []. rewrite app_nil_r. repeat split. constructor.
  - destruct (apply_op_log self op) as (r & Hr & Hev & Hic & Hsl & Hlf).
    destruct (IH (apply_op self op)) as (rest & Hrest & Hlen & Hall & Hic' & Hsl' & Hlf').
    exists (r :: rest).
    rewrite Hrest, Hr, <- app_assoc. cbn [app length].
    split; [reflexivity|]. split; [now rewrite Hlen|].
    split; [now constructor|].
    repeat split; congruence.
Qed.

(** X9: for a broker whose log started empty, after any sequence of
    calls: a position is held exactly when [open_time] is set; the log
    holds one more OPEN than CLOSE record while a position is held and as
    many otherwise; and the number of CLOSE records is [num_trades] of
    [summary]. *)
Theorem X9_log_counts_match_state
        (initial_capital : Q) (log_file : string) (slippage_pct : Q)
        (ops : list BrokerOp) :
  let b := apply_ops (PaperBroker.init initial_capital log_file slippage_pct []) ops in
  (PaperBroker.position b = None <-> PaperBroker.open_time b = None)
  /\ count_event "OPEN" (PaperBroker.log b)
     = (count_event "CLOSE" (PaperBroker.log b) + held b)%nat
  /\ count_event "CLOSE" (PaperBroker.log b)
     = PaperBroker.num_trades (PaperBroker.summary b)
  /\ length (PaperBroker.log b) = length ops.
Proof.
  intro b.
  pose proof (broker_inv_apply_ops ops _
                (broker_inv_init initial_capital log_file slippage_pct))
    as (H1 & H2 & H3 & _).
  fold b in H1, H2, H3.
  split; [exact H1|]. split; [exact H2|]. split; [exact H3|].
  destruct (log_grows_by_calls ops
              (PaperBroker.init initial_capital log_file slippage_pct []))
    as (appended & Hlog & Hlen).
  fold b in Hlog. rewrite Hlog. cbn. exact Hlen.
Qed.

(** ** The dashboard's reading of the broker's log *)

(** X10: on the log of a broker that started with an empty log, the
    dashboard's test for an open position ([more OPEN than CLOSE
    records]) is true exactly when the broker holds a position. *)
Theorem X10_dashboard_open_test_matches_broker
        (initial_capital : Q) (log_file : string) (slippage_pct : Q)
        (ops : list BrokerOp) :
  let b := apply_ops (PaperBroker.init initial_capital log_file slippage_pct []) ops in
  Dashboard.shows_open_position (PaperBroker.log b) = true
  <-> exists pos, PaperBroker.position b = Some pos.
Proof.
  intro b.
  pose proof (broker_inv_apply_ops ops _
                (broker_inv_init initial_capital log_file slippage_pct))
    as (_ & H2 & _).
  fold b in H2. unfold Dashboard.shows_open_position. rewrite H2, Nat.ltb_lt.
  unfold held. destruct (PaperBroker.position b) as [pos|].
  - split; [intros _; now exists pos | intros _; lia].
  - split; [lia | intros [pos H]; discriminate].
Qed.

(** X11: on such a log the dashboard's "Total PnL" is [total_pnl] of the
    broker's [summary], while its "Number of Trades" is the number of
    audit records, one per call: at least two per closed trade, plus one
    for an open position. *)
Theorem X11_dashboard_totals
        (initial_capital : Q) (log_file : string) (slippage_pct : Q)
        (ops : list BrokerOp) :
  let b := apply_ops (PaperBroker.init initial_capital log_file slippage_pct []) ops in
  Dashboard.total_pnl (PaperBroker.log b)
  = PaperBroker.total_pnl (PaperBroker.summary b)
  /\ Dashboard.number_of_trades (PaperBroker.log b) = length ops
  /\ (2 * PaperBroker.num_trades (PaperBroker.summary b) + held b
      <= Dashboard.number_of_trades (PaperBroker.log b))%nat.
Proof.
  intro b.
  pose proof (broker_inv_apply_ops ops _
                (broker_inv_init initial_capital log_file slippage_pct))
    as (_ & H2 & H3 & H4 & _).
  fold b in H2, H3, H4.
  split; [|split].
  - unfold Dashboard.total_pnl, PaperBroker.summary. cbn [PaperBroker.total_pnl].
    rewrite H4.
    destruct (Dashboard.has_column Dashboard.pnl_cell (PaperBroker.log b)) eqn:E;
      [reflexivity|].
    assert (Hnil : Dashboard.present (map Dashboard.pnl_cell (PaperBroker.log b)) = []).
    { clear - E. unfold Dashboard.has_column in E.
      induction (PaperBroker.log b) as [|r log IH]; [reflexivity|].
      cbn in *. destruct (Dashboard.pnl_cell r); [discriminate|].
      now apply IH. }
    rewrite H4 in Hnil. now rewrite Hnil.
  - destruct (log_grows_by_calls ops
                (PaperBroker.init initial_capital log_file slippage_pct []))
      as (appended & Hlog & Hlen).
    fold b in Hlog. unfold Dashboard.number_of_trades. rewrite Hlog. exact Hlen.
  - unfold Dashboard.number_of_trades, PaperBroker.summary.
    cbn [PaperBroker.num_trades]. rewrite <- H3.
    assert (Hsplit : (count_event "OPEN" (PaperBroker.log b)
                      + count_event "CLOSE" (PaperBroker.log b)
                      <= length (PaperBroker.log b))%nat).
    { clear. unfold count_event.
      induction (PaperBroker.log b) as [|r log IH]; [cbn; lia|].
      cbn [filter length].
      destruct (String.eqb (LogRecord.event r) "OPEN") eqn:E1.
      - apply String.eqb_eq in E1. rewrite E1. cbn. lia.
      - destruct (String.eqb (LogRecord.event r) "CLOSE"); cbn [length]; lia. }
    lia.
Qed.

(** X12: the open-position banner of the dashboard, on the log of a
    broker that started with an empty log.  Without a held position no
    banner is shown.  With a held position and at least one closed trade
    the banner shows the position's quantity, entry fill and contract, and
    a missing side (the OPEN record has no ["side"] key).  With a held
    position and no closed trade yet, no record has a ["side"] key at all
    and [last_open['side']] raises [KeyError]. *)
Theorem X12_dashboard_banner
        (initial_capital : Q) (log_file : string) (slippage_pct : Q)
        (ops : list BrokerOp) :
  let b := apply_ops (PaperBroker.init initial_capital log_file slippage_pct []) ops in
  (PaperBroker.position b = None ->
   Dashboard.open_position_banner (PaperBroker.log b) = Some None)
  /\ (forall pos,
        PaperBroker.position b = Some pos ->
        PaperBroker.closed_trades b <> [] ->
        Dashboard.open_position_banner (PaperBroker.log b)
        = Some (Some {| Dashboard.b_side := None;
                        Dashboard.b_qty := Some (Position.qty pos);
                        Dashboard.b_entry_price := Some (Position.entry pos);
                        Dashboard.b_contract := Some (Position.contract pos) |}))
  /\ (Dashboard.open_position_banner (PaperBroker.log b) = None
      <-> (exists pos, PaperBroker.position b = Some pos)
          /\ PaperBroker.closed_trades b = []).
Proof.
  intro b.
  pose proof (broker_inv_apply_ops ops _
                (broker_inv_init initial_capital log_file slippage_pct))
    as (_ & H2 & _ & _ & Hside & Hopen).
  fold b in H2, Hside, Hopen.
  assert (Hshow : Dashboard.shows_open_position (PaperBroker.log b)
                  = match PaperBroker.position b with
                    | Some _ => true
                    | None => false
                    end).
  { unfold Dashboard.shows_open_position. rewrite H2. unfold held.
    destruct (PaperBroker.position b); [apply Nat.ltb_lt | apply Nat.ltb_ge]; lia. }
  unfold Dashboard.open_position_banner. rewrite Hshow.
  destruct (PaperBroker.position b) as [pos|] eqn:Hpos.
  - destruct (Hopen pos eq_refl) as (r & Hr & He & Hq & Hc & Hs).
    rewrite Hr, He, Hq, Hc, Hs.
    split; [discriminate|]. split.
    + intros pos' Hp' Hne. injection Hp' as <-.
      apply Hside in Hne. now rewrite Hne.
    + destruct (Dashboard.has_column Dashboard.side_cell (PaperBroker.log b)) eqn:E.
      * split; [discriminate|]. intros [_ Hnil].
        exfalso. now apply (proj1 Hside eq_refl).
      * split; [|reflexivity]. intros _. split; [now exists pos|].
        destruct (PaperBroker.closed_trades b) as [|t ts]; [reflexivity|].
        assert (Hne : t :: ts <> []) by discriminate.
        apply Hside in Hne. discriminate.
  - split; [reflexivity|]. split; [discriminate|].
    split; [discriminate | intros [[pos H] _]; discriminate].
Qed.

(** X13: right after a successful [close] the dashboard's "Current
    Capital" (the last row's [capital_post]) is the broker's capital; the
    record of any call made next (an OPEN or a REJECTED one, the account
    being flat) has no [capital_post], so the value read becomes a missing
    one until the next close. *)
Theorem X13_dashboard_current_capital
        (self : PaperBroker.t) (pos : Position.t) (price : Q)
        (timestamp reason : option string) (now_stamp now_log : string)
        (next : BrokerOp) :
  PaperBroker.position self = Some pos ->
  let closed := fst (PaperBroker.exit self price timestamp reason now_stamp now_log) in
  Dashboard.curr_cap (PaperBroker.log closed)
  = Some (Some (PaperBroker.capital closed))
  /\ Dashboard.curr_cap (PaperBroker.log (apply_op closed next)) = Some None.
Proof.
  intros Hpos closed.
  assert (Hc : exists r,
             PaperBroker.log closed = PaperBroker.log self ++ [r]
             /\ Dashboard.capital_post_cell r = Some (PaperBroker.capital closed)
             /\ PaperBroker.position closed = None).
  { unfold closed, PaperBroker.exit. rewrite Hpos. cbn.
    eexists. split; [reflexivity|]. split; reflexivity. }
  destruct Hc as (r & Hlog & Hcell & Hflat).
  assert (Hcol : Dashboard.has_column Dashboard.capital_post_cell
                                      (PaperBroker.log closed) = true).
  { rewrite Hlog, has_column_snoc, Hcell. apply orb_true_r. }
  split.
  - unfold Dashboard.curr_cap. rewrite Hcol, Hlog, map_app. cbn [map].
    now rewrite iloc_last_app, Hcell.
  - assert (Hn : exists r',
               PaperBroker.log (apply_op closed next)
               = PaperBroker.log closed ++ [r']
               /\ Dashboard.capital_post_cell r' = None).
    { destruct next as [side q contract ts n1 n2|q ts why n1 n2];
        unfold apply_op, PaperBroker.enter, PaperBroker.exit; rewrite Hflat.
      - destruct (Py.lt _ _); cbn; eexists; split; reflexivity.
      - cbn. eexists. split; reflexivity. }
    destruct Hn as (r' & Hlog' & Hcell').
    unfold Dashboard.curr_cap.
    rewrite Hlog', has_column_snoc, Hcol, map_app. cbn [map orb].
    now rewrite iloc_last_app, Hcell'.
Qed.

(** X13 on a round trip followed by a rejected close. *)
Lemma X13_dashboard_current_capital_witness :
  let held := fst (PaperBroker.enter run_broker "LONG" 100 nifty_call None "t0" "t1") in
  let closed := fst (PaperBroker.exit held 110 None None "t2" "t3") in
  Dashboard.curr_cap (PaperBroker.log closed)
  = Some (Some (PaperBroker.capital closed))
  /\ Dashboard.curr_cap
       (PaperBroker.log (apply_op closed (OpExit 111 None None "t4" "t5")))
     = Some None.
Proof.
  cbv zeta.
  refine (X13_dashboard_current_capital
            (fst (PaperBroker.enter run_broker "LONG" 100 nifty_call None "t0" "t1"))
            _ 110 None None "t2" "t3" (OpExit 111 None None "t4" "t5") _).
  reflexivity.
Defined.

(** ** The broker's arithmetic *)

(** X14: while a position is held, marking it to market at the price it
    was filled at gives 0, and marking it at the fill price a [close]
    would get gives exactly the pnl that [close] realizes and returns. *)
Theorem X14_mark_to_market_agrees_with_close
        (self : PaperBroker.t) (pos : Position.t) (price : Q)
        (timestamp reason : option string) (now_stamp now_log : string) :
  PaperBroker.position self = Some pos ->
  let closed := PaperBroker.exit self price timestamp reason now_stamp now_log in
  PaperBroker.update_mark_to_market self (Position.entry pos) == 0
  /\ exists trade,
       PaperBroker.closed_trades (fst closed)
       = PaperBroker.closed_trades self ++ [trade]
       /\ snd closed = Some (Trade.pnl trade)
       /\ PaperBroker.update_mark_to_market self (Trade.exit_price trade)
          = Trade.pnl trade.
Proof.
  intros Hpos closed. split.
  - unfold PaperBroker.update_mark_to_market. rewrite Hpos.
    destruct (String.eqb (Position.side pos) "LONG"); ring.
  - destruct (exit_held self pos price timestamp reason now_stamp now_log Hpos)
      as (closed' & Hx & _ & _ & _ & Hct & _).
    unfold closed. rewrite Hx. cbn [fst snd].
    eexists. split; [exact Hct|]. cbn [Trade.pnl Trade.exit_price].
    split; [reflexivity|].
    unfold PaperBroker.update_mark_to_market. rewrite Hpos. reflexivity.
Qed.

(** X14 on a LONG position opened at quote 100 and closed at 110. *)
Lemma X14_mark_to_market_agrees_with_close_witness :
  let held := fst (PaperBroker.enter run_broker "LONG" 100 nifty_call None "t0" "t1") in
  exists trade,
    snd (PaperBroker.exit held 110 None None "t2" "t3") = Some (Trade.pnl trade)
    /\ PaperBroker.update_mark_to_market held (Trade.exit_price trade)
       = Trade.pnl trade.
Proof.
  cbv zeta.
  destruct (X14_mark_to_market_agrees_with_close
              (fst (PaperBroker.enter run_broker "LONG" 100 nifty_call None "t0" "t1"))
              _ 110 None None "t2" "t3" eq_refl)
    as (_ & trade & _ & H1 & H2).
  now exists trade.
Defined.

Section CapitalBound.

Lemma capital_nonneg_step (s : Q) (self : PaperBroker.t) (op : BrokerOp) :
  0 <= s -> s <= 1 -> 0 <= op_price op ->
  (0 <= PaperBroker.capital self
   /\ PaperBroker.slippage_pct self = s
   /\ forall pos, PaperBroker.position self = Some pos -> Position.qty pos = 50%Z) ->
  0 <= PaperBroker.capital (apply_op self op)
  /\ PaperBroker.slippage_pct (apply_op self op) = s
  /\ forall pos, PaperBroker.position (apply_op self op) = Some pos ->
                 Position.qty pos = 50%Z.
Proof.
  intros Hs0 Hs1 Hprice (Hcap & Hslip & Hqty).
  destruct op as [side price contract ts n1 n2|price ts reason n1 n2];
    cbn [op_price] in Hprice;
    unfold apply_op, PaperBroker.enter, PaperBroker.exit.
  - destruct (PaperBroker.position self) as [pos|] eqn:Hpos.
    + cbn. rewrite Hpos. now repeat split.
    + destruct (Py.lt _ _) eqn:E.
      * cbn. rewrite Hpos. now repeat split.
      * apply lt_false_iff in E.
        unfold PaperBroker.log_event, PaperBroker.set_log.
        cbn [fst PaperBroker.capital PaperBroker.slippage_pct PaperBroker.position].
        split; [lra|]. split; [exact Hslip|].
        intros pos Hp. injection Hp as <-. cbn [Position.qty].
        apply get_lot_size_50.
  - destruct (PaperBroker.position self) as [pos|] eqn:Hpos.
    + cbn. rewrite (Hqty pos eq_refl), Hslip.
      split; [|split; [reflexivity | discriminate]].
      assert (H1 : 0 <= price * (1 - s)) by (apply Qmult_le_0_compat; lra).
      assert (H2 : 0 <= price * s) by (apply Qmult_le_0_compat; lra).
      change (inject_Z 50) with 50.
      destruct (String.eqb (Position.side pos) "LONG"); lra.
    + cbn. rewrite Hpos. now repeat split.
Qed.

End CapitalBound.

(** X17: with a non-negative initial capital, a slippage fraction between
    0 and 1 and non-negative quotes, capital is never negative, whatever
    the sequence of calls: an [open] the capital does not cover is
    rejected, and a [close] credits a non-negative amount. *)
Theorem X17_capital_never_negative
        (initial_capital : Q) (log_file : string) (slippage_pct : Q)
        (log0 : list LogRecord.t) (ops : list BrokerOp) :
  0 <= initial_capital ->
  0 <= slippage_pct -> slippage_pct <= 1 ->
  Forall (fun op => 0 <= op_price op) ops ->
  0 <= PaperBroker.capital
         (apply_ops (PaperBroker.init initial_capital log_file slippage_pct log0) ops).
Proof.
  intros Hic Hs0 Hs1 Hops.
  assert (Hgen : forall self,
             (0 <= PaperBroker.capital self
              /\ PaperBroker.slippage_pct self = slippage_pct
              /\ forall pos, PaperBroker.position self = Some pos ->
                             Position.qty pos = 50%Z) ->
             0 <= PaperBroker.capital (apply_ops self ops)).
  { unfold apply_ops. induction Hops as [|op ops Hop _ IH]; intros self Hinv.
    - apply Hinv.
    - cbn [fold_left]. apply IH.
      now apply (capital_nonneg_step slippage_pct). }
  apply Hgen. cbn. split; [exact Hic|]. split; [reflexivity | discriminate].
Qed.

(** X17 on the broker of [run] and three calls. *)
Lemma X17_capital_never_negative_witness :
  0 <= PaperBroker.capital
         (apply_ops run_broker
            [OpEnter "LONG" 1999 nifty_call None "t0" "t1";
             OpEnter "LONG" 10 nifty_call None "t2" "t3";
             OpExit 0 None None "t4" "t5"]).
Proof.
  apply (X17_capital_never_negative 100000 "trade_log.jsonl" 0.001 []); try lra.
  repeat constructor; cbn; lra.
Defined.

(** ** Strike selection *)

Section Rounding.

Lemma floor_unique (q : Q) (k : Z) :
  inject_Z k <= q -> q < inject_Z (k + 1) -> Qfloor q = k.
Proof.
  intros Hle Hlt.
  pose proof (Qfloor_le q) as H1. pose proof (Qlt_floor q) as H2.
  assert (Ha : inject_Z (Qfloor q) < inject_Z (k + 1)) by lra.
  assert (Hb : inject_Z k < inject_Z (Qfloor q + 1)) by lra.
  rewrite <- Zlt_Qlt in Ha, Hb. lia.
Qed.

Lemma py_round_cases (q : Q) :
  let f := Qfloor q in
  (q - inject_Z f < 1 # 2 /\ py_round q = f)
  \/ ((1 # 2) < q - inject_Z f /\ py_round q = (f + 1)%Z)
  \/ (q - inject_Z f == 1 # 2
      /\ py_round q = if Z.even f then f else (f + 1)%Z).
Proof.
  intro f. unfold py_round. fold f.
  destruct (Py.lt (q - inject_Z f) (1 # 2)) eqn:E1.
  - left. split; [now apply lt_true_iff | reflexivity].
  - apply lt_false_iff in E1.
    destruct (Py.lt (1 # 2) (q - inject_Z f)) eqn:E2.
    + right; left. split; [now apply lt_true_iff | reflexivity].
    + apply lt_false_iff in E2. right; right. split; [lra | reflexivity].
Qed.

Lemma py_round_near (q : Q) : Qabs (inject_Z (py_round q) - q) <= 1 # 2.
Proof.
  pose proof (Qfloor_le q) as H1. pose proof (Qlt_floor q) as H2.
  rewrite inject_Z_plus in H2. change (inject_Z 1) with 1 in H2.
  apply Qabs_Qle_condition.
  destruct (py_round_cases q) as [[H ->]|[[H ->]|[H ->]]].
  - split; lra.
  - rewrite inject_Z_plus. change (inject_Z 1) with 1. split; lra.
  - destruct (Z.even (Qfloor q));
      [|rewrite inject_Z_plus; change (inject_Z 1) with 1]; split; lra.
Qed.

Lemma py_round_tie (q : Q) (k : Z) :
  q == inject_Z k + (1 # 2) ->
  py_round q = if Z.even k then k else (k + 1)%Z.
Proof.
  intro H.
  assert (Hf : Qfloor q = k)
    by (apply floor_unique;
        [|rewrite inject_Z_plus; change (inject_Z 1) with 1]; lra).
  destruct (py_round_cases q) as [[H' _]|[[H' _]|[_ ->]]]; rewrite Hf in *;
    [lra | lra | reflexivity].
Qed.

Lemma py_round_exact (q : Q) (k : Z) : q == inject_Z k -> py_round q = k.
Proof.
  intro H.
  assert (Hf : Qfloor q = k)
    by (apply floor_unique;
        [|rewrite inject_Z_plus; change (inject_Z 1) with 1]; lra).
  destruct (py_round_cases q) as [[_ ->]|[[H' _]|[H' _]]]; rewrite Hf in *;
    [reflexivity | lra | lra].
Qed.

End Rounding.

(** X18: for a positive step, [_round_to_step] never raises and returns
    the multiple of [step] nearest to [x] (at most half a step away); an
    [x] exactly half-way between two multiples goes to the even multiple,
    so with step 50 both 24975 and 25025 give 25000. *)
Theorem X18_round_to_step_nearest_multiple (x : Q) (step : Z) :
  (0 < step)%Z ->
  exists r,
    _round_to_step x step = Some r
    /\ (exists m, r = (m * step)%Z)
    /\ Qabs (inject_Z r - x) <= inject_Z step / 2
    /\ (forall k, x == inject_Z (k * step) -> r = (k * step)%Z)
    /\ (forall k, x == inject_Z (k * step) + inject_Z step / 2 ->
        r = ((if Z.even k then k else k + 1) * step)%Z).
Proof.
  intro Hstep.
  assert (HS : 0 < inject_Z step) by (unfold Qlt, inject_Z; simpl; lia).
  assert (HS0 : ~ inject_Z step == 0) by lra.
  unfold _round_to_step. rewrite (div_nonzero _ _ HS0). cbn [bind].
  set (q := x / inject_Z step).
  assert (Hq : q * inject_Z step == x) by (unfold q; field; exact HS0).
  eexists. split; [reflexivity|].
  split; [now exists (py_round q)|]. split; [|split].
  - pose proof (py_round_near q) as Hn.
    apply Qabs_Qle_condition in Hn. destruct Hn as [Hn1 Hn2].
    rewrite inject_Z_mult. apply Qabs_Qle_condition.
    set (e := inject_Z step / 2).
    assert (He : e * 2 == inject_Z step) by (unfold e; field).
    split; nra.
  - intros k Hk. f_equal. apply py_round_exact.
    rewrite inject_Z_mult in Hk.
    apply (Qmult_inj_r _ _ (inject_Z step) HS0). lra.
  - intros k Hk. f_equal. apply py_round_tie.
    rewrite inject_Z_mult in Hk.
    apply (Qmult_inj_r _ _ (inject_Z step) HS0).
    set (e := inject_Z step / 2) in *.
    assert (He : e * 2 == inject_Z step) by (unfold e; field).
    nra.
Qed.

(** X18 at the two ties around 25000. *)
Lemma X18_round_to_step_nearest_multiple_witness :
  _round_to_step 24975 STRIKE_STEP = Some 25000%Z
  /\ _round_to_step 25025 STRIKE_STEP = Some 25000%Z.
Proof.
  destruct (X18_round_to_step_nearest_multiple 24975 STRIKE_STEP eq_refl)
    as (r1 & H1 & _ & _ & _ & T1).
  destruct (X18_round_to_step_nearest_multiple 25025 STRIKE_STEP eq_refl)
    as (r2 & H2 & _ & _ & _ & T2).
  rewrite H1, H2.
  rewrite (T1 499%Z ltac:(reflexivity)), (T2 500%Z ltac:(reflexivity)).
  split; reflexivity.
Defined.

Section ChainTable.

Lemma mem_iff (k : Z) (l : list Z) : mem k l = true <-> In k l.
Proof.
  unfold mem. rewrite existsb_exists. split.
  - intros (x & Hx & E). apply Z.eqb_eq in E. now subst.
  - intro H. exists k. split; [exact H | apply Z.eqb_refl].
Qed.

Lemma find_set_same (chain : Chain.t) (k : Z) (e : Chain.Entry) :
  Chain.find (Chain.set chain k e) k = Some e.
Proof.
  induction chain as [|[k' e'] rest IH]; cbn.
  - now rewrite Z.eqb_refl.
  - destruct (k' =? k)%Z eqn:E; cbn.
    + now rewrite Z.eqb_refl.
    + now rewrite E.
Qed.

Lemma find_set_other (chain : Chain.t) (k k' : Z) (e : Chain.Entry) :
  k' <> k -> Chain.find (Chain.set chain k e) k' = Chain.find chain k'.
Proof.
  intro Hne. induction chain as [|[k0 e0] rest IH]; cbn.
  - destruct (k =? k')%Z eqn:E; [apply Z.eqb_eq in E; congruence | reflexivity].
  - destruct (k0 =? k)%Z eqn:E; cbn.
    + apply Z.eqb_eq in E. subst k0.
      destruct (k =? k')%Z eqn:E'; [apply Z.eqb_eq in E'; congruence | reflexivity].
    + destruct (k0 =? k')%Z; [reflexivity | exact IH].
Qed.

Lemma find_some_iff (chain : Chain.t) (k : Z) :
  (exists e, Chain.find chain k = Some e) <-> In k (chain_keys chain).
Proof.
  unfold chain_keys. induction chain as [|[k' e'] rest IH]; cbn.
  - split; [intros [e H]; discriminate | intros []].
  - destruct (k' =? k)%Z eqn:E.
    + apply Z.eqb_eq in E. split; [now left | intros _; now exists e'].
    + apply Z.eqb_neq in E. rewrite IH. split; [now right | intros [H|H]; [congruence | exact H]].
Qed.

Lemma set_keys (chain : Chain.t) (k : Z) (e : Chain.Entry) :
  chain_keys (Chain.set chain k e)
  = if mem k (chain_keys chain) then chain_keys chain else chain_keys chain ++ [k].
Proof.
  unfold chain_keys, mem. induction chain as [|[k' e'] rest IH]; cbn.
  - reflexivity.
  - rewrite (Z.eqb_sym k k').
    destruct (k' =? k)%Z eqn:E; cbn.
    + apply Z.eqb_eq in E. now subst.
    + rewrite IH. now destruct (existsb (Z.eqb k) (map fst rest)).
Qed.

Lemma add_row_keys (chain : Chain.t) (row : Chain.Row) :
  chain_keys (Chain.add_row chain row)
  = match Chain.strikePrice row with
    | Some k => if mem k (chain_keys chain) then chain_keys chain
                else chain_keys chain ++ [k]
    | None => chain_keys chain
    end.
Proof.
  unfold Chain.add_row. destruct (Chain.strikePrice row); [apply set_keys | reflexivity].
Qed.

Lemma fold_add_row_keys (rows : list Chain.Row) (chain : Chain.t) :
  NoDup (chain_keys chain) ->
  NoDup (chain_keys (fold_left Chain.add_row rows chain))
  /\ forall k,
       In k (chain_keys (fold_left Chain.add_row rows chain))
       <-> In k (chain_keys chain)
           \/ exists row, In row rows /\ Chain.strikePrice row = Some k.
Proof.
  revert chain. induction rows as [|row rows IH]; intros chain Hnd; cbn [fold_left].
  - split; [exact Hnd|]. intro k. split; [now left|].
    intros [H|(row & [] & _)]. exact H.
  - assert (Hnd' : NoDup (chain_keys (Chain.add_row chain row))).
    { rewrite add_row_keys. destruct (Chain.strikePrice row) as [k|]; [|exact Hnd].
      destruct (mem k (chain_keys chain)) eqn:E; [exact Hnd|].
      apply NoDup_app; [exact Hnd | constructor; [intros [] | constructor]|].
      intros x Hx [<-|[]]. apply mem_iff in Hx. congruence. }
    destruct (IH _ Hnd') as [H1 H2]. split; [exact H1|].
    intro k. rewrite H2, add_row_keys.
    destruct (Chain.strikePrice row) as [k0|] eqn:Es.
    + destruct (mem k0 (chain_keys chain)) eqn:E.
      * apply mem_iff in E. split.
        -- intros [H|(r & Hr & Hk)]; [now left|]. right. exists r. split; [now right | exact Hk].
        -- intros [H|(r & [<-|Hr] & Hk)]; [now left | | right; now exists r].
           left. rewrite Es in Hk. now injection Hk as <-.
      * rewrite in_app_iff. cbn [In]. split.
        -- intros [[H|[<-|[]]]|(r & Hr & Hk)]; [now left | | ].
           ++ right. exists row. split; [now left | exact Es].
           ++ right. exists r. split; [now right | exact Hk].
        -- intros [H|(r & [<-|Hr] & Hk)]; [left; now left | | right; now exists r].
           left; right; left. rewrite Es in Hk. now injection Hk.
    + split.
      * intros [H|(r & Hr & Hk)]; [now left|]. right. exists r. split; [now right | exact Hk].
      * intros [H|(r & [<-|Hr] & Hk)]; [now left | congruence | right; now exists r].
Qed.

Lemma insert_sorted_in (k x : Z) (l : list Z) :
  In x (insert_sorted k l) <-> x = k \/ In x l.
Proof.
  induction l as [|y l IH]; cbn.
  - split; [intros [H|[]]; now left | intros [H|[]]; now left].
  - destruct (k <=? y)%Z; cbn.
    + split; [intros [H|H]; [now left | now right] | intros [H|H]; [now left | now right]].
    + rewrite IH. tauto.
Qed.

Lemma insert_sorted_strict (k : Z) (l : list Z) :
  StronglySorted Z.lt l -> ~ In k l -> StronglySorted Z.lt (insert_sorted k l).
Proof.
  induction 1 as [|y l Hs IH Hy]; intro Hn; cbn.
  - constructor; constructor.
  - destruct (k <=? y)%Z eqn:E.
    + apply Z.leb_le in E.
      assert (k < y)%Z by (assert (k <> y) by (intro; apply Hn; now left); lia).
      constructor; [now constructor|].
      constructor; [assumption|].
      rewrite Forall_forall in *. intros x Hx. specialize (Hy x Hx). lia.
    + apply Z.leb_gt in E.
      constructor; [apply IH; intro; apply Hn; now right|].
      rewrite Forall_forall in *. intros x Hx.
      apply insert_sorted_in in Hx. destruct Hx as [->|Hx]; [exact E | now apply Hy].
Qed.

Lemma sorted_spec (l : list Z) :
  NoDup l ->
  StronglySorted Z.lt (sorted l) /\ forall k, In k (sorted l) <-> In k l.
Proof.
  induction 1 as [|x l Hx Hnd [IH1 IH2]]; cbn.
  - split; [constructor | tauto].
  - split.
    + apply insert_sorted_strict; [exact IH1|]. now rewrite IH2.
    + intro k. rewrite insert_sorted_in, IH2. split; intros [H|H]; auto.
Qed.

End ChainTable.

(** X19: [_build_chain_lookup] raises only when [expiryDates] is an
    empty list.  Otherwise the expiry is the first listed date (the empty
    string when the key is missing), the strikes are strictly increasing
    (no strike twice), and a strike is listed exactly when some row of the
    document carries it, which is exactly when the table has an entry for
    it. *)
Theorem X19_chain_lookup_strikes (oc : Chain.Json) :
  (_build_chain_lookup oc = None <-> Chain.expiryDates oc = Some [])
  /\ forall chain expiry strikes,
       _build_chain_lookup oc = Some (chain, expiry, strikes) ->
       expiry = match Chain.expiryDates oc with
                | Some (d :: _) => d
                | _ => EmptyString
                end
       /\ StronglySorted Z.lt strikes
       /\ (forall k, In k strikes
                     <-> exists row, In row (Chain.data oc)
                                     /\ Chain.strikePrice row = Some k)
       /\ (forall k, In k strikes <-> exists e, Chain.find chain k = Some e).
Proof.
  unfold _build_chain_lookup. split.
  - destruct (Chain.expiryDates oc) as [[|d ds]|]; cbn;
      split; congruence.
  - intros chain expiry strikes H.
    destruct (fold_add_row_keys (Chain.data oc) [] (NoDup_nil _)) as [Hnd Hin].
    destruct (sorted_spec _ Hnd) as [Hs Hm].
    assert (Hres : chain = fold_left Chain.add_row (Chain.data oc) []
                   /\ strikes = sorted (chain_keys chain)
                   /\ expiry = match Chain.expiryDates oc with
                               | Some (d :: _) => d
                               | _ => EmptyString
                               end).
    { destruct (Chain.expiryDates oc) as [[|d ds]|]; cbn in H;
        try discriminate; injection H as <- <- <-; now repeat split. }
    destruct Hres as (-> & -> & ->).
    split; [reflexivity|]. split; [exact Hs|]. split.
    + intro k. rewrite Hm, Hin. cbn. tauto.
    + intro k. rewrite Hm. symmetry. apply find_some_iff.
Qed.

Section ChainLegs.

Lemma last_leg_cons (side_of : Chain.Row -> option Chain.RawLeg) (k : Z)
      (row : Chain.Row) (rows : list Chain.Row) (start : option Chain.RawLeg) :
  last_leg side_of k (row :: rows) start
  = last_leg side_of k rows
      (match Chain.strikePrice row with
       | Some k' => if (k' =? k)%Z
                    then match side_of row with
                         | Some leg => Some leg
                         | None => start
                         end
                    else start
       | None => start
       end).
Proof. reflexivity. Qed.

Lemma last_leg_absent (side_of : Chain.Row -> option Chain.RawLeg) (k : Z)
      (rows : list Chain.Row) (start : option Chain.RawLeg) :
  has_strike k rows = false -> last_leg side_of k rows start = start.
Proof.
  revert start. induction rows as [|row rows IH]; intros start H; [reflexivity|].
  cbn [has_strike existsb] in H. apply orb_false_iff in H. destruct H as [H1 H2].
  rewrite last_leg_cons, (IH _ H2).
  destruct (Chain.strikePrice row); [now rewrite H1 | reflexivity].
Qed.

(** The entry of strike [k] after the rows have been folded in. *)
Lemma fold_add_row_find (rows : list Chain.Row) (chain : Chain.t) (k : Z) :
  Chain.find (fold_left Chain.add_row rows chain) k
  = match Chain.find chain k with
    | Some e =>
        Some {| Chain.ce := last_leg Chain.CE k rows (Chain.ce e);
                Chain.pe := last_leg Chain.PE k rows (Chain.pe e) |}
    | None =>
        if has_strike k rows
        then Some {| Chain.ce := last_leg Chain.CE k rows None;
                     Chain.pe := last_leg Chain.PE k rows None |}
        else None
    end.
Proof.
  revert chain. induction rows as [|row rows IH]; intro chain.
  - cbn. now destruct (Chain.find chain k) as [[c p]|].
  - cbn [fold_left]. rewrite IH. unfold Chain.add_row.
    destruct (Chain.strikePrice row) as [k0|] eqn:Es.
    + destruct (k0 =? k)%Z eqn:E.
      * apply Z.eqb_eq in E. subst k0. rewrite find_set_same.
        destruct (Chain.find chain k) as [[c p]|];
          rewrite !last_leg_cons, Es, Z.eqb_refl;
          cbn [has_strike existsb]; rewrite ?Es, ?Z.eqb_refl;
          destruct (Chain.CE row), (Chain.PE row); reflexivity.
      * pose proof E as E'. apply Z.eqb_neq in E'.
        rewrite find_set_other by congruence.
        destruct (Chain.find chain k) as [[c p]|];
          rewrite ?last_leg_cons, ?Es, ?E;
          cbn [has_strike existsb]; rewrite ?Es, ?E; reflexivity.
    + destruct (Chain.find chain k) as [[c p]|];
        rewrite ?last_leg_cons, ?Es;
        cbn [has_strike existsb]; rewrite ?Es; reflexivity.
Qed.

End ChainLegs.

(** X20: what [_pick] finds in the table built by
    [_build_chain_lookup]: for strike [k] and side CE (PE), the contract
    made from the CE (PE) leg of the last row with strike [k] that has
    such a leg -- a later row replaces an earlier leg, a row without the
    leg does not erase it -- and [None] when no row with that strike has
    one.  The contract carries the given expiry, strike and side and the
    symbol NIFTY. *)
Theorem X20_pick_finds_last_leg
        (oc : Chain.Json) (chain : Chain.t) (expiry : string) (strikes : list Z)
        (k : Z) (e : string) :
  _build_chain_lookup oc = Some (chain, expiry, strikes) ->
  _pick chain "CE" k e
  = option_map (fun leg => contract_of leg "CE" k e)
               (last_leg Chain.CE k (Chain.data oc) None)
  /\ _pick chain "PE" k e
     = option_map (fun leg => contract_of leg "PE" k e)
                  (last_leg Chain.PE k (Chain.data oc) None)
  /\ (forall side c, _pick chain side k e = Some c ->
        In k strikes
        /\ Contract.symbol c = Some "NIFTY"%string
        /\ Contract.side c = side /\ Contract.expiry c = e
        /\ Contract.strike c = inject_Z k).
Proof.
  intro H.
  assert (Hchain : chain = fold_left Chain.add_row (Chain.data oc) []
                   /\ strikes = sorted (chain_keys chain)).
  { unfold _build_chain_lookup in H.
    destruct (Chain.expiryDates oc) as [[|d ds]|]; cbn in H;
      try discriminate; injection H as <- _ <-; now split. }
  destruct Hchain as [Hc Hs].
  assert (Hfind : Chain.find chain k
                  = if has_strike k (Chain.data oc)
                    then Some {| Chain.ce := last_leg Chain.CE k (Chain.data oc) None;
                                 Chain.pe := last_leg Chain.PE k (Chain.data oc) None |}
                    else None)
    by (rewrite Hc, fold_add_row_find; reflexivity).
  split; [|split].
  - unfold _pick. rewrite Hfind.
    destruct (has_strike k (Chain.data oc)) eqn:E.
    + cbn. now destruct (last_leg Chain.CE k (Chain.data oc) None).
    + now rewrite (last_leg_absent _ _ _ _ E).
  - unfold _pick. rewrite Hfind.
    destruct (has_strike k (Chain.data oc)) eqn:E.
    + cbn. now destruct (last_leg Chain.PE k (Chain.data oc) None).
    + now rewrite (last_leg_absent _ _ _ _ E).
  - intros side c Hp. unfold _pick in Hp.
    destruct (Chain.find chain k) as [en|] eqn:Ef; [|discriminate].
    destruct (Chain.get_side en side); [|discriminate].
    injection Hp as <-. cbn. repeat split.
    destruct (fold_add_row_keys (Chain.data oc) [] (NoDup_nil _)) as [Hnd _].
    rewrite <- Hc in Hnd.
    rewrite Hs. apply (sorted_spec _ Hnd). apply find_some_iff. now exists en.
Qed.

(** X20 on a document whose second row repeats strike 25000 without a
    call leg. *)
Lemma X20_pick_finds_last_leg_witness :
  let call := {| Chain.lastPrice := Some 100; Chain.openInterest := Some 1200;
                 Chain.changeinOpenInterest := Some 0;
                 Chain.bidprice := Some 99; Chain.askPrice := Some 100 |} in
  let oc := {| Chain.expiryDates := Some ["27-Nov-2025"%string];
               Chain.data := [{| Chain.strikePrice := Some 25000%Z;
                                 Chain.CE := Some call; Chain.PE := None |};
                              {| Chain.strikePrice := Some 25000%Z;
                                 Chain.CE := None; Chain.PE := None |}] |} in
  exists chain strikes,
    _build_chain_lookup oc = Some (chain, "27-Nov-2025"%string, strikes)
    /\ _pick chain "CE" 25000 "27-Nov-2025"
       = Some (contract_of call "CE" 25000 "27-Nov-2025").
Proof.
  intros call oc.
  destruct (_build_chain_lookup oc) as [[[chain expiry] strikes]|] eqn:Hb;
    [|vm_compute in Hb; discriminate].
  assert (He : expiry = "27-Nov-2025"%string)
    by (vm_compute in Hb; now injection Hb as _ <- _).
  subst expiry. exists chain, strikes. split; [reflexivity|].
  destruct (X20_pick_finds_last_leg oc chain "27-Nov-2025" strikes 25000
              "27-Nov-2025" Hb) as [H _].
  exact H.
Defined.

Section PayloadShape.

Lemma round_to_step_value (x : Q) (step : Z) :
  (0 < step)%Z ->
  _round_to_step x step = Some (py_round (x / inject_Z step) * step)%Z.
Proof.
  intro H. unfold _round_to_step.
  rewrite div_nonzero; [reflexivity|].
  intro E. unfold Qeq, inject_Z in E. simpl in E. lia.
Qed.

Lemma min_by_key_spec (key : Z -> Q) (l : list Z) :
  l <> [] ->
  exists m, min_by_key key l = Some m
            /\ In m l /\ forall k, In k l -> key m <= key k.
Proof.
  destruct l as [|x rest]; [intro H; now contradiction H | intros _].
  unfold min_by_key. eexists. split; [reflexivity|].
  revert x. induction rest as [|y rest IH]; intro x; cbn [fold_left].
  - split; [now left|]. intros k [<-|[]]. lra.
  - destruct (IH (if Py.lt (key y) (key x) then y else x)) as [Hin Hmin].
    split.
    + destruct Hin as [Hin|Hin]; [|right; now right].
      rewrite <- Hin. destruct (Py.lt (key y) (key x)); [right|]; now left.
    + intros k [<-|[<-|Hk]].
      * pose proof (Hmin _ (or_introl eq_refl)) as H.
        destruct (Py.lt (key y) (key x)) eqn:E; [apply lt_true_iff in E|]; lra.
      * pose proof (Hmin _ (or_introl eq_refl)) as H.
        destruct (Py.lt (key y) (key x)) eqn:E; [|apply lt_false_iff in E]; lra.
      * apply Hmin. now right.
Qed.

Lemma choose_atm_spec (spot : Q) (strikes : list Z) :
  let rounded := (py_round (spot / inject_Z STRIKE_STEP) * STRIKE_STEP)%Z in
  (strikes = [] -> choose_atm spot strikes = None)
  /\ (strikes <> [] ->
      exists atm,
        choose_atm spot strikes = Some atm
        /\ In atm strikes
        /\ (In rounded strikes -> atm = rounded)
        /\ (~ In rounded strikes ->
            forall k, In k strikes ->
                      Qabs (inject_Z atm - spot) <= Qabs (inject_Z k - spot))).
Proof.
  intro rounded. unfold choose_atm.
  rewrite (round_to_step_value spot STRIKE_STEP eq_refl). cbn [bind]. fold rounded.
  split.
  - intros ->. reflexivity.
  - intro Hne. destruct (mem rounded strikes) eqn:E; cbn [negb].
    + apply mem_iff in E. exists rounded. repeat split; try assumption.
      intro H. contradiction.
    + destruct (min_by_key_spec (fun k => Qabs (inject_Z k - spot)) strikes Hne)
        as (m & Hm & Hin & Hmin).
      exists m. split; [exact Hm|]. split; [exact Hin|]. split.
      * intro H. apply mem_iff in H. congruence.
      * intros _. exact Hmin.
Qed.

(** The payload in terms of the table, once the spot is usable. *)
Lemma payload_value (spot : Q) (oc : Chain.Json) (chain : Chain.t)
      (expiry : string) (strikes : list Z) :
  ~ spot == 0 ->
  _build_chain_lookup oc = Some (chain, expiry, strikes) ->
  get_strikes_payload spot oc
  = match choose_atm spot strikes with
    | None => None
    | Some atm =>
        Some (PayloadOK (round2 spot) expiry atm
                        (labelled_legs chain "CE" (ce_targets atm) strikes expiry)
                        (labelled_legs chain "PE" (pe_targets atm) strikes expiry))
    end.
Proof.
  intros Hspot Hb. unfold get_strikes_payload, choose_atm.
  apply truthy_true_iff in Hspot. rewrite Hspot, Hb. cbn [negb bind fst snd].
  destruct (_round_to_step spot STRIKE_STEP) as [atm0|]; [|reflexivity].
  cbn [bind].
  destruct (if negb (mem atm0 strikes)
            then min_by_key (fun k => Qabs (inject_Z k - spot)) strikes
            else ret atm0); reflexivity.
Qed.

Lemma no_strikes_iff (oc : Chain.Json) (chain : Chain.t) (expiry : string)
      (strikes : list Z) :
  _build_chain_lookup oc = Some (chain, expiry, strikes) ->
  (strikes = [] <-> Forall (fun row => Chain.strikePrice row = None) (Chain.data oc)).
Proof.
  intro Hb.
  assert (Hin : forall k, In k strikes
                          <-> exists row, In row (Chain.data oc)
                                          /\ Chain.strikePrice row = Some k).
  { unfold _build_chain_lookup in Hb.
    destruct (fold_add_row_keys (Chain.data oc) [] (NoDup_nil _)) as [Hnd Hin].
    destruct (sorted_spec _ Hnd) as [_ Hm].
    destruct (Chain.expiryDates oc) as [[|d ds]|]; cbn in Hb;
      try discriminate; injection Hb as _ _ <-;
      intro k; rewrite Hm, Hin; cbn; tauto. }
  split.
  - intros ->. rewrite Forall_forall. intros row Hrow.
    destruct (Chain.strikePrice row) as [k|] eqn:E; [|reflexivity].
    exfalso. apply (proj2 (Hin k)). now exists row.
  - intro Hall. destruct strikes as [|k rest]; [reflexivity|].
    destruct (proj1 (Hin k) (or_introl eq_refl)) as (row & Hrow & Hk).
    rewrite Forall_forall in Hall. rewrite (Hall row Hrow) in Hk. discriminate.
Qed.

End PayloadShape.

(** X21: the outcomes of [get_strikes_payload].  With a zero (missing)
    spot it returns the ERROR dictionary without looking at the chain.
    With a usable spot it raises exactly when [expiryDates] is an empty
    list or no row of the document carries a strike ([min] of an empty
    sequence), and returns an OK dictionary otherwise; it never returns
    ERROR for a usable spot. *)
Theorem X21_strikes_payload_outcomes (spot : Q) (oc : Chain.Json) :
  (spot == 0 ->
   get_strikes_payload spot oc = Some (PayloadError "No NIFTY spot available"))
  /\ (~ spot == 0 ->
      (get_strikes_payload spot oc = None
       <-> Chain.expiryDates oc = Some []
           \/ Forall (fun row => Chain.strikePrice row = None) (Chain.data oc))
      /\ forall reason, get_strikes_payload spot oc <> Some (PayloadError reason)).
Proof.
  split.
  - intro H. unfold get_strikes_payload. apply truthy_false_iff in H. now rewrite H.
  - intro Hspot.
    destruct (_build_chain_lookup oc) as [[[chain expiry] strikes]|] eqn:Hb.
    + rewrite (payload_value spot oc chain expiry strikes Hspot Hb).
      pose proof (no_strikes_iff oc chain expiry strikes Hb) as Hno.
      assert (Hexp : Chain.expiryDates oc <> Some []).
      { intro E. unfold _build_chain_lookup in Hb. rewrite E in Hb. discriminate. }
      destruct (choose_atm_spec spot strikes) as [Hnil Hcons].
      destruct strikes as [|k rest].
      * rewrite (Hnil eq_refl). split; [|discriminate].
        split; [intros _; right; now apply Hno | reflexivity].
      * destruct Hcons as (atm & -> & _); [discriminate|].
        split; [|discriminate].
        split; [discriminate|]. intros [E|E]; [contradiction|].
        apply Hno in E. discriminate.
    + assert (Hexp : Chain.expiryDates oc = Some []).
      { unfold _build_chain_lookup in Hb.
        destruct (Chain.expiryDates oc) as [[|d ds]|]; cbn in Hb;
          [reflexivity | discriminate | discriminate]. }
      assert (Hnone : get_strikes_payload spot oc = None).
      { unfold get_strikes_payload. apply truthy_true_iff in Hspot.
        now rewrite Hspot, Hb. }
      rewrite Hnone. split; [|discriminate].
      split; [intros _; now left | reflexivity].
Qed.

Section PayloadLegs.

Lemma round_to_step_near (x : Q) (step : Z) :
  (0 < step)%Z ->
  Qabs (inject_Z (py_round (x / inject_Z step) * step) - x) <= inject_Z step / 2.
Proof.
  intro Hstep.
  assert (HS : 0 < inject_Z step) by (unfold Qlt, inject_Z; simpl; lia).
  set (q := x / inject_Z step).
  assert (Hq : q * inject_Z step == x) by (unfold q; field; lra).
  pose proof (py_round_near q) as Hn.
  apply Qabs_Qle_condition in Hn. destruct Hn as [Hn1 Hn2].
  rewrite inject_Z_mult. apply Qabs_Qle_condition.
  set (e := inject_Z step / 2).
  assert (He : e * 2 == inject_Z step) by (unfold e; field).
  split; nra.
Qed.

(** An OK payload comes from a usable spot and has the value of
    [payload_value]. *)
Lemma payload_ok_inv (spot : Q) (oc : Chain.Json) (chain : Chain.t)
      (expiry : string) (strikes : list Z)
      (s : Q) (e : string) (atm : Z) (calls puts : Legs) :
  _build_chain_lookup oc = Some (chain, expiry, strikes) ->
  get_strikes_payload spot oc = Some (PayloadOK s e atm calls puts) ->
  ~ spot == 0
  /\ choose_atm spot strikes = Some atm
  /\ s = round2 spot /\ e = expiry
  /\ calls = labelled_legs chain "CE" (ce_targets atm) strikes expiry
  /\ puts = labelled_legs chain "PE" (pe_targets atm) strikes expiry.
Proof.
  intros Hb Hp.
  assert (Hspot : ~ spot == 0).
  { intro E. unfold get_strikes_payload in Hp.
    apply truthy_false_iff in E. rewrite E in Hp. discriminate. }
  rewrite (payload_value spot oc chain expiry strikes Hspot Hb) in Hp.
  destruct (choose_atm spot strikes) as [atm'|]; [|discriminate].
  injection Hp as <- <- <- <- <-. now repeat split.
Qed.

Lemma nth_some_in {A : Type} (i : nat) (l : list (option A)) (x : A) :
  nth i l None = Some x -> In (Some x) l.
Proof.
  intro H. destruct (Nat.lt_ge_cases i (length l)) as [Hlt|Hge].
  - rewrite <- H. now apply nth_In.
  - rewrite nth_overflow in H by exact Hge. discriminate.
Qed.

Lemma legs_list_in (l : list (option Contract.t)) (c : Contract.t) :
  In (Some c) (legs_list (legs_of (pad5 l))) -> In (Some c) l.
Proof.
  unfold legs_list, legs_of. cbn [ATM ITM1 ITM2 OTM1 OTM2 In].
  assert (Hpad : In (Some c) (pad5 l) -> In (Some c) l).
  { unfold pad5. rewrite in_app_iff. intros [H|H]; [exact H|].
    apply repeat_spec in H. discriminate. }
  intros [H|[H|[H|[H|[H|[]]]]]]; apply Hpad; now apply nth_some_in in H.
Qed.

Lemma target_near (atm k : Z) :
  In k (ce_targets atm) \/ In k (pe_targets atm) -> (Z.abs (k - atm) <= 100)%Z.
Proof.
  unfold ce_targets, pe_targets, STRIKE_STEP. cbn [In].
  intros [H|H]; repeat (destruct H as [<-|H]; [lia|]); destruct H.
Qed.

End PayloadLegs.

(** X22: the at-the-money strike of an OK payload is always one of the
    listed strikes.  It is the spot rounded to the nearest multiple of 50
    when that strike is listed (then at most 25 away from the spot);
    otherwise it is a listed strike nearest to the spot.  The payload
    carries the expiry of the chain and the spot rounded to two
    decimals. *)
Theorem X22_atm_is_a_listed_strike
        (spot : Q) (oc : Chain.Json) (chain : Chain.t) (expiry : string)
        (strikes : list Z) (s : Q) (e : string) (atm : Z) (calls puts : Legs) :
  _build_chain_lookup oc = Some (chain, expiry, strikes) ->
  get_strikes_payload spot oc = Some (PayloadOK s e atm calls puts) ->
  let rounded := (py_round (spot / inject_Z STRIKE_STEP) * STRIKE_STEP)%Z in
  In atm strikes
  /\ e = expiry /\ s = round2 spot
  /\ (In rounded strikes ->
      atm = rounded /\ Qabs (inject_Z atm - spot) <= 25)
  /\ (~ In rounded strikes ->
      forall k, In k strikes ->
                Qabs (inject_Z atm - spot) <= Qabs (inject_Z k - spot)).
Proof.
  intros Hb Hp rounded.
  destruct (payload_ok_inv _ _ _ _ _ _ _ _ _ _ Hb Hp)
    as (_ & Hatm & Hs & He & _).
  destruct (choose_atm_spec spot strikes) as [Hnil Hcons].
  assert (Hne : strikes <> []).
  { intro E. rewrite (Hnil E) in Hatm. discriminate. }
  destruct (Hcons Hne) as (atm' & Hatm' & Hin & Hr & Hn).
  rewrite Hatm in Hatm'. injection Hatm' as <-.
  split; [exact Hin|]. split; [exact He|]. split; [exact Hs|]. split.
  - intro H. split; [now apply Hr|]. rewrite (Hr H).
    pose proof (round_to_step_near spot STRIKE_STEP eq_refl) as Hnear.
    assert (Hhalf : inject_Z STRIKE_STEP / 2 == 25) by reflexivity.
    rewrite Hhalf in Hnear. exact Hnear.
  - exact Hn.
Qed.

(** X23: the labels of an OK payload are positional.  ATM is always the
    pick at the at-the-money strike.  When the four neighbouring strikes
    (one and two steps either side) are all listed, every label holds the
    pick at its own strike.  When one is not listed, the picks after it
    move up one label and the last label is empty: with [atm - 50]
    unlisted, the call labelled ITM1 is the one at [atm - 100], ITM2 the
    one at [atm + 50], OTM1 the one at [atm + 100]. *)
Theorem X23_payload_labels_are_positional
        (spot : Q) (oc : Chain.Json) (chain : Chain.t) (expiry : string)
        (strikes : list Z) (s : Q) (e : string) (atm : Z) (calls puts : Legs) :
  _build_chain_lookup oc = Some (chain, expiry, strikes) ->
  get_strikes_payload spot oc = Some (PayloadOK s e atm calls puts) ->
  let call := fun k => _pick chain "CE" k expiry in
  let put := fun k => _pick chain "PE" k expiry in
  ATM calls = call atm /\ ATM puts = put atm
  /\ (In (atm - 50)%Z strikes -> In (atm - 100)%Z strikes ->
      In (atm + 50)%Z strikes -> In (atm + 100)%Z strikes ->
      legs_list calls
      = [call atm; call (atm - 50)%Z; call (atm - 100)%Z;
         call (atm + 50)%Z; call (atm + 100)%Z]
      /\ legs_list puts
         = [put atm; put (atm + 50)%Z; put (atm + 100)%Z;
            put (atm - 50)%Z; put (atm - 100)%Z])
  /\ (~ In (atm - 50)%Z strikes -> In (atm - 100)%Z strikes ->
      In (atm + 50)%Z strikes -> In (atm + 100)%Z strikes ->
      legs_list calls
      = [call atm; call (atm - 100)%Z; call (atm + 50)%Z;
         call (atm + 100)%Z; None]
      /\ legs_list puts
         = [put atm; put (atm + 50)%Z; put (atm + 100)%Z;
            put (atm - 100)%Z; None]).
Proof.
  intros Hb Hp call put.
  destruct (payload_ok_inv _ _ _ _ _ _ _ _ _ _ Hb Hp)
    as (_ & Hatm & _ & _ & -> & ->).
  assert (Hin : In atm strikes).
  { destruct (choose_atm_spec spot strikes) as [Hnil Hcons].
    assert (Hne : strikes <> [])
      by (intro E; rewrite (Hnil E) in Hatm; discriminate).
    destruct (Hcons Hne) as (atm' & Hatm' & Hin & _).
    rewrite Hatm in Hatm'. now injection Hatm' as <-. }
  apply mem_iff in Hin.
  assert (Hmem : forall k, ~ In k strikes -> mem k strikes = false).
  { intros k Hk. destruct (mem k strikes) eqn:E; [|reflexivity].
    apply mem_iff in E. contradiction. }
  unfold labelled_legs, ce_targets, pe_targets, STRIKE_STEP.
  change (2 * 50)%Z with 100%Z.
  split; [|split; [|split]].
  - cbn [filter]. rewrite Hin. reflexivity.
  - cbn [filter]. rewrite Hin. reflexivity.
  - intros H1 H2 H3 H4. apply mem_iff in H1, H2, H3, H4.
    cbn [filter]. rewrite Hin, H1, H2, H3, H4. split; reflexivity.
  - intros H1 H2 H3 H4. apply Hmem in H1. apply mem_iff in H2, H3, H4.
    cbn [filter]. rewrite Hin, H1, H2, H3, H4. split; reflexivity.
Qed.

(** X24: every leg an OK payload offers is a NIFTY contract of the side
    it is filed under (CE under calls, PE under puts), with the payload's
    expiry and a listed strike at most two steps from the at-the-money
    strike; the broker trades it with a lot size of 50. *)
Theorem X24_payload_legs_are_near_the_money
        (spot : Q) (oc : Chain.Json) (chain : Chain.t) (expiry : string)
        (strikes : list Z) (s : Q) (e : string) (atm : Z) (calls puts : Legs)
        (c : Contract.t) :
  _build_chain_lookup oc = Some (chain, expiry, strikes) ->
  get_strikes_payload spot oc = Some (PayloadOK s e atm calls puts) ->
  In (Some c) (legs_list calls) \/ In (Some c) (legs_list puts) ->
  Contract.symbol c = Some "NIFTY"%string
  /\ get_lot_size (Contract.get_symbol c) = 50%Z
  /\ Contract.expiry c = e
  /\ (In (Some c) (legs_list calls) -> Contract.side c = "CE"%string)
  /\ (In (Some c) (legs_list puts) -> Contract.side c = "PE"%string)
  /\ exists k, In k strikes /\ Contract.strike c = inject_Z k
               /\ (Z.abs (k - atm) <= 100)%Z.
Proof.
  intros Hb Hp Hc.
  destruct (payload_ok_inv _ _ _ _ _ _ _ _ _ _ Hb Hp)
    as (_ & _ & _ & -> & -> & ->).
  assert (Hleg : forall side targets,
             In (Some c) (legs_list (labelled_legs chain side targets strikes expiry)) ->
             exists k leg, In k targets /\ In k strikes
                           /\ c = contract_of leg side k expiry).
  { intros side targets H. unfold labelled_legs in H.
    apply legs_list_in in H. apply in_map_iff in H.
    destruct H as (k & Hk & Hf). apply filter_In in Hf. destruct Hf as [Ht Hm].
    apply mem_iff in Hm. unfold _pick in Hk.
    destruct (Chain.find chain k) as [en|]; [|discriminate].
    destruct (Chain.get_side en side) as [leg|]; [|discriminate].
    injection Hk as <-. now exists k, leg. }
  assert (Hfields : exists side k leg,
             In k strikes /\ (Z.abs (k - atm) <= 100)%Z
             /\ c = contract_of leg side k expiry).
  { destruct Hc as [H|H]; apply Hleg in H; destruct H as (k & leg & Ht & Hs & Hc').
    - exists "CE"%string, k, leg. split; [exact Hs|]. split; [|exact Hc'].
      apply target_near. now left.
    - exists "PE"%string, k, leg. split; [exact Hs|]. split; [|exact Hc'].
      apply target_near. now right. }
  destruct Hfields as (side & k & leg & Hs & Hnear & Hc').
  split; [now rewrite Hc'|]. split; [apply get_lot_size_50|].
  split; [now rewrite Hc'|].
  split; [|split].
  - intro H. apply Hleg in H. destruct H as (k' & leg' & _ & _ & ->). reflexivity.
  - intro H. apply Hleg in H. destruct H as (k' & leg' & _ & _ & ->). reflexivity.
  - exists k. split; [exact Hs|]. split; [now rewrite Hc' | exact Hnear].
Qed.

Section PayloadExamples.

(** X22 on the sample document at spot 25012.3. *)
Lemma X22_atm_is_a_listed_strike_witness :
  exists chain strikes s e atm calls puts,
    _build_chain_lookup sample_oc = Some (chain, "27-Nov-2025"%string, strikes)
    /\ get_strikes_payload 25012.3 sample_oc = Some (PayloadOK s e atm calls puts)
    /\ In atm strikes.
Proof.
  destruct (_build_chain_lookup sample_oc) as [[[chain expiry] strikes]|] eqn:Hb;
    [|vm_compute in Hb; discriminate].
  assert (He : expiry = "27-Nov-2025"%string)
    by (pose proof Hb as Hc; vm_compute in Hc; now injection Hc as _ <- _).
  subst expiry.
  destruct (get_strikes_payload 25012.3 sample_oc) as [[reason|s e atm calls puts]|]
    eqn:Hp; [vm_compute in Hp; discriminate | | vm_compute in Hp; discriminate].
  exists chain, strikes, s, e, atm, calls, puts.
  split; [reflexivity|]. split; [reflexivity|].
  exact (proj1 (X22_atm_is_a_listed_strike
                  25012.3 sample_oc chain _ strikes s e atm calls puts Hb Hp)).
Defined.

(** X23 on the sparse document, where the strike 24950 is not listed:
    the call labelled ATM is still the pick at the at-the-money strike. *)
Lemma X23_payload_labels_are_positional_witness :
  exists chain strikes s e atm calls puts,
    _build_chain_lookup sparse_oc = Some (chain, "27-Nov-2025"%string, strikes)
    /\ get_strikes_payload 25012.3 sparse_oc = Some (PayloadOK s e atm calls puts)
    /\ ATM calls = _pick chain "CE" atm "27-Nov-2025".
Proof.
  destruct (_build_chain_lookup sparse_oc) as [[[chain expiry] strikes]|] eqn:Hb;
    [|vm_compute in Hb; discriminate].
  assert (He : expiry = "27-Nov-2025"%string)
    by (pose proof Hb as Hc; vm_compute in Hc; now injection Hc as _ <- _).
  subst expiry.
  destruct (get_strikes_payload 25012.3 sparse_oc) as [[reason|s e atm calls puts]|]
    eqn:Hp; [vm_compute in Hp; discriminate | | vm_compute in Hp; discriminate].
  exists chain, strikes, s, e, atm, calls, puts.
  split; [reflexivity|]. split; [reflexivity|].
  exact (proj1 (X23_payload_labels_are_positional
                  25012.3 sparse_oc chain _ strikes s e atm calls puts Hb Hp)).
Defined.

(** X24 on the sample document: the at-the-money call. *)
Lemma X24_payload_legs_are_near_the_money_witness :
  exists s e atm calls puts c,
    get_strikes_payload 25012.3 sample_oc = Some (PayloadOK s e atm calls puts)
    /\ ATM calls = Some c
    /\ Contract.symbol c = Some "NIFTY"%string
    /\ get_lot_size (Contract.get_symbol c) = 50%Z.
Proof.
  destruct (_build_chain_lookup sample_oc) as [[[chain expiry] strikes]|] eqn:Hb;
    [|vm_compute in Hb; discriminate].
  destruct (get_strikes_payload 25012.3 sample_oc) as [[reason|s e atm calls puts]|]
    eqn:Hp; [vm_compute in Hp; discriminate | | vm_compute in Hp; discriminate].
  destruct (ATM calls) as [c|] eqn:Hc;
    [|pose proof Hp as Hq; vm_compute in Hq;
      injection Hq as _ _ _ Hcalls _; rewrite <- Hcalls in Hc; discriminate].
  exists s, e, atm, calls, puts, c.
  split; [reflexivity|]. split; [exact Hc|].
  destruct (X24_payload_legs_are_near_the_money
              25012.3 sample_oc chain expiry strikes s e atm calls puts c Hb Hp)
    as (H1 & H2 & _).
  { left. unfold legs_list. rewrite Hc. now left. }
  now split.
Defined.

End PayloadExamples.

(** ** The entry and exit policy *)

Section Policy.

(** The leg the policy looks at for a direction: the at-the-money one,
    else the first out-of-the-money one; calls for LONG, puts
    otherwise. *)
Lemma entry_block_cases (sig : option Signal.t) (adx_val : Q)
      (broker b1 : PaperBroker.t) (fetch : option Payload)
      (stamp now_log : string) :
  entry_block sig adx_val broker fetch stamp now_log = Some b1 ->
  b1 = broker
  \/ exists sg s e atm calls puts leg price,
       sig = Some sg
       /\ PaperBroker.position broker = None
       /\ ADX_THRESHOLD < adx_val
       /\ fetch = Some (PayloadOK s e atm calls puts)
       /\ (if String.eqb (Signal.dir sg) "LONG"
           then leg_or (ATM calls) (OTM1 calls)
           else leg_or (ATM puts) (OTM1 puts)) = Some leg
       /\ Contract.ask leg = Some price
       /\ 0 < price
       /\ b1 = fst (PaperBroker.enter broker (Signal.dir sg) price leg
                                      (Some stamp) stamp now_log).
Proof.
  unfold entry_block. intro H.
  destruct sig as [sg|]; [|left; now injection H].
  destruct (PaperBroker.position broker) eqn:Hpos; [left; now injection H|].
  destruct (Py.gt adx_val ADX_THRESHOLD) eqn:Hadx; [|left; now injection H].
  destruct fetch as [[reason|s e atm calls puts]|]; cbn [bind] in H;
    [left; now injection H | | discriminate].
  destruct (if String.eqb (Signal.dir sg) "LONG"
            then leg_or (ATM calls) (OTM1 calls)
            else leg_or (ATM puts) (OTM1 puts)) as [leg|] eqn:Hleg;
    [|left; now injection H].
  destruct (Contract.ask leg) as [price|] eqn:Hask; cbn [quote_positive bind] in H;
    [|discriminate].
  destruct (Py.gt price 0) eqn:Hp; [|left; now injection H].
  right. exists sg, s, e, atm, calls, puts, leg, price.
  injection H as <-.
  unfold Py.gt in Hadx, Hp. apply lt_true_iff in Hadx, Hp.
  now repeat split.
Qed.

Lemma exit_block_cases (sig : option Signal.t) (b b2 : PaperBroker.t)
      (fetch : option Payload) (stamp now_log : string) :
  exit_block sig b fetch stamp now_log = Some b2 ->
  b2 = b
  \/ exists pos sg s e atm calls puts leg p reason,
       PaperBroker.position b = Some pos
       /\ sig = Some sg
       /\ Signal.dir sg = (if String.eqb (Position.side pos) "LONG"
                           then "SHORT" else "LONG")%string
       /\ fetch = Some (PayloadOK s e atm calls puts)
       /\ (if String.eqb (Position.side pos) "LONG"
           then leg_or (ATM calls) (OTM1 calls)
           else leg_or (ATM puts) (OTM1 puts)) = Some leg
       /\ Contract.bid leg = Some p
       /\ 0 < p
       /\ b2 = fst (PaperBroker.exit b p (Some stamp) (Some reason) stamp now_log).
Proof.
  unfold exit_block. intro H.
  destruct (PaperBroker.position b) as [pos|] eqn:Hpos; [|left; now injection H].
  destruct fetch as [[reason|s e atm calls puts]|]; cbn [bind] in H;
    [discriminate | | discriminate].
  destruct (if String.eqb (Position.side pos) "LONG"
            then leg_or (ATM calls) (OTM1 calls)
            else leg_or (ATM puts) (OTM1 puts)) as [leg|] eqn:Hleg;
    cbn [bind] in H.
  - destruct (Contract.bid leg) as [p|] eqn:Hbid; cbn [quote_positive bind] in H;
      [|discriminate].
    destruct (Py.gt p 0) eqn:Hp.
    + destruct sig as [sg|]; [|left; now injection H].
      destruct (String.eqb (Signal.dir sg) _) eqn:Hdir; [|left; now injection H].
      apply String.eqb_eq in Hdir. right.
      unfold Py.gt in Hp. apply lt_true_iff in Hp.
      exists pos, sg, s, e, atm, calls, puts, leg, p.
      eexists. injection H as <-. now repeat split.
    + left. destruct sig; now injection H.
  - left. destruct sig; now injection H.
Qed.

End Policy.

Section PolicyTransitions.

Lemma enter_from_flat (self : PaperBroker.t) (side : string) (price : Q)
      (contract : Contract.t) (timestamp : option string)
      (now_stamp now_log : string) :
  PaperBroker.position self = None ->
  let opened := fst (PaperBroker.enter self side price contract timestamp
                                       now_stamp now_log) in
  PaperBroker.closed_trades opened = PaperBroker.closed_trades self
  /\ forall pos,
       PaperBroker.position opened = Some pos ->
       Position.side pos = side
       /\ Position.contract pos = contract
       /\ Position.qty pos = 50%Z
       /\ Position.entry pos
          = price + (if String.eqb side "LONG"
                     then PaperBroker.slippage_pct self * price
                     else - PaperBroker.slippage_pct self * price)
       /\ price * 50 <= PaperBroker.capital self.
Proof.
  intros Hpos opened. unfold opened, PaperBroker.enter. rewrite Hpos.
  destruct (Py.lt _ _) eqn:E.
  - cbn. rewrite Hpos. split; [reflexivity | discriminate].
  - apply lt_false_iff in E. rewrite get_lot_size_50 in *.
    cbn. split; [reflexivity|]. intros pos H. injection H as <-. cbn.
    repeat split. exact E.
Qed.

Lemma opposite_differs (dir : string) :
  dir <> (if String.eqb dir "LONG" then "SHORT" else "LONG")%string.
Proof.
  destruct (String.eqb dir "LONG") eqn:E.
  - apply String.eqb_eq in E. subst. discriminate.
  - apply String.eqb_neq in E. exact E.
Qed.

End PolicyTransitions.

(** X25: one evaluation of the entry and exit policy makes at most one
    call on the broker.  From a flat account it can open a position (or
    have the open rejected) but never closes it in the same evaluation,
    because the signal that opened it is not the opposite one; with a
    position held it opens nothing, and either keeps the position or
    closes it with one trade. *)
Theorem X25_one_broker_call_per_evaluation
        (sig : option Signal.t) (adx_val : Q) (broker b' : PaperBroker.t)
        (fetch_entry fetch_exit : option Payload)
        (stamp now_entry now_exit : string) :
  trade_on sig adx_val broker fetch_entry fetch_exit stamp now_entry now_exit
  = Some b' ->
  (b' = broker \/ exists op, b' = apply_op broker op)
  /\ (PaperBroker.position broker = None ->
      PaperBroker.closed_trades b' = PaperBroker.closed_trades broker)
  /\ (forall pos,
        PaperBroker.position broker = Some pos ->
        PaperBroker.position b' = Some pos
        \/ (PaperBroker.position b' = None
            /\ exists trade,
                 PaperBroker.closed_trades b'
                 = PaperBroker.closed_trades broker ++ [trade])).
Proof.
  unfold trade_on. intro H.
  destruct (entry_block sig adx_val broker fetch_entry stamp now_entry)
    as [b1|] eqn:He; [|discriminate].
  cbn [bind] in H.
  destruct (entry_block_cases _ _ _ _ _ _ _ He)
    as [->|(sg & s & e & atm & calls & puts & leg & price
            & Hsig & Hflat & _ & _ & _ & _ & _ & Hb1)].
  - (* the entry block made no call *)
    destruct (exit_block_cases _ _ _ _ _ _ H)
      as [->|(pos & sg & s & e & atm & calls & puts & leg & p & reason
              & Hpos & _ & _ & _ & _ & _ & _ & Hb')].
    + split; [now left|]. split; [reflexivity | intros pos Hp; now left].
    + split; [right; now exists (OpExit p (Some stamp) (Some reason) stamp now_exit)|].
      split; [intro Hn; congruence|].
      intros pos' Hp'. right.
      destruct (exit_held broker pos p (Some stamp) (Some reason) stamp now_exit Hpos)
        as (closed & Hx & Hnone & _ & _ & Hct & _).
      rewrite Hx in Hb'. cbn [fst] in Hb'. subst b'.
      split; [exact Hnone|]. eexists. exact Hct.
  - (* the entry block called [enter] *)
    destruct (enter_from_flat broker (Signal.dir sg) price leg (Some stamp)
                              stamp now_entry Hflat) as [Hct Hopened].
    rewrite <- Hb1 in Hct, Hopened.
    destruct (exit_block_cases _ _ _ _ _ _ H)
      as [->|(pos & sg' & _ & _ & _ & _ & _ & _ & _ & _
              & Hpos & Hsig' & Hdir & _)].
    + split; [right; exists (OpEnter (Signal.dir sg) price leg (Some stamp)
                                     stamp now_entry); exact Hb1|].
      split; [intros _; exact Hct | intros pos Hp; congruence].
    + exfalso. rewrite Hsig in Hsig'. injection Hsig' as <-.
      destruct (Hopened pos Hpos) as (Hside & _).
      rewrite Hside in Hdir. exact (opposite_differs _ Hdir).
Qed.

(** X26: the policy opens a position only when there is a signal, the
    trend strength returned for the bar is strictly above 20, the account
    is flat, the chain lookup returned OK, and the leg it picks (the
    at-the-money one, else the first out-of-the-money one; a call for a
    LONG signal, a put otherwise) has a positive ask that capital covers
    50 times.  The position then has the signal's direction as its side,
    that leg as its contract, and the ask with slippage as its entry
    fill. *)
Theorem X26_entry_conditions
        (sig : option Signal.t) (adx_val : Q) (broker b' : PaperBroker.t)
        (fetch_entry fetch_exit : option Payload)
        (stamp now_entry now_exit : string) (pos : Position.t) :
  trade_on sig adx_val broker fetch_entry fetch_exit stamp now_entry now_exit
  = Some b' ->
  PaperBroker.position broker = None ->
  PaperBroker.position b' = Some pos ->
  exists sg s e atm calls puts price,
    sig = Some sg
    /\ ADX_THRESHOLD < adx_val
    /\ fetch_entry = Some (PayloadOK s e atm calls puts)
    /\ Position.side pos = Signal.dir sg
    /\ Some (Position.contract pos)
       = (if String.eqb (Signal.dir sg) "LONG"
          then leg_or (ATM calls) (OTM1 calls)
          else leg_or (ATM puts) (OTM1 puts))
    /\ Contract.ask (Position.contract pos) = Some price
    /\ 0 < price
    /\ price * 50 <= PaperBroker.capital broker
    /\ Position.qty pos = 50%Z
    /\ Position.entry pos
       = price + (if String.eqb (Signal.dir sg) "LONG"
                  then PaperBroker.slippage_pct broker * price
                  else - PaperBroker.slippage_pct broker * price).
Proof.
  unfold trade_on. intros H Hflat Hpos.
  destruct (entry_block sig adx_val broker fetch_entry stamp now_entry)
    as [b1|] eqn:He; [|discriminate].
  cbn [bind] in H.
  assert (Hb1 : b' = b1).
  { destruct (exit_block_cases _ _ _ _ _ _ H)
      as [->|(pos' & sg' & _ & _ & _ & _ & _ & _ & p & reason
              & Hpos' & _ & _ & _ & _ & _ & _ & Hb')]; [reflexivity|].
    exfalso.
    destruct (exit_held b1 pos' p (Some stamp) (Some reason) stamp now_exit Hpos')
      as (closed & Hx & Hnone & _).
    rewrite Hx in Hb'. cbn [fst] in Hb'. subst b'. congruence. }
  subst b'.
  destruct (entry_block_cases _ _ _ _ _ _ _ He)
    as [->|(sg & s & e & atm & calls & puts & leg & price
            & Hsig & _ & Hadx & Hfetch & Hleg & Hask & Hprice & Hb1)];
    [congruence|].
  destruct (enter_from_flat broker (Signal.dir sg) price leg (Some stamp)
                            stamp now_entry Hflat) as [_ Hopened].
  rewrite <- Hb1 in Hopened.
  destruct (Hopened pos Hpos) as (Hside & Hcontract & Hqty & Hentry & Hcap).
  exists sg, s, e, atm, calls, puts, price.
  rewrite Hcontract. now repeat split.
Qed.

(** X27: while a position is held, every evaluation fetches the chain
    again and subscripts the result, so an ERROR payload (which
    [get_strikes_payload] returns for a missing spot) makes the policy
    raise, signal or not. *)
Theorem X27_held_position_needs_ok_payload
        (sig : option Signal.t) (adx_val : Q) (broker : PaperBroker.t)
        (pos : Position.t) (fetch_entry : option Payload)
        (spot : Q) (oc : Chain.Json)
        (stamp now_entry now_exit : string) :
  PaperBroker.position broker = Some pos ->
  spot == 0 ->
  trade_on sig adx_val broker fetch_entry (get_strikes_payload spot oc)
           stamp now_entry now_exit = None.
Proof.
  intros Hpos Hspot. unfold trade_on, entry_block. rewrite Hpos.
  assert (Hp : get_strikes_payload spot oc
               = Some (PayloadError "No NIFTY spot available")).
  { unfold get_strikes_payload. apply truthy_false_iff in Hspot. now rewrite Hspot. }
  rewrite Hp.
  destruct sig; cbn [bind]; unfold exit_block; rewrite Hpos; reflexivity.
Qed.

(** X28: the policy closes a held position only on a signal of the
    opposite direction (SHORT against a LONG position, LONG against any
    other), with an OK chain lookup whose picked leg (a call for a LONG
    position, a put otherwise) has a positive bid; the trade it appends
    exits at that bid with slippage. *)
Theorem X28_exit_conditions
        (sig : option Signal.t) (adx_val : Q) (broker b' : PaperBroker.t)
        (fetch_entry fetch_exit : option Payload)
        (stamp now_entry now_exit : string) (pos : Position.t) :
  trade_on sig adx_val broker fetch_entry fetch_exit stamp now_entry now_exit
  = Some b' ->
  PaperBroker.position broker = Some pos ->
  PaperBroker.position b' = None ->
  exists sg s e atm calls puts leg p trade,
    sig = Some sg
    /\ Signal.dir sg = (if String.eqb (Position.side pos) "LONG"
                        then "SHORT" else "LONG")%string
    /\ fetch_exit = Some (PayloadOK s e atm calls puts)
    /\ (if String.eqb (Position.side pos) "LONG"
        then leg_or (ATM calls) (OTM1 calls)
        else leg_or (ATM puts) (OTM1 puts)) = Some leg
    /\ Contract.bid leg = Some p
    /\ 0 < p
    /\ PaperBroker.closed_trades b' = PaperBroker.closed_trades broker ++ [trade]
    /\ Trade.exit_price trade
       = p - (if String.eqb (Position.side pos) "LONG"
              then PaperBroker.slippage_pct broker * p
              else - PaperBroker.slippage_pct broker * p).
Proof.
  unfold trade_on. intros H Hpos Hnone.
  assert (He : entry_block sig adx_val broker fetch_entry stamp now_entry
               = Some broker).
  { unfold entry_block. rewrite Hpos. now destruct sig. }
  rewrite He in H. cbn [bind] in H.
  destruct (exit_block_cases _ _ _ _ _ _ H)
    as [->|(pos' & sg & s & e & atm & calls & puts & leg & p & reason
            & Hpos' & Hsig & Hdir & Hfetch & Hleg & Hbid & Hp & Hb')];
    [congruence|].
  rewrite Hpos in Hpos'. injection Hpos' as <-.
  destruct (exit_held broker pos p (Some stamp) (Some reason) stamp now_exit Hpos)
    as (closed & Hx & _ & _ & _ & Hct & _).
  rewrite Hx in Hb'. cbn [fst] in Hb'. subst b'.
  exists sg, s, e, atm, calls, puts, leg, p. eexists.
  split; [exact Hsig|]. split; [exact Hdir|]. split; [exact Hfetch|].
  split; [exact Hleg|]. split; [exact Hbid|]. split; [exact Hp|].
  split; [exact Hct | reflexivity].
Qed.

Section PolicyExamples.

(** X25 on a flat account with a LONG signal and trend strength 25: the
    evaluation leaves the closed trades as they were. *)
Lemma X25_one_broker_call_per_evaluation_witness :
  exists b',
    trade_on (Some long_signal) 25 run_broker
             (get_strikes_payload 25012.3 sample_oc)
             (get_strikes_payload 25012.3 sample_oc)
             "2025-11-20T10:00:03" "2025-11-20T10:00:04" "2025-11-20T10:00:05"
    = Some b'
    /\ PaperBroker.closed_trades b' = PaperBroker.closed_trades run_broker.
Proof.
  destruct (trade_on (Some long_signal) 25 run_broker
                     (get_strikes_payload 25012.3 sample_oc)
                     (get_strikes_payload 25012.3 sample_oc)
                     "2025-11-20T10:00:03" "2025-11-20T10:00:04"
                     "2025-11-20T10:00:05") as [b'|] eqn:H;
    [|vm_compute in H; discriminate].
  exists b'. split; [reflexivity|].
  exact (proj1 (proj2 (X25_one_broker_call_per_evaluation _ _ _ _ _ _ _ _ _ H))
               eq_refl).
Defined.

(** X26 on the same evaluation: the position opened is LONG, 50 units of
    the at-the-money call. *)
Lemma X26_entry_conditions_witness :
  exists b' pos,
    trade_on (Some long_signal) 25 run_broker
             (get_strikes_payload 25012.3 sample_oc)
             (get_strikes_payload 25012.3 sample_oc)
             "2025-11-20T10:00:03" "2025-11-20T10:00:04" "2025-11-20T10:00:05"
    = Some b'
    /\ PaperBroker.position run_broker = None
    /\ PaperBroker.position b' = Some pos
    /\ Position.side pos = "LONG"%string
    /\ Position.qty pos = 50%Z.
Proof.
  destruct (trade_on (Some long_signal) 25 run_broker
                     (get_strikes_payload 25012.3 sample_oc)
                     (get_strikes_payload 25012.3 sample_oc)
                     "2025-11-20T10:00:03" "2025-11-20T10:00:04"
                     "2025-11-20T10:00:05") as [b'|] eqn:H;
    [|vm_compute in H; discriminate].
  destruct (PaperBroker.position b') as [pos|] eqn:Hpos;
    [|pose proof H as Hc; vm_compute in Hc; injection Hc as Hc;
      rewrite <- Hc in Hpos; discriminate].
  exists b', pos.
  split; [reflexivity|]. split; [reflexivity|]. split; [exact Hpos|].
  destruct (X26_entry_conditions _ _ _ _ _ _ _ _ _ pos H eq_refl Hpos)
    as (sg & s & e & atm & calls & puts & price
        & Hsig & _ & _ & Hside & _ & _ & _ & _ & Hqty & _).
  injection Hsig as <-. split; [exact Hside | exact Hqty].
Defined.

(** X27 on a held LONG position when the spot is missing: the evaluation
    raises even though a valid opposite signal is present. *)
Lemma X27_held_position_needs_ok_payload_witness :
  exists pos,
    PaperBroker.position held_broker = Some pos
    /\ trade_on (Some short_signal) 25 held_broker
                (get_strikes_payload 25012.3 sample_oc)
                (get_strikes_payload 0 sample_oc)
                "2025-11-20T10:15:03" "2025-11-20T10:15:04" "2025-11-20T10:15:05"
       = None.
Proof.
  destruct (PaperBroker.position held_broker) as [pos|] eqn:Hpos;
    [|vm_compute in Hpos; discriminate].
  exists pos. split; [reflexivity|].
  apply (X27_held_position_needs_ok_payload
           (Some short_signal) 25 held_broker pos _ 0 sample_oc _ _ _ Hpos).
  reflexivity.
Defined.

(** X28 on a held LONG position and a SHORT signal: the position is
    closed with one trade. *)
Lemma X28_exit_conditions_witness :
  exists pos b' trade,
    PaperBroker.position held_broker = Some pos
    /\ trade_on (Some short_signal) 25 held_broker
                (get_strikes_payload 25012.3 sample_oc)
                (get_strikes_payload 25012.3 sample_oc)
                "2025-11-20T10:15:03" "2025-11-20T10:15:04" "2025-11-20T10:15:05"
       = Some b'
    /\ PaperBroker.position b' = None
    /\ PaperBroker.closed_trades b'
       = PaperBroker.closed_trades held_broker ++ [trade].
Proof.
  destruct (PaperBroker.position held_broker) as [pos|] eqn:Hpos;
    [|vm_compute in Hpos; discriminate].
  destruct (trade_on (Some short_signal) 25 held_broker
                     (get_strikes_payload 25012.3 sample_oc)
                     (get_strikes_payload 25012.3 sample_oc)
                     "2025-11-20T10:15:03" "2025-11-20T10:15:04"
                     "2025-11-20T10:15:05") as [b'|] eqn:H;
    [|vm_compute in H; discriminate].
  assert (Hnone : PaperBroker.position b' = None)
    by (pose proof H as Hc; vm_compute in Hc; injection Hc as Hc;
        rewrite <- Hc; reflexivity).
  destruct (X28_exit_conditions _ _ _ _ _ _ _ _ _ pos H Hpos Hnone)
    as (sg & s & e & atm & calls & puts & leg & p & trade
        & _ & _ & _ & _ & _ & _ & Hct & _).
  exists pos, b', trade.
  split; [reflexivity|]. split; [reflexivity|]. split; [exact Hnone | exact Hct].
Defined.

End PolicyExamples.

(** ** The first call of the tracker *)

Section FirstCall.

Lemma decay_nonneg_period (period : Z) (x : Q) :
  period <> 0%Z -> 0 <= x -> 0 <= x - x / inject_Z period.
Proof.
  intros Hp Hx.
  destruct (Z_lt_le_dec 0 period) as [Hpos|Hneg].
  - apply decay_nonneg; [|exact Hx]. unfold Qle, inject_Z. simpl. lia.
  - assert (HP : 0 < - inject_Z period)
      by (unfold Qlt, inject_Z; simpl; lia).
    assert (Hq : 0 <= x / (- inject_Z period))
      by (apply Qle_shift_div_l; [exact HP | lra]).
    assert (E : x / inject_Z period == - (x / (- inject_Z period)))
      by (field; intro K; rewrite K in HP; apply (Qlt_irrefl 0); exact HP).
    lra.
Qed.

(** The value the first step returns: the DX of the bar against the
    seed, which is all or nothing. *)
Lemma first_step_reading (period : Z) (h l c : Q) :
  period <> 0%Z ->
  let pv := {| ADXTracker.close := c; ADXTracker.high := c; ADXTracker.low := c;
               ADXTracker.tr_s := ADXTracker.eps; ADXTracker.pdm_s := 0;
               ADXTracker.mdm_s := 0; ADXTracker.adx := 0 |} in
  let v := ADXTracker.adx (ADXTracker.step pv (inject_Z period) h l c) in
  v = step_dx pv (inject_Z period) h l c
  /\ (c < h \/ l < c -> v == 100)
  /\ (h <= c /\ c <= l -> v == 0).
Proof.
  intros Hp pv v.
  set (P := inject_Z period) in *.
  assert (Hv : v = step_dx pv P h l c) by reflexivity.
  split; [exact Hv|]. rewrite Hv. clear Hv v.
  unfold step_dx. cbn [ADXTracker.close ADXTracker.high ADXTracker.low
                       ADXTracker.tr_s ADXTracker.pdm_s ADXTracker.mdm_s pv].
  set (a := Py.max2 (h - c) 0). set (b := Py.max2 (c - l) 0).
  set (tr := Py.max3 (h - l) (Qabs (h - c)) (Qabs (l - c))).
  assert (Ha0 : 0 <= a) by apply max2_ge_r.
  assert (Hb0 : 0 <= b) by apply max2_ge_r.
  assert (Ha1 : h - c <= a) by apply max2_ge_l.
  assert (Hb1 : c - l <= b) by apply max2_ge_l.
  assert (Ha2 : h <= c -> a == 0).
  { intro H. unfold a. destruct (max2_cases (h - c) 0) as [[_ ->]|[? ->]]; lra. }
  assert (Hb2 : c <= l -> b == 0).
  { intro H. unfold b. destruct (max2_cases (c - l) 0) as [[_ ->]|[? ->]]; lra. }
  pose proof (zero_div P) as Hz.
  set (dm := ADXTracker.select_dm a b).
  assert (Hdm : 0 <= fst dm /\ 0 <= snd dm /\ (fst dm == 0 \/ snd dm == 0)
                /\ (0 < a \/ 0 < b -> 0 < fst dm + snd dm)
                /\ (a == 0 -> b == 0 -> fst dm == 0 /\ snd dm == 0)).
  { unfold dm, ADXTracker.select_dm. destruct (Py.lt a b) eqn:E; cbn [fst snd].
    - apply lt_true_iff in E.
      repeat split; first [lra | left; reflexivity | intros; lra].
    - apply lt_false_iff in E.
      repeat split; first [lra | right; reflexivity | intros; lra]. }
  destruct Hdm as (Hd1 & Hd2 & Hd3 & Hd4 & Hd5).
  set (pdm' := 0 - 0 / P + fst dm). set (mdm' := 0 - 0 / P + snd dm).
  assert (Hpdm : pdm' == fst dm) by (unfold pdm'; lra).
  assert (Hmdm : mdm' == snd dm) by (unfold mdm'; lra).
  set (tr' := ADXTracker.eps - ADXTracker.eps / P + tr).
  split.
  - intro Hmoved.
    assert (Htr : 0 < tr).
    { destruct Hmoved as [H|H].
      - pose proof (max3_ge_2 (h - l) (Qabs (h - c)) (Qabs (l - c))).
        pose proof (Qle_Qabs (h - c)). unfold tr. lra.
      - pose proof (max3_ge_3 (h - l) (Qabs (h - c)) (Qabs (l - c))).
        assert (Qabs (l - c) == - (l - c)) by (apply Qabs_neg; lra).
        unfold tr. lra. }
    assert (Htr' : 0 < tr').
    { pose proof (decay_nonneg_period period ADXTracker.eps Hp
                                      ltac:(unfold ADXTracker.eps; lra)).
      fold P in H. unfold tr'. lra. }
    assert (Ht : Py.truthy tr' = true) by (apply truthy_true_iff; lra).
    rewrite Ht.
    assert (0 < fst dm + snd dm) by (apply Hd4; lra).
    apply dx_moved; lra.
  - intros [Hh Hl].
    destruct (Hd5 (Ha2 Hh) (Hb2 Hl)) as [H1 H2].
    apply dx_still; lra.
Qed.

End FirstCall.

(** C1, amended: the first call on an unseeded tracker seeds it and then,
    in the same call, runs the ordinary update step on the seeded state.
    It never raises for a non-zero period; afterwards the tracker is ready,
    [prev_close], [prev_high], [prev_low] are the call's [close], [high],
    [low], the smoothed true range is [eps - eps/N + true_range] with
    [true_range = max(high-low, |high-close|, |low-close|)], the smoothed
    directional moves are the surviving raw moves against the seed, and the
    returned value is the stored trend strength: the DX of that step,
    unsmoothed, which is 100 when [high > close] or [low < close] and 0
    otherwise (so 0 when [high = low = close]). *)
Theorem C1_first_update_seeds_then_steps (period : Z) (h l c : Q) :
  period <> 0%Z ->
  let seed_prev := {| ADXTracker.close := c; ADXTracker.high := c;
                      ADXTracker.low := c; ADXTracker.tr_s := ADXTracker.eps;
                      ADXTracker.pdm_s := 0; ADXTracker.mdm_s := 0;
                      ADXTracker.adx := 0 |} in
  exists self' pv' v,
    ADXTracker.update (ADXTracker.init period) h l c = Some (self', v)
    /\ ADXTracker.prev (ADXTracker.seed (ADXTracker.init period) c)
       = Some seed_prev
    /\ ADXTracker.update (ADXTracker.seed (ADXTracker.init period) c) h l c
       = Some (self', v)
    /\ ADXTracker.ready self' = true
    /\ ADXTracker.prev self' = Some pv'
    /\ ADXTracker.close pv' = c
    /\ ADXTracker.high pv' = h
    /\ ADXTracker.low pv' = l
    /\ ADXTracker.tr_s pv'
       == ADXTracker.eps - ADXTracker.eps / inject_Z period
          + Py.max3 (h - l) (Qabs (h - c)) (Qabs (l - c))
    /\ ADXTracker.pdm_s pv'
       == fst (ADXTracker.select_dm (Py.max2 (h - c) 0) (Py.max2 (c - l) 0))
    /\ ADXTracker.mdm_s pv'
       == snd (ADXTracker.select_dm (Py.max2 (h - c) 0) (Py.max2 (c - l) 0))
    /\ ADXTracker.adx pv' = v
    /\ v = step_dx seed_prev (inject_Z period) h l c
    /\ (c < h \/ l < c -> v == 100)
    /\ (h <= c /\ c <= l -> v == 0)
    /\ (h == c -> l == c -> v == 0).
Proof.
  intros Hp pv.
  pose proof (ADXFacts.period_nonzero period Hp) as HP.
  destruct (first_step_reading period h l c Hp) as (Hdx & Hmoved & Hstill).
  fold pv in Hdx, Hmoved, Hstill.
  exists {| ADXTracker.p := period; ADXTracker.ready := true;
            ADXTracker.prev := Some (ADXTracker.step pv (inject_Z period) h l c) |}.
  exists (ADXTracker.step pv (inject_Z period) h l c).
  exists (ADXTracker.adx (ADXTracker.step pv (inject_Z period) h l c)).
  split; [|split; [reflexivity|split]].
  - apply (ADXFacts.update_step (ADXTracker.init period) pv); [reflexivity | exact HP].
  - apply (ADXFacts.update_step (ADXTracker.seed (ADXTracker.init period) c) pv);
      [reflexivity | exact HP].
  - split; [reflexivity|]. split; [reflexivity|].
    split; [reflexivity|]. split; [reflexivity|]. split; [reflexivity|].
    split; [reflexivity|].
    split; [cbn; unfold Qdiv; rewrite Qmult_0_l; lra|].
    split; [cbn; unfold Qdiv; rewrite Qmult_0_l; lra|].
    split; [reflexivity|]. split; [exact Hdx|].
    split; [exact Hmoved|]. split; [exact Hstill|].
    intros Hh Hl. apply Hstill. split; lra.
Qed.

(** The amended C1 at the bar of the counterexample: the first call
    returns 100 and keeps the bar's high. *)
Lemma C1_first_update_seeds_then_steps_witness :
  14%Z <> 0%Z /\
  exists self' pv' v,
    ADXTracker.update (ADXTracker.init 14) 110 100 105 = Some (self', v)
    /\ ADXTracker.prev self' = Some pv'
    /\ ADXTracker.high pv' = 110
    /\ v == 100.
Proof.
  split; [lia|].
  destruct (C1_first_update_seeds_then_steps 14 110 100 105 ltac:(lia))
    as (self' & pv' & v & H1 & _ & _ & _ & H4 & _ & H6 & _ & _ & _ & _ & _ & _
        & Hm & _).
  exists self', pv', v. repeat split; try assumption.
  apply Hm. left. reflexivity.
Defined.

(** * The paper broker in binary64 arithmetic *)

(** ** Rounding *)

Section Binary64Facts.

Lemma pow2_pos (e : Z) : 0 < Binary64.pow2 e.
Proof. unfold Binary64.pow2. apply Qpower_0_lt. reflexivity. Qed.

Lemma pow2_plus (a b : Z) :
  Binary64.pow2 (a + b) == Binary64.pow2 a * Binary64.pow2 b.
Proof. unfold Binary64.pow2. apply Qpower_plus. discriminate. Qed.

Lemma pow2_inject (n : Z) : (0 <= n)%Z -> Binary64.pow2 n == inject_Z (2 ^ n).
Proof.
  intro H. unfold Binary64.pow2. symmetry.
  exact (Zpower_Qpower 2 n H).
Qed.

Lemma u_pow2 : Binary64.u == Binary64.pow2 (-53).
Proof. reflexivity. Qed.

Lemma eta_pos : 0 < Binary64.eta.
Proof. apply pow2_pos. Qed.

(** [floor_log2] does not overshoot. *)
Lemma floor_log2_le (x : Q) : 0 < x -> Binary64.pow2 (Binary64.floor_log2 x) <= x.
Proof.
  intro Hx. unfold Binary64.floor_log2.
  destruct (Qle_bool _ x) eqn:E; [now apply Qle_bool_iff in E|].
  clear E. destruct x as [n d].
  assert (Hn : (0 < n)%Z) by (unfold Qlt in Hx; simpl in Hx; lia).
  cbn [Qnum Qden].
  set (a := Z.log2 n). set (b := Z.log2 (Zpos d)).
  assert (Ha0 : (0 <= a)%Z) by apply Z.log2_nonneg.
  assert (Hb0 : (0 <= b)%Z) by apply Z.log2_nonneg.
  destruct (Z.log2_spec n Hn) as [Ha _]. fold a in Ha.
  destruct (Z.log2_spec (Zpos d) eq_refl) as [_ Hb]. fold b in Hb.
  rewrite <- Z.add_1_r in Hb.
  pose proof (pow2_plus (a - b - 1) (b + 1)) as Hsplit.
  replace (a - b - 1 + (b + 1))%Z with a in Hsplit by lia.
  rewrite (pow2_inject a Ha0), (pow2_inject (b + 1) ltac:(lia)) in Hsplit.
  pose proof (pow2_pos (a - b - 1)) as Hp.
  set (P := Binary64.pow2 (a - b - 1)) in *.
  assert (HA : inject_Z (2 ^ a) <= inject_Z n) by (rewrite <- Zle_Qle; exact Ha).
  assert (HB : inject_Z (Zpos d) <= inject_Z (2 ^ (b + 1)))
    by (rewrite <- Zle_Qle; lia).
  assert (HD : 0 < inject_Z (Zpos d)) by reflexivity.
  rewrite (Qmake_Qdiv n d).
  apply Qle_shift_div_l; [exact HD|].
  set (N := inject_Z n) in *. set (D := inject_Z (Zpos d)) in *.
  set (A := inject_Z (2 ^ a)) in *. set (B := inject_Z (2 ^ (b + 1))) in *.
  assert (P * D <= P * B) by (apply Qmult_le_l; assumption).
  lra.
Qed.

Lemma round_compat (x y : Q) : x == y -> Binary64.round x = Binary64.round y.
Proof.
  intro H. unfold Binary64.round. now rewrite (Qred_complete x y H).
Qed.

Lemma py_round_nonneg (y : Q) : 0 <= y -> (0 <= py_round y)%Z.
Proof.
  intro H.
  assert (Hf : (0 <= Qfloor y)%Z).
  { change 0%Z with (Qfloor 0). now apply Qfloor_resp_le. }
  destruct (py_round_cases y) as [[_ ->]|[[_ ->]|[_ ->]]];
    [| |destruct (Z.even _)]; lia.
Qed.

Lemma round_nonneg (x : Q) : 0 <= x -> 0 <= Binary64.round x.
Proof.
  intro H. unfold Binary64.round.
  pose proof (pow2_pos (Binary64.exponent (Qred x))) as Hq.
  set (q := Binary64.pow2 _) in *.
  assert (Hy : 0 <= Qred x / q).
  { apply Qle_shift_div_l; [exact Hq|]. rewrite Qred_correct. lra. }
  pose proof (py_round_nonneg _ Hy) as Hm.
  apply Qmult_le_0_compat; [|lra].
  change 0 with (inject_Z 0). now rewrite <- Zle_Qle.
Qed.

Lemma scaled_near (m y q : Q) :
  0 < q -> Qabs (m - y) <= 1 # 2 -> Qabs (m * q - y * q) <= q * (1 # 2).
Proof.
  intros Hq H. apply Qabs_Qle_condition in H. destruct H as [H1 H2].
  apply Qabs_Qle_condition.
  assert (Ha : (m - y) * q <= (1 # 2) * q) by (apply Qmult_le_compat_r; lra).
  assert (Hb : (- (1 # 2)) * q <= (m - y) * q) by (apply Qmult_le_compat_r; lra).
  assert (E : (m - y) * q == m * q - y * q) by ring.
  rewrite E in Ha, Hb.
  set (a := m * q) in *. set (b := y * q) in *. clearbody a b.
  split; lra.
Qed.

Lemma round_zero : Binary64.round 0 == 0.
Proof. reflexivity. Qed.

(** Some doubles: the literals [0.1], [0.001] and [100.1], a number that
    is one already, two ties above [2^53] and one among the subnormal
    numbers. *)
Example round_literals :
  Binary64.round 0.1 == 3602879701896397 # 36028797018963968
  /\ Binary64.round 0.001 == 1152921504606847 # 1152921504606846976
  /\ Binary64.round 100.1 == 3521955646092083 # 35184372088832
  /\ Binary64.round 489.5 == 489.5.
Proof. repeat split; vm_compute; reflexivity. Qed.

Example round_ties_to_even :
  Binary64.round 9007199254740993 == 9007199254740992
  /\ Binary64.round 9007199254740995 == 9007199254740996
  /\ Binary64.round (3 * Binary64.pow2 (-1075)) == Binary64.pow2 (-1073).
Proof. repeat split; vm_compute; reflexivity. Qed.

(** Rounding to nearest: the error is at most half a unit in the last
    place, that is [u * |x|] for a normal result and [eta] for a
    subnormal one. *)
Lemma round_error (x : Q) :
  Qabs (Binary64.round x - x) <= Binary64.u * Qabs x + Binary64.eta.
Proof.
  pose proof (Qabs_nonneg x) as Hax. pose proof eta_pos as Heta.
  assert (Hux : 0 <= Binary64.u * Qabs x)
    by (apply Qmult_le_0_compat; [discriminate | exact Hax]).
  destruct (Qeq_dec x 0) as [Hz|Hnz].
  { rewrite (round_compat x 0 Hz), round_zero.
    assert (H0 : Qabs (0 - x) == 0) by (rewrite Hz; reflexivity).
    lra. }
  unfold Binary64.round.
  pose proof (Qred_correct x) as Hred.
  set (x' := Qred x) in *.
  set (e := Binary64.exponent x').
  pose proof (pow2_pos e) as Hq.
  set (q := Binary64.pow2 e) in *.
  pose proof (py_round_near (x' / q)) as Hnear.
  set (m := inject_Z (py_round (x' / q))) in *.
  assert (Herr : Qabs (m * q - x) <= q * (1 # 2)).
  { assert (Hx : x == (x' / q) * q) by (rewrite Hred; field; lra).
    rewrite Hx at 1. now apply scaled_near. }
  assert (Hhalf : q * (1 # 2) <= Binary64.u * Qabs x + Binary64.eta).
  { unfold q, e, Binary64.exponent.
    destruct (Z.max_spec (Binary64.floor_log2 (Qabs x') - 52) (-1074))
      as [[_ ->]|[_ ->]].
    - assert (He : Binary64.pow2 (-1074) * (1 # 2) == Binary64.eta) by reflexivity.
      rewrite He. set (eta := Binary64.eta) in *. clearbody eta. lra.
    - assert (Hpos : 0 < Qabs x').
      { destruct (Qlt_le_dec 0 (Qabs x')) as [H|H]; [exact H|].
        exfalso. apply Qabs_Qle_condition in H. apply Hnz.
        clearbody x'. lra. }
      pose proof (floor_log2_le (Qabs x') Hpos) as Hfl.
      set (k := Binary64.floor_log2 (Qabs x')) in *.
      pose proof (pow2_plus k (-53)) as Hs.
      replace (k + -53)%Z with (k - 52 + -1)%Z in Hs by lia.
      rewrite (pow2_plus (k - 52) (-1)) in Hs.
      assert (H1 : Binary64.pow2 (-1) == 1 # 2) by reflexivity.
      assert (H53 : Binary64.pow2 (-53) == Binary64.u) by reflexivity.
      rewrite H1, H53 in Hs.
      assert (Hm : Binary64.pow2 k * Binary64.u <= Qabs x' * Binary64.u)
        by (apply Qmult_le_compat_r; [exact Hfl | discriminate]).
      rewrite Hred in Hm.
      set (pk := Binary64.pow2 (k - 52)) in *.
      set (ax := Qabs x) in *. set (B := Binary64.pow2 k) in *.
      clear H1 H53. clearbody pk ax B.
      set (eta := Binary64.eta) in *. clearbody eta.
      unfold Binary64.u in *. lra. }
  lra.
Qed.

End Binary64Facts.

(** ** Rounding in a round trip *)

Section RoundingAnalysis.

Lemma round_within (x M : Q) :
  - M <= x -> x <= M ->
  x - (Binary64.u * M + Binary64.eta) <= Binary64.round x
  /\ Binary64.round x <= x + (Binary64.u * M + Binary64.eta).
Proof.
  intros H1 H2.
  pose proof (round_error x) as He.
  assert (Ha : Qabs x <= M) by (apply Qabs_Qle_condition; split; lra).
  assert (Hu : Binary64.u * Qabs x <= Binary64.u * M)
    by (apply Qmult_le_l; [reflexivity | exact Ha]).
  set (eta := Binary64.eta) in *. clearbody eta.
  set (ux := Binary64.u * Qabs x) in *. clearbody ux.
  set (uM := Binary64.u * M) in *. clearbody uM.
  assert (Hb : Qabs (Binary64.round x - x) <= uM + eta) by lra.
  apply Qabs_Qle_condition in Hb. destruct Hb as [Hb1 Hb2].
  split; lra.
Qed.

Lemma slip_bounds (s q : Q) : 0 <= s -> s <= 1 -> 0 <= q -> 0 <= s * q /\ s * q <= q.
Proof.
  intros H0 H1 Hq. split.
  - apply Qmult_le_0_compat; assumption.
  - assert (s * q <= 1 * q) by (apply Qmult_le_compat_r; assumption). lra.
Qed.

(** Arithmetic of a LONG round trip *)
Lemma long_round_trip_arith (s q p cap : Q) :
  0 <= s -> s <= 1 -> 0 <= q -> 0 <= p ->
  let cost := Binary64.mul q 50 in
  let fin := Binary64.add q (Binary64.mul s q) in
  let fout := Binary64.sub p (Binary64.mul s p) in
  let pnl := Binary64.mul (Binary64.sub fout fin) 50 in
  let cap2 := Binary64.add (Binary64.sub cap cost) (Binary64.mul fout 50) in
  cost <= cap ->
  Qabs (fin - q * (1 + s)) <= 4 * Binary64.u * q + 3 * Binary64.eta
  /\ Qabs (fout - p * (1 - s)) <= 4 * Binary64.u * p + 3 * Binary64.eta
  /\ Qabs (pnl - (p * (1 - s) - q * (1 + s)) * 50) <= pnl_slack q p
  /\ Qabs (cap2 - cap - (p * (1 - s) - q) * 50) <= capital_slack cap q p
  /\ Qabs (cap2 - cap - pnl - s * q * 50)
     <= pnl_slack q p + capital_slack cap q p.
Proof.
  intros Hs0 Hs1 Hq Hp. cbv zeta.
  pose proof eta_pos as Heta.
  unfold Binary64.add, Binary64.sub, Binary64.mul, pnl_slack, capital_slack.
  destruct (slip_bounds s q Hs0 Hs1 Hq) as [HA0 HA1].
  destruct (slip_bounds s p Hs0 Hs1 Hp) as [HB0 HB1].
  assert (E1 : q * (1 + s) == q + s * q) by ring.
  assert (E2 : p * (1 - s) == p - s * p) by ring.
  rewrite E1, E2. clear E1 E2.
  set (A := s * q) in *. set (B := s * p) in *. clearbody A B.
  (* cost *)
  pose proof (round_within (q * 50) (q * 50) ltac:(lra) ltac:(lra)) as [Hc1 Hc2].
  pose proof (round_nonneg (q * 50) ltac:(lra)) as Hc0.
  set (cost := Binary64.round (q * 50)) in *.
  intro Hcap.
  (* entry fill *)
  pose proof (round_within A A ltac:(lra) ltac:(lra)) as [Ha1 Ha2].
  pose proof (round_nonneg A HA0) as Ha0.
  set (a := Binary64.round A) in *.
  pose proof (round_within (q + a) (q + a) ltac:(lra) ltac:(lra)) as [Hf1 Hf2].
  pose proof (round_nonneg (q + a) ltac:(lra)) as Hf0.
  set (fin := Binary64.round (q + a)) in *.
  (* capital after the open *)
  pose proof (round_within (cap - cost) (cap - cost) ltac:(lra) ltac:(lra)) as [Hk1 Hk2].
  pose proof (round_nonneg (cap - cost) ltac:(lra)) as Hk0.
  set (cap1 := Binary64.round (cap - cost)) in *.
  (* exit fill *)
  pose proof (round_within B B ltac:(lra) ltac:(lra)) as [Hb1 Hb2].
  pose proof (round_nonneg B HB0) as Hb0.
  set (b := Binary64.round B) in *.
  pose proof (round_within (p - b) (p + b) ltac:(lra) ltac:(lra)) as [Ho1 Ho2].
  set (fout := Binary64.round (p - b)) in *.
  set (F := p + b + (Binary64.u * (p + b) + Binary64.eta)) in *.
  (* pnl *)
  pose proof (round_within (fout - fin) (F + fin) ltac:(unfold F in *; b64_lra) ltac:(unfold F in *; b64_lra))
    as [Hd1 Hd2].
  set (d := Binary64.round (fout - fin)) in *.
  set (D := F + fin + (Binary64.u * (F + fin) + Binary64.eta)) in *.
  pose proof (round_within (d * 50) (D * 50) ltac:(unfold D, F in *; b64_lra) ltac:(unfold D, F in *; b64_lra))
    as [Hp1 Hp2].
  set (pnl := Binary64.round (d * 50)) in *.
  (* capital after the close *)
  pose proof (round_within (fout * 50) (F * 50) ltac:(unfold F in *; b64_lra) ltac:(unfold F in *; b64_lra))
    as [Hr1 Hr2].
  set (cr := Binary64.round (fout * 50)) in *.
  pose proof (round_within (cap1 + cr) (cap1 + F * 50 + (Binary64.u * (F * 50) + Binary64.eta))
                           ltac:(unfold F in *; b64_lra) ltac:(unfold F in *; b64_lra))
    as [Hz1 Hz2].
  set (cap2 := Binary64.round (cap1 + cr)) in *.
  clearbody cost a fin cap1 b fout d pnl cr cap2.
  unfold D, F in *. clear D F.
  repeat split; apply Qabs_Qle_condition; split; b64_lra.
Qed.

(** Arithmetic of a SHORT round trip *)
Lemma short_round_trip_arith (s q p cap : Q) :
  0 <= s -> s <= 1 -> 0 <= q -> 0 <= p ->
  let cost := Binary64.mul q 50 in
  let fin := Binary64.add q (Binary64.mul (- s) q) in
  let fout := Binary64.sub p (Binary64.mul (- s) p) in
  let pnl := Binary64.mul (Binary64.sub fin fout) 50 in
  let cap2 := Binary64.add (Binary64.sub cap cost) (Binary64.mul fout 50) in
  cost <= cap ->
  Qabs (fin - q * (1 - s)) <= 4 * Binary64.u * q + 3 * Binary64.eta
  /\ Qabs (fout - p * (1 + s)) <= 4 * Binary64.u * p + 3 * Binary64.eta
  /\ Qabs (pnl - (q * (1 - s) - p * (1 + s)) * 50) <= pnl_slack q p
  /\ Qabs (cap2 - cap - (p * (1 + s) - q) * 50) <= capital_slack cap q p
  /\ Qabs (cap2 - cap + pnl + s * q * 50)
     <= pnl_slack q p + capital_slack cap q p.
Proof.
  intros Hs0 Hs1 Hq Hp. cbv zeta.
  pose proof eta_pos as Heta.
  unfold Binary64.add, Binary64.sub, Binary64.mul, pnl_slack, capital_slack.
  destruct (slip_bounds s q Hs0 Hs1 Hq) as [HA0 HA1].
  destruct (slip_bounds s p Hs0 Hs1 Hp) as [HB0 HB1].
  assert (E1 : q * (1 - s) == q - s * q) by ring.
  assert (E2 : p * (1 + s) == p + s * p) by ring.
  rewrite E1, E2. clear E1 E2.
  rewrite (round_compat (- s * q) (- (s * q)) ltac:(ring)).
  rewrite (round_compat (- s * p) (- (s * p)) ltac:(ring)).
  set (A := s * q) in *. set (B := s * p) in *. clearbody A B.
  (* cost *)
  pose proof (round_within (q * 50) (q * 50) ltac:(lra) ltac:(lra)) as [Hc1 Hc2].
  pose proof (round_nonneg (q * 50) ltac:(lra)) as Hc0.
  set (cost := Binary64.round (q * 50)) in *.
  intro Hcap.
  (* entry fill *)
  pose proof (round_within (- A) A ltac:(lra) ltac:(lra)) as [Ha1 Ha2].
  set (a := Binary64.round (- A)) in *.
  set (Am := A + (Binary64.u * A + Binary64.eta)) in *.
  pose proof (round_within (q + a) (q + Am) ltac:(unfold Am in *; b64_lra)
                           ltac:(unfold Am in *; b64_lra)) as [Hf1 Hf2].
  set (fin := Binary64.round (q + a)) in *.
  set (Fi := q + Am + (Binary64.u * (q + Am) + Binary64.eta)) in *.
  (* capital after the open *)
  pose proof (round_within (cap - cost) (cap - cost) ltac:(lra) ltac:(lra)) as [Hk1 Hk2].
  pose proof (round_nonneg (cap - cost) ltac:(lra)) as Hk0.
  set (cap1 := Binary64.round (cap - cost)) in *.
  (* exit fill *)
  pose proof (round_within (- B) B ltac:(lra) ltac:(lra)) as [Hb1 Hb2].
  set (b := Binary64.round (- B)) in *.
  set (Bm := B + (Binary64.u * B + Binary64.eta)) in *.
  pose proof (round_within (p - b) (p + Bm) ltac:(unfold Bm in *; b64_lra)
                           ltac:(unfold Bm in *; b64_lra)) as [Ho1 Ho2].
  set (fout := Binary64.round (p - b)) in *.
  set (F := p + Bm + (Binary64.u * (p + Bm) + Binary64.eta)) in *.
  (* pnl *)
  pose proof (round_within (fin - fout) (Fi + F)
                           ltac:(unfold Fi, F, Am, Bm in *; b64_lra)
                           ltac:(unfold Fi, F, Am, Bm in *; b64_lra))
    as [Hd1 Hd2].
  set (d := Binary64.round (fin - fout)) in *.
  set (D := Fi + F + (Binary64.u * (Fi + F) + Binary64.eta)) in *.
  pose proof (round_within (d * 50) (D * 50)
                           ltac:(unfold D, Fi, F, Am, Bm in *; b64_lra)
                           ltac:(unfold D, Fi, F, Am, Bm in *; b64_lra))
    as [Hp1 Hp2].
  set (pnl := Binary64.round (d * 50)) in *.
  (* capital after the close *)
  pose proof (round_within (fout * 50) (F * 50)
                           ltac:(unfold F, Bm in *; b64_lra)
                           ltac:(unfold F, Bm in *; b64_lra))
    as [Hr1 Hr2].
  set (cr := Binary64.round (fout * 50)) in *.
  pose proof (round_within (cap1 + cr)
                           (cap1 + F * 50 + (Binary64.u * (F * 50) + Binary64.eta))
                           ltac:(unfold F, Bm in *; b64_lra)
                           ltac:(unfold F, Bm in *; b64_lra))
    as [Hz1 Hz2].
  set (cap2 := Binary64.round (cap1 + cr)) in *.
  clearbody cost a fin cap1 b fout d pnl cr cap2.
  unfold D, Fi, F, Am, Bm in *. clear D Fi F Am Bm.
  repeat split; apply Qabs_Qle_condition; split; b64_lra.
Qed.

End RoundingAnalysis.

(** ** Round trips *)

Section Broker64.

(** [enter] succeeds exactly from a flat account whose capital covers the
    rounded cost. *)
Lemma enter64_true_iff (self : PaperBroker.t) (side : string) (price : Q)
      (contract : Contract.t) (timestamp : option string)
      (now_stamp now_log : string) :
  snd (PaperBroker64.enter self side price contract timestamp now_stamp now_log)
  = true
  <-> PaperBroker.flat self
      /\ Binary64.mul price (inject_Z (get_lot_size (Contract.get_symbol contract)))
         <= PaperBroker.capital self.
Proof.
  unfold PaperBroker64.enter, PaperBroker.flat.
  destruct (PaperBroker.position self) as [pos|]; cbn [snd].
  - split; [discriminate | intros [H _]; discriminate].
  - destruct (Py.lt _ _) eqn:E; cbn [snd].
    + apply lt_true_iff in E. split; [discriminate|].
      intros [_ H]. exfalso. apply (Qlt_not_le _ _ E H).
    + apply lt_false_iff in E. split; [now split | reflexivity].
Qed.

(** What a round trip leaves: a successful [enter] at quote [q] followed
    by [exit] at quote [p]. *)
Lemma round_trip64 (self : PaperBroker.t) (side : string) (q p : Q)
      (contract : Contract.t) (ts_open ts_close reason : option string)
      (now1 now2 now3 now4 : string) :
  let opened := PaperBroker64.enter self side q contract ts_open now1 now2 in
  let closed := PaperBroker64.exit (fst opened) p ts_close reason now3 now4 in
  let s := PaperBroker.slippage_pct self in
  let long := String.eqb side "LONG" in
  let cost := Binary64.mul q 50 in
  let fill_in :=
    Binary64.add q (if long then Binary64.mul s q else Binary64.mul (- s) q) in
  let fill_out :=
    Binary64.sub p (if long then Binary64.mul s p else Binary64.mul (- s) p) in
  let pnl := if long then Binary64.mul (Binary64.sub fill_out fill_in) 50
             else Binary64.mul (Binary64.sub fill_in fill_out) 50 in
  snd opened = true ->
  PaperBroker.flat self
  /\ cost <= PaperBroker.capital self
  /\ PaperBroker.position (fst opened)
     = Some {| Position.side := side; Position.entry := fill_in;
               Position.qty := 50; Position.contract := contract |}
  /\ PaperBroker.capital (fst opened)
     = Binary64.sub (PaperBroker.capital self) cost
  /\ snd closed = Some pnl
  /\ PaperBroker.position (fst closed) = None
  /\ PaperBroker.capital (fst closed)
     = Binary64.add (Binary64.sub (PaperBroker.capital self) cost)
                    (Binary64.mul fill_out 50)
  /\ PaperBroker.initial_capital (fst closed) = PaperBroker.initial_capital self
  /\ exists trade,
       PaperBroker.closed_trades (fst closed)
       = PaperBroker.closed_trades self ++ [trade]
       /\ Trade.side trade = side
       /\ Trade.entry_price trade = fill_in
       /\ Trade.exit_price trade = fill_out
       /\ Trade.qty trade = 50%Z
       /\ Trade.pnl trade = pnl.
Proof.
  cbv zeta. intro Hok.
  pose proof (proj1 (enter64_true_iff _ _ _ _ _ _ _) Hok) as [Hflat Hcap].
  rewrite get_lot_size_50 in Hcap.
  unfold PaperBroker.flat in Hflat.
  unfold PaperBroker64.enter in *. rewrite Hflat in *.
  rewrite get_lot_size_50 in *.
  destruct (Py.lt _ _); [discriminate|].
  unfold PaperBroker64.exit. cbn.
  split; [exact Hflat|]. split; [exact Hcap|].
  repeat split. eexists. repeat split.
Qed.

End Broker64.

Section ExitFill.

(** The exit fill against the exact [quote * (1 -/+ slippage)]. *)
Lemma exit_fill_long (s p : Q) :
  0 <= s -> s <= 1 -> 0 <= p ->
  Qabs (Binary64.sub p (Binary64.mul s p) - p * (1 - s))
  <= 4 * Binary64.u * p + 3 * Binary64.eta.
Proof.
  intros Hs0 Hs1 Hp.
  assert (Hc : Binary64.mul 0 50 <= 0).
  { unfold Binary64.mul. rewrite (round_compat (0 * 50) 0 ltac:(ring)).
    rewrite round_zero. lra. }
  exact (proj1 (proj2 (long_round_trip_arith s 0 p 0 Hs0 Hs1 (Qle_refl 0) Hp Hc))).
Qed.

Lemma exit_fill_short (s p : Q) :
  0 <= s -> s <= 1 -> 0 <= p ->
  Qabs (Binary64.sub p (Binary64.mul (- s) p) - p * (1 + s))
  <= 4 * Binary64.u * p + 3 * Binary64.eta.
Proof.
  intros Hs0 Hs1 Hp.
  assert (Hc : Binary64.mul 0 50 <= 0).
  { unfold Binary64.mul. rewrite (round_compat (0 * 50) 0 ltac:(ring)).
    rewrite round_zero. lra. }
  exact (proj1 (proj2 (short_round_trip_arith s 0 p 0 Hs0 Hs1 (Qle_refl 0) Hp Hc))).
Qed.

End ExitFill.

(** C2, as stated, fails in the arithmetic the code runs in: on the
    broker of [run], [open(LONG, 100)] then [close(110)] fills at the
    doubles nearest to 100.1 and 109.89, and the realized pnl, their
    rounded difference times 50, is [489.5 + 3 * 2^-43]
    (489.50000000000034), not 489.5. *)
Lemma C2_pnl_is_not_489_5 :
  let opened := PaperBroker64.enter run_broker64 "LONG" 100 nifty_call None "t0" "t1" in
  let closed := PaperBroker64.exit (fst opened) 110 None (Some "t"%string) "t2" "t3" in
  snd opened = true
  /\ exists trade pnl,
       PaperBroker.closed_trades (fst closed) = [trade]
       /\ Trade.entry_price trade == Binary64.round 100.1
       /\ Trade.exit_price trade == Binary64.round 109.89
       /\ snd closed = Some pnl
       /\ pnl == 489.5 + (3 # 8796093022208)
       /\ ~ pnl == 489.5.
Proof.
  cbv zeta. split; [vm_compute; reflexivity|].
  do 2 eexists. split; [vm_compute; reflexivity|].
  split; [vm_compute; reflexivity|]. split; [vm_compute; reflexivity|].
  split; [vm_compute; reflexivity|].
  split; [vm_compute; reflexivity | intro H; vm_compute in H; discriminate H].
Qed.

(** C2, amended: from a flat account with slippage 0.001 (the double)
    and capital covering [100 * 50], [open(LONG, 100, contract)] succeeds
    with quantity 50 and an entry fill that is the double nearest to
    100.1, and the following [close(110)] fills at the double nearest to
    109.89 and returns, and records, the pnl
    [(109.89 - 100.1) * 50] evaluated in binary64, which is
    [489.5 + 3 * 2^-43], within [1e-12] of 489.5.  In general, [close] on a
    held position fills at [quote - slippage * quote] for LONG and
    [quote - (-slippage) * quote] for SHORT, each operation rounded, which
    is within [4 * u * quote + 3 * eta] of [quote * (1 - slippage)] and
    [quote * (1 + slippage)]; it realizes the rounded
    [(exit_fill - entry_fill) * qty] for LONG and
    [(entry_fill - exit_fill) * qty] for SHORT, returns that pnl, and sets
    capital to the rounded [capital + exit_fill * qty]. *)
Theorem C2_round_trip_in_binary64
        (self : PaperBroker.t) (contract : Contract.t)
        (ts_open ts_close reason : option string)
        (now1 now2 now3 now4 : string) :
  PaperBroker.flat self ->
  PaperBroker.slippage_pct self == Binary64.round 0.001 ->
  100 * 50 <= PaperBroker.capital self ->
  (let opened := PaperBroker64.enter self "LONG" 100 contract ts_open now1 now2 in
   let closed := PaperBroker64.exit (fst opened) 110 ts_close reason now3 now4 in
   snd opened = true
   /\ exists pos trade pnl,
        PaperBroker.position (fst opened) = Some pos
        /\ Position.entry pos == Binary64.round 100.1
        /\ Position.qty pos = 50%Z
        /\ snd closed = Some pnl
        /\ PaperBroker.closed_trades (fst closed)
           = PaperBroker.closed_trades self ++ [trade]
        /\ Trade.entry_price trade == Binary64.round 100.1
        /\ Trade.exit_price trade == Binary64.round 109.89
        /\ Trade.pnl trade = pnl
        /\ pnl == Binary64.mul (Binary64.sub (Binary64.round 109.89)
                                             (Binary64.round 100.1)) 50
        /\ pnl == 489.5 + (3 # 8796093022208)
        /\ Qabs (pnl - 489.5) <= 1 # 1000000000000
        /\ PaperBroker.position (fst closed) = None)
  /\ (forall (held : PaperBroker.t) (pos : Position.t) (price : Q)
             (timestamp why : option string) (now_stamp now_log : string),
        PaperBroker.position held = Some pos ->
        let s := PaperBroker.slippage_pct held in
        let qty := inject_Z (Position.qty pos) in
        let closed := PaperBroker64.exit held price timestamp why now_stamp now_log in
        exists trade,
          PaperBroker.closed_trades (fst closed)
          = PaperBroker.closed_trades held ++ [trade]
          /\ snd closed = Some (Trade.pnl trade)
          /\ Trade.entry_price trade = Position.entry pos
          /\ (Position.side pos = "LONG"%string ->
              Trade.exit_price trade = Binary64.sub price (Binary64.mul s price)
              /\ Trade.pnl trade
                 = Binary64.mul (Binary64.sub (Trade.exit_price trade)
                                              (Position.entry pos)) qty
              /\ (0 <= s -> s <= 1 -> 0 <= price ->
                  Qabs (Trade.exit_price trade - price * (1 - s))
                  <= 4 * Binary64.u * price + 3 * Binary64.eta))
          /\ (Position.side pos = "SHORT"%string ->
              Trade.exit_price trade = Binary64.sub price (Binary64.mul (- s) price)
              /\ Trade.pnl trade
                 = Binary64.mul (Binary64.sub (Position.entry pos)
                                              (Trade.exit_price trade)) qty
              /\ (0 <= s -> s <= 1 -> 0 <= price ->
                  Qabs (Trade.exit_price trade - price * (1 + s))
                  <= 4 * Binary64.u * price + 3 * Binary64.eta))
          /\ PaperBroker.capital (fst closed)
             = Binary64.add (PaperBroker.capital held)
                            (Binary64.mul (Trade.exit_price trade) qty)
          /\ PaperBroker.position (fst closed) = None).
Proof.
  intros Hflat Hs Hcap. split.
  - cbv zeta.
    assert (Hok : snd (PaperBroker64.enter self "LONG" 100 contract ts_open now1 now2)
                  = true).
    { apply enter64_true_iff. split; [exact Hflat|].
      rewrite get_lot_size_50.
      assert (E : Binary64.mul 100 (inject_Z 50) == 100 * 50)
        by (vm_compute; reflexivity).
      rewrite E. exact Hcap. }
    split; [exact Hok|].
    destruct (round_trip64 self "LONG" 100 110 contract ts_open ts_close reason
                           now1 now2 now3 now4 Hok)
      as (_ & _ & Hpos & _ & Hpnl & Hnone & _ & _ & trade & Hct & _ & Hin & Hout & _ & Htp).
    cbn [String.eqb Ascii.eqb Bool.eqb] in Hpos, Hpnl, Hin, Hout, Htp.
    assert (E100 : Binary64.mul (PaperBroker.slippage_pct self) 100
                   = Binary64.mul (Binary64.round 0.001) 100).
    { unfold Binary64.mul. apply round_compat. now rewrite Hs. }
    assert (E110 : Binary64.mul (PaperBroker.slippage_pct self) 110
                   = Binary64.mul (Binary64.round 0.001) 110).
    { unfold Binary64.mul. apply round_compat. now rewrite Hs. }
    rewrite E100 in Hpos, Hpnl, Hin, Htp. rewrite E110 in Hpnl, Hout, Htp.
    eexists. exists trade. eexists.
    split; [exact Hpos|]. cbn [Position.entry Position.qty].
    split; [vm_compute; reflexivity|]. split; [reflexivity|].
    split; [exact Hpnl|]. split; [exact Hct|].
    rewrite Hin, Hout, Htp.
    split; [vm_compute; reflexivity|]. split; [vm_compute; reflexivity|].
    split; [reflexivity|].
    split; [vm_compute; reflexivity|]. split; [vm_compute; reflexivity|].
    split; [|exact Hnone].
    vm_compute. discriminate.
  - intros held pos price timestamp why now_stamp now_log Hpos s qty closed.
    unfold closed, PaperBroker64.exit. rewrite Hpos. cbn [fst snd].
    eexists. split; [reflexivity|].
    cbn [Trade.pnl Trade.entry_price Trade.exit_price].
    split; [reflexivity|]. split; [reflexivity|].
    split; [|split; [|split; reflexivity]].
    + intros ->. cbn [String.eqb Ascii.eqb Bool.eqb].
      split; [reflexivity|]. split; [reflexivity|].
      intros. now apply exit_fill_long.
    + intros ->. cbn [String.eqb Ascii.eqb Bool.eqb].
      split; [reflexivity|]. split; [reflexivity|].
      intros. now apply exit_fill_short.
Qed.

(** The amended C2 on the broker of [run] and a NIFTY call leg. *)
Lemma C2_round_trip_in_binary64_witness :
  let opened := PaperBroker64.enter run_broker64 "LONG" 100 nifty_call None "t0" "t1" in
  let closed := PaperBroker64.exit (fst opened) 110 None (Some "t"%string) "t2" "t3" in
  snd opened = true
  /\ exists pos trade pnl,
       PaperBroker.position (fst opened) = Some pos
       /\ Position.entry pos == Binary64.round 100.1
       /\ snd closed = Some pnl
       /\ PaperBroker.closed_trades (fst closed) = [trade]
       /\ Trade.exit_price trade == Binary64.round 109.89
       /\ pnl == 489.5 + (3 # 8796093022208).
Proof.
  destruct (C2_round_trip_in_binary64
              run_broker64 nifty_call None None (Some "t"%string) "t0" "t1" "t2" "t3"
              eq_refl ltac:(reflexivity) ltac:(discriminate))
    as [(Hok & pos & trade & pnl & H1 & H2 & _ & H4 & H5 & _ & H7 & _ & _ & H10 & _) _].
  split; [exact Hok|].
  exists pos, trade, pnl. repeat split; assumption.
Defined.

(** C10, as stated, fails for a quote of 0: on the broker of [run]
    (slippage 0.001), [open(LONG, 0, contract)] succeeds, [close(110)]
    realizes 5494.5, and afterwards [current_capital - initial_capital]
    equals [total_pnl], in the binary64 arithmetic of the code as in exact
    arithmetic. *)
Lemma C10_zero_quote_reconciles :
  let opened := PaperBroker64.enter run_broker64 "LONG" 0 nifty_call None "t0" "t1" in
  let closed := PaperBroker64.exit (fst opened) 110 None None "t2" "t3" in
  let summ := PaperBroker.summary (fst closed) in
  0 < PaperBroker.slippage_pct run_broker64
  /\ snd opened = true
  /\ (exists pnl, snd closed = Some pnl /\ pnl == 5494.5)
  /\ PaperBroker.num_trades summ = 1%nat
  /\ PaperBroker.current_capital summ - PaperBroker.s_initial_capital summ
     == PaperBroker.total_pnl summ.
Proof.
  cbv zeta. split; [vm_compute; reflexivity|]. split; [vm_compute; reflexivity|].
  split; [eexists; split; vm_compute; reflexivity|].
  split; vm_compute; reflexivity.
Qed.

(** C10, amended: for a LONG [open] at quote [q] that succeeds and the
    [close] at quote [p] that follows, with slippage [s] in [0, 1] and
    non-negative quotes, in the binary64 arithmetic of the code: the
    capital change over the round trip is [(p * (1 - s) - q) * 50] up to
    [capital_slack], the recorded pnl is [(p * (1 - s) - q * (1 + s)) * 50]
    up to [pnl_slack], and the first exceeds the second by [s * q * 50] up
    to the sum of the two allowances.  So the capital change is above the
    recorded pnl whenever [s * q * 50] exceeds that sum, and after such a
    round trip on a new account [current_capital - initial_capital] of
    [summary] differs from [total_pnl]. *)
Theorem C10_round_trip_discrepancy
        (self : PaperBroker.t) (q p : Q) (contract : Contract.t)
        (ts_open ts_close reason : option string)
        (now1 now2 now3 now4 : string) :
  let opened := PaperBroker64.enter self "LONG" q contract ts_open now1 now2 in
  let closed := PaperBroker64.exit (fst opened) p ts_close reason now3 now4 in
  let s := PaperBroker.slippage_pct self in
  let cap := PaperBroker.capital self in
  let slack := pnl_slack q p + capital_slack cap q p in
  0 <= s -> s <= 1 -> 0 <= q -> 0 <= p ->
  snd opened = true ->
  exists pos trade,
    PaperBroker.flat self
    /\ PaperBroker.position (fst opened) = Some pos
    /\ PaperBroker.closed_trades (fst closed)
       = PaperBroker.closed_trades self ++ [trade]
    /\ snd closed = Some (Trade.pnl trade)
    /\ Trade.entry_price trade = Position.entry pos
    /\ Trade.qty trade = 50%Z
    /\ Qabs (Trade.entry_price trade - q * (1 + s))
       <= 4 * Binary64.u * q + 3 * Binary64.eta
    /\ Qabs (Trade.exit_price trade - p * (1 - s))
       <= 4 * Binary64.u * p + 3 * Binary64.eta
    /\ Qabs (PaperBroker.capital (fst closed) - cap - (p * (1 - s) - q) * 50)
       <= capital_slack cap q p
    /\ Qabs (Trade.pnl trade - (p * (1 - s) - q * (1 + s)) * 50)
       <= pnl_slack q p
    /\ Qabs (PaperBroker.capital (fst closed) - cap - Trade.pnl trade - s * q * 50)
       <= slack
    /\ (slack < s * q * 50 ->
        Trade.pnl trade < PaperBroker.capital (fst closed) - cap)
    /\ (PaperBroker.closed_trades self = [] ->
        PaperBroker.capital self == PaperBroker.initial_capital self ->
        let summ := PaperBroker.summary (fst closed) in
        Qabs (PaperBroker.current_capital summ - PaperBroker.s_initial_capital summ
              - PaperBroker.total_pnl summ - s * q * 50) <= slack
        /\ (slack < s * q * 50 ->
            ~ PaperBroker.current_capital summ - PaperBroker.s_initial_capital summ
              == PaperBroker.total_pnl summ)).
Proof.
  intros opened closed s cap slack Hs0 Hs1 Hq Hp Hok.
  subst opened closed.
  destruct (round_trip64 self "LONG" q p contract ts_open ts_close reason
                         now1 now2 now3 now4 Hok)
    as (Hflat & Hcost & Hpos & _ & Hpnl & _ & Hcap2 & Hinit & trade & Hct & _
        & Hin & Hout & Hqty & Htp).
  cbn [String.eqb Ascii.eqb Bool.eqb] in Hpos, Hpnl, Hcap2, Hin, Hout, Htp.
  destruct (long_round_trip_arith s q p cap Hs0 Hs1 Hq Hp Hcost)
    as (A1 & A2 & A3 & A4 & A5).
  fold s in Hin, Hout, Htp, Hpnl, Hcap2. fold cap in Hcap2.
  eexists. exists trade.
  split; [exact Hflat|]. split; [exact Hpos|]. split; [exact Hct|].
  split; [rewrite Htp; exact Hpnl|].
  cbn [Position.entry]. split; [exact Hin|]. split; [exact Hqty|].
  rewrite Hin, Hout, Htp, Hcap2.
  split; [exact A1|]. split; [exact A2|]. split; [exact A4|].
  split; [exact A3|]. split; [exact A5|].
  set (cap2 := Binary64.add (Binary64.sub cap (Binary64.mul q 50))
                            (Binary64.mul (Binary64.sub p (Binary64.mul s p)) 50)) in *.
  set (pnl := Binary64.mul (Binary64.sub (Binary64.sub p (Binary64.mul s p))
                                         (Binary64.add q (Binary64.mul s q))) 50) in *.
  set (sq := s * q) in *.
  assert (Hgap : slack < sq * 50 -> pnl < cap2 - cap).
  { intro Hgt. apply Qabs_Qle_condition in A5. destruct A5 as [A5 _].
    unfold slack in *.
    set (k := pnl_slack q p + capital_slack cap q p) in *. clearbody k cap2 pnl sq cap.
    lra. }
  split; [exact Hgap|].
  intros Hnil Hfresh. cbv zeta.
  unfold PaperBroker.summary.
  cbn [PaperBroker.current_capital PaperBroker.s_initial_capital
       PaperBroker.total_pnl].
  rewrite Hct, Hcap2, Hinit, Hnil. cbn [app map]. rewrite Htp.
  unfold Py.sum. cbn [fold_left]. fold cap2 pnl.
  assert (E : cap2 - PaperBroker.initial_capital self - (0 + pnl) - sq * 50
              == cap2 - cap - pnl - sq * 50).
  { unfold cap. rewrite Hfresh. ring. }
  split; [rewrite E; exact A5|].
  intros Hgt Heq. pose proof (Hgap Hgt) as Hlt.
  assert (E2 : cap2 - cap == pnl).
  { unfold cap. rewrite Hfresh. rewrite Heq. ring. }
  rewrite E2 in Hlt. apply (Qlt_irrefl _ Hlt).
Qed.

(** The amended C10 on the broker of [run]: quote 100 in, 110 out.  The
    capital change is 494.5, the recorded pnl [489.5 + 3 * 2^-43]. *)
Lemma C10_round_trip_discrepancy_witness :
  let opened := PaperBroker64.enter run_broker64 "LONG" 100 nifty_call None "t0" "t1" in
  let closed := PaperBroker64.exit (fst opened) 110 None None "t2" "t3" in
  let summ := PaperBroker.summary (fst closed) in
  snd opened = true
  /\ PaperBroker.current_capital summ - PaperBroker.s_initial_capital summ == 494.5
  /\ PaperBroker.total_pnl summ == 489.5 + (3 # 8796093022208)
  /\ ~ PaperBroker.current_capital summ - PaperBroker.s_initial_capital summ
       == PaperBroker.total_pnl summ.
Proof.
  cbv zeta. split; [vm_compute; reflexivity|].
  split; [vm_compute; reflexivity|]. split; [vm_compute; reflexivity|].
  destruct (C10_round_trip_discrepancy
              run_broker64 100 110 nifty_call None None None "t0" "t1" "t2" "t3"
              ltac:(vm_compute; discriminate) ltac:(vm_compute; discriminate)
              ltac:(discriminate) ltac:(discriminate)
              ltac:(vm_compute; reflexivity))
    as (pos & trade & _ & _ & _ & _ & _ & _ & _ & _ & _ & _ & _ & _ & Hnew).
  destruct (Hnew eq_refl ltac:(reflexivity)) as [_ Hdiff].
  apply Hdiff. vm_compute. reflexivity.
Defined.

(** X15: a round trip whose [close] gets the same quote as its [open]
    realizes [-2 * slippage * quote * 50] up to the rounding allowance
    [pnl_slack], for LONG and for SHORT alike: slippage is charged once on
    the way in and once on the way out, so the round trip loses money
    whenever that charge exceeds the allowance. *)
Theorem X15_flat_market_round_trip_cost
        (self : PaperBroker.t) (side : string) (q : Q) (contract : Contract.t)
        (ts_open ts_close reason : option string)
        (now1 now2 now3 now4 : string) :
  side = "LONG"%string \/ side = "SHORT"%string ->
  let opened := PaperBroker64.enter self side q contract ts_open now1 now2 in
  let closed := PaperBroker64.exit (fst opened) q ts_close reason now3 now4 in
  let s := PaperBroker.slippage_pct self in
  0 <= s -> s <= 1 -> 0 <= q ->
  snd opened = true ->
  exists pnl,
    snd closed = Some pnl
    /\ Qabs (pnl + 2 * s * q * 50) <= pnl_slack q q
    /\ (pnl_slack q q < 2 * s * q * 50 -> pnl < 0).
Proof.
  intros Hside opened closed s Hs0 Hs1 Hq Hok.
  subst opened closed.
  destruct (round_trip64 self side q q contract ts_open ts_close reason
                         now1 now2 now3 now4 Hok)
    as (_ & Hcost & _ & _ & Hpnl & _).
  fold s in Hpnl.
  eexists. split; [exact Hpnl|].
  assert (Hb : Qabs ((if String.eqb side "LONG"
                      then Binary64.mul
                             (Binary64.sub (Binary64.sub q (Binary64.mul s q))
                                           (Binary64.add q (Binary64.mul s q))) 50
                      else Binary64.mul
                             (Binary64.sub (Binary64.add q (Binary64.mul (- s) q))
                                           (Binary64.sub q (Binary64.mul (- s) q))) 50)
                     + 2 * s * q * 50) <= pnl_slack q q).
  { destruct Hside as [-> | ->]; cbn [String.eqb Ascii.eqb Bool.eqb].
    - destruct (long_round_trip_arith s q q _ Hs0 Hs1 Hq Hq Hcost)
        as (_ & _ & A3 & _).
      assert (E : forall x, x + 2 * s * q * 50
                            == x - (q * (1 - s) - q * (1 + s)) * 50)
        by (intro; ring).
      rewrite E. exact A3.
    - destruct (short_round_trip_arith s q q _ Hs0 Hs1 Hq Hq Hcost)
        as (_ & _ & A3 & _).
      assert (E : forall x, x + 2 * s * q * 50
                            == x - (q * (1 - s) - q * (1 + s)) * 50)
        by (intro; ring).
      rewrite E. exact A3. }
  destruct Hside as [-> | ->]; cbn [String.eqb Ascii.eqb Bool.eqb] in *;
    (split; [exact Hb|]);
    intro Hgt; apply Qabs_Qle_condition in Hb; destruct Hb as [_ Hb];
    set (pnl := Binary64.mul (Binary64.sub _ _) 50) in *; set (k := pnl_slack q q) in *;
    set (sq := s * q) in *; clearbody pnl k sq; lra.
Qed.

(** X15 on a SHORT round trip at quote 100 on the broker of [run]: the
    pnl returned is [-10 + 5 * 2^-43]. *)
Lemma X15_flat_market_round_trip_cost_witness :
  exists pnl,
    snd (PaperBroker64.exit
           (fst (PaperBroker64.enter run_broker64 "SHORT" 100 nifty_call None "t0" "t1"))
           100 None None "t2" "t3") = Some pnl
    /\ pnl == - 10 + (5 # 8796093022208)
    /\ pnl < 0.
Proof.
  destruct (X15_flat_market_round_trip_cost
              run_broker64 "SHORT" 100 nifty_call None None None "t0" "t1" "t2" "t3"
              (or_intror eq_refl)
              ltac:(vm_compute; discriminate) ltac:(vm_compute; discriminate)
              ltac:(discriminate) ltac:(vm_compute; reflexivity))
    as (pnl & H1 & _ & H3).
  exists pnl. split; [exact H1|].
  split; [|apply H3; vm_compute; reflexivity].
  pose proof H1 as Hc. vm_compute in Hc. injection Hc as <-.
  vm_compute. reflexivity.
Defined.

(** X16: for a SHORT round trip ([open] at quote [q], [close] at quote
    [p]) capital is still debited [q * 50] on the way in and credited
    [exit_fill * 50] on the way out, as for a purchase.  Up to the rounding
    allowances the pnl is [(q * (1 - s) - p * (1 + s)) * 50] and the capital
    change [(p * (1 + s) - q) * 50], that is [- pnl - s * q * 50]: a short
    that realizes a profit above the allowance lowers capital, and one
    that realizes a loss beyond [s * q * 50] plus the allowance raises
    it. *)
Theorem X16_short_round_trip_capital
        (self : PaperBroker.t) (q p : Q) (contract : Contract.t)
        (ts_open ts_close reason : option string)
        (now1 now2 now3 now4 : string) :
  let opened := PaperBroker64.enter self "SHORT" q contract ts_open now1 now2 in
  let closed := PaperBroker64.exit (fst opened) p ts_close reason now3 now4 in
  let s := PaperBroker.slippage_pct self in
  let cap := PaperBroker.capital self in
  let slack := pnl_slack q p + capital_slack cap q p in
  0 <= s -> s <= 1 -> 0 <= q -> 0 <= p ->
  snd opened = true ->
  exists pnl,
    snd closed = Some pnl
    /\ Qabs (pnl - (q * (1 - s) - p * (1 + s)) * 50) <= pnl_slack q p
    /\ Qabs (PaperBroker.capital (fst closed) - cap - (p * (1 + s) - q) * 50)
       <= capital_slack cap q p
    /\ Qabs (PaperBroker.capital (fst closed) - cap + pnl + s * q * 50) <= slack
    /\ (slack < pnl -> PaperBroker.capital (fst closed) < cap)
    /\ (pnl < - (slack + s * q * 50) -> cap < PaperBroker.capital (fst closed)).
Proof.
  intros opened closed s cap slack Hs0 Hs1 Hq Hp Hok.
  subst opened closed.
  destruct (round_trip64 self "SHORT" q p contract ts_open ts_close reason
                         now1 now2 now3 now4 Hok)
    as (_ & Hcost & _ & _ & Hpnl & _ & Hcap2 & _).
  cbn [String.eqb Ascii.eqb Bool.eqb] in Hpnl, Hcap2.
  destruct (short_round_trip_arith s q p cap Hs0 Hs1 Hq Hp Hcost)
    as (_ & _ & A3 & A4 & A5).
  fold s in Hpnl, Hcap2. fold cap in Hcap2.
  eexists. split; [exact Hpnl|]. rewrite Hcap2.
  split; [exact A3|]. split; [exact A4|]. split; [exact A5|].
  destruct (slip_bounds s q Hs0 Hs1 Hq) as [Hsq _].
  apply Qabs_Qle_condition in A5. destruct A5 as [A5l A5u].
  unfold slack in *.
  set (cap2 := Binary64.add (Binary64.sub cap (Binary64.mul q 50)) _) in *.
  set (pnl := Binary64.mul (Binary64.sub _ _) 50) in *.
  set (k := pnl_slack q p + capital_slack cap q p) in *.
  set (sq := s * q) in *. clearbody cap2 pnl k sq cap.
  split; intro; lra.
Qed.

(** X16 on a short opened at 100 and closed at 90 on the broker of
    [run]: a realized profit of [490.5 + 2^-43] and a capital of 99504.5. *)
Lemma X16_short_round_trip_capital_witness :
  let opened := PaperBroker64.enter run_broker64 "SHORT" 100 nifty_call None "t0" "t1" in
  let closed := PaperBroker64.exit (fst opened) 90 None None "t2" "t3" in
  exists pnl,
    snd closed = Some pnl
    /\ pnl == 490.5 + (1 # 8796093022208)
    /\ PaperBroker.capital (fst closed) == 99504.5
    /\ PaperBroker.capital (fst closed) < PaperBroker.capital run_broker64.
Proof.
  cbv zeta.
  destruct (X16_short_round_trip_capital
              run_broker64 100 90 nifty_call None None None "t0" "t1" "t2" "t3"
              ltac:(vm_compute; discriminate) ltac:(vm_compute; discriminate)
              ltac:(discriminate) ltac:(discriminate)
              ltac:(vm_compute; reflexivity))
    as (pnl & H1 & _ & _ & _ & H5 & _).
  exists pnl. split; [exact H1|].
  pose proof H1 as Hc. vm_compute in Hc. injection Hc as Hc.
  split; [rewrite <- Hc; vm_compute; reflexivity|].
  split; [vm_compute; reflexivity|].
  apply H5. rewrite <- Hc. vm_compute. reflexivity.
Defined.
